(** * PyRelDB: a shallow embedding of the engine core

    The development follows the Python sources module by module:
    [types.py] (values, columns), [parser.py] (tokenizer and parser),
    [index.py] (B-tree and hash index), [table.py] (rows, tables),
    [executor.py] (statements, joins, ORDER BY, LIMIT) and [storage.py]
    (catalog, snapshot save and load).

    Python objects that are mutated in place are modelled by explicit state
    passing; a Python exception is the [Err] case of [result]. *)

From Stdlib Require Import ZArith Ascii String List Lia Bool.
From stdpp Require Import base option list strings pretty sorting.

Local Open Scope Z_scope.

(** ** Exceptions and the error monad

    [RecursionError] is what a recursive descent raises when it is given
    less fuel than the tree is high; [BTreeIndex.insert] gives enough. *)

Inductive PyError : Type :=
  | ValueError (msg : string)
  | TypeError (msg : string)
  | IndexError (msg : string)
  | KeyError (msg : string)
  | AttributeError (msg : string)
  | RecursionError.

Inductive result (A : Type) : Type :=
  | Ok (a : A)
  | Err (e : PyError).
Arguments Ok {A} a.
Arguments Err {A} e.

#[global] Instance result_ret : MRet result := fun A a => Ok a.
#[global] Instance result_bind : MBind result := fun A B f m =>
  match m with
  | Ok a => f a
  | Err e => Err e
  end.
#[global] Instance result_fmap : FMap result := fun A B f m =>
  match m with
  | Ok a => Ok (f a)
  | Err e => Err e
  end.

Definition index_out_of_range : PyError := IndexError "list index out of range".

(** [l[i]] for a non-negative index: out of range raises IndexError. *)
Definition py_index {A} (l : list A) (i : nat) : result A :=
  match l !! i with
  | Some a => Ok a
  | None => Err index_out_of_range
  end.

(** [l[i]] for any integer: a negative index counts from the end. *)
Definition norm_index (len i : Z) : Z := if i <? 0 then i + len else i.

Definition py_getitem {A} (l : list A) (i : Z) : result A :=
  let j := norm_index (Z.of_nat (length l)) i in
  if j <? 0 then Err index_out_of_range else py_index l (Z.to_nat j).

(** Slices [l[i:]] and [l[:i]]: bounds are clamped, never an error. *)
Definition slice_bound (len i : Z) : nat :=
  Z.to_nat (Z.max 0 (Z.min len (norm_index len i))).
Definition slice_from {A} (l : list A) (i : Z) : list A :=
  drop (slice_bound (Z.of_nat (length l)) i) l.
Definition slice_to {A} (l : list A) (i : Z) : list A :=
  take (slice_bound (Z.of_nat (length l)) i) l.

(** [l.insert(i, x)] for [i >= 0]: past the end it appends. *)
Definition list_insert_at {A} (i : nat) (x : A) (l : list A) : list A :=
  take i l ++ x :: drop i l.

(** [del l[i]] for an index in range. *)
Definition list_del {A} (i : nat) (l : list A) : list A :=
  take i l ++ drop (S i) l.

Definition join_result {A} (r : result (result A)) : result A :=
  match r with
  | Ok x => x
  | Err e => Err e
  end.

(** A Python [dict] with string keys: an association list in insertion
    order; assigning to an existing key keeps its position. *)
Abbreviation dict V := (list (string * V)).

Section Dict.
Context {V : Type}.

Fixpoint dict_get (k : string) (d : dict V) : option V :=
  match d with
  | [] => None
  | (k', v) :: d' => if bool_decide (k = k') then Some v else dict_get k d'
  end.

Definition dict_mem (k : string) (d : dict V) : bool :=
  match dict_get k d with Some _ => true | None => false end.

Fixpoint dict_set (k : string) (v : V) (d : dict V) : dict V :=
  match d with
  | [] => [(k, v)]
  | (k', v') :: d' =>
      if bool_decide (k = k') then (k', v) :: d' else (k', v') :: dict_set k v d'
  end.

(** [d[k]]: KeyError when absent. *)
Definition dict_item (k : string) (d : dict V) : result V :=
  match dict_get k d with
  | Some v => Ok v
  | None => Err (KeyError k)
  end.

Definition dict_keys (d : dict V) : list string := d.*1.

End Dict.

(** ** Values ([types.py])

    The scalars a cell can hold.  A finite Python float is the dyadic
    rational [fnum * 2 ^ fexp]; NaN and the infinities are outside the model.
    A [datetime] is naive (no time zone). *)

Record pyfloat : Type := PyFloat { fnum : Z; fexp : Z }.

Record datetime : Type := DateTime {
  year : Z; month : Z; day : Z;
  hour : Z; minute : Z; second : Z; microsecond : Z
}.

Inductive Value : Type :=
  | VNone
  | VBool (b : bool)
  | VInt (n : Z)
  | VFloat (f : pyfloat)
  | VStr (s : string)
  | VDatetime (d : datetime).

#[global] Instance pyfloat_eq_dec : EqDecision pyfloat.
Proof. solve_decision. Defined.
#[global] Instance datetime_eq_dec : EqDecision datetime.
Proof. solve_decision. Defined.
#[global] Instance Value_eq_dec : EqDecision Value.
Proof. solve_decision. Defined.

(** Numeric tower: bool, int and float compare by numeric value. *)
Definition as_number (v : Value) : option pyfloat :=
  match v with
  | VBool b => Some (PyFloat (if b then 1 else 0) 0)
  | VInt n => Some (PyFloat n 0)
  | VFloat f => Some f
  | _ => None
  end.

Definition float_compare (a b : pyfloat) : comparison :=
  let e := Z.min (fexp a) (fexp b) in
  Z.compare (fnum a * 2 ^ (fexp a - e)) (fnum b * 2 ^ (fexp b - e)).

Definition datetime_key (d : datetime) : list Z :=
  [year d; month d; day d; hour d; minute d; second d; microsecond d].

Fixpoint lex_compare (a b : list Z) : comparison :=
  match a, b with
  | [], [] => Eq
  | [], _ :: _ => Lt
  | _ :: _, [] => Gt
  | x :: a', y :: b' =>
      match Z.compare x y with
      | Eq => lex_compare a' b'
      | c => c
      end
  end.

Definition str_key (s : string) : list Z :=
  map (fun c => Z.of_N (N_of_ascii c)) (list_ascii_of_string s).

(** Three-way comparison where Python defines an order; [None] where
    [<] raises TypeError. *)
Definition py_compare (a b : Value) : option comparison :=
  match as_number a, as_number b with
  | Some x, Some y => Some (float_compare x y)
  | _, _ =>
      match a, b with
      | VStr s, VStr t => Some (lex_compare (str_key s) (str_key t))
      | VDatetime d, VDatetime d' =>
          Some (lex_compare (datetime_key d) (datetime_key d'))
      | _, _ => None
      end
  end.

(** [a == b]: never raises. *)
Definition py_eq (a b : Value) : bool :=
  match a, b with
  | VNone, VNone => true
  | _, _ =>
      match py_compare a b with
      | Some Eq => true
      | _ => false
      end
  end.

Definition not_supported : PyError :=
  TypeError "comparison not supported between these instances".

Definition py_cmp_with (f : comparison -> bool) (a b : Value) : result bool :=
  match py_compare a b with
  | Some c => Ok (f c)
  | None => Err not_supported
  end.

Definition py_lt := py_cmp_with (fun c => match c with Lt => true | _ => false end).
Definition py_gt := py_cmp_with (fun c => match c with Gt => true | _ => false end).
Definition py_le := py_cmp_with (fun c => match c with Gt => false | _ => true end).
Definition py_ge := py_cmp_with (fun c => match c with Lt => false | _ => true end).

(** [bool(value)] *)
Definition py_bool (v : Value) : bool :=
  match v with
  | VNone => false
  | VBool b => b
  | VInt n => negb (n =? 0)
  | VFloat f => negb (fnum f =? 0)
  | VStr s => negb (String.length s =? 0)%nat
  | VDatetime _ => true
  end.

Definition lower_ascii (c : ascii) : ascii :=
  let n := nat_of_ascii c in
  if ((65 <=? n) && (n <=? 90))%nat then ascii_of_nat (n + 32) else c.

Definition upper_ascii (c : ascii) : ascii :=
  let n := nat_of_ascii c in
  if ((97 <=? n) && (n <=? 122))%nat then ascii_of_nat (n - 32) else c.

Definition str_lower (s : string) : string :=
  string_of_list_ascii (map lower_ascii (list_ascii_of_string s)).

Definition str_upper (s : string) : string :=
  string_of_list_ascii (map upper_ascii (list_ascii_of_string s)).

Definition string_in (s : string) (l : list string) : bool :=
  bool_decide (s ∈ l).

(** The builtins [Column.convert] calls and the engine does not define:
    [int(v)], [float(v)], [str(v)] and [datetime.strptime(s, fmt)]. *)
Class PyBuiltins : Type := {
  py_int : Value -> result Z;
  py_float : Value -> result pyfloat;
  py_str : Value -> string;
  strptime : string -> string -> result datetime
}.

Inductive DataType : Type := INT | VARCHAR | FLOAT | BOOLEAN | DATETIME.

#[global] Instance DataType_eq_dec : EqDecision DataType.
Proof. solve_decision. Defined.

Definition DataType_value (t : DataType) : string :=
  match t with
  | INT => "INT" | VARCHAR => "VARCHAR" | FLOAT => "FLOAT"
  | BOOLEAN => "BOOLEAN" | DATETIME => "DATETIME"
  end.

Module Column.

Record t : Type := Make {
  name : string;
  data_type : DataType;
  length : option Z;
  nullable : bool;
  primary_key : bool;
  unique : bool;
  default : Value
}.

Section WithBuiltins.
Context `{PyBuiltins}.

Definition datetime_formats : list string :=
  ["%Y-%m-%d %H:%M:%S"; "%Y-%m-%d"; "%Y-%m-%dT%H:%M:%S"].

(** The [for fmt in ...: try ... except ValueError: continue] loop. *)
Fixpoint try_formats (s : string) (fmts : list string) : result Value :=
  match fmts with
  | [] => Err (ValueError ("Cannot parse datetime: " +:+ s))
  | fmt :: rest =>
      match strptime s fmt with
      | Ok d => Ok (VDatetime d)
      | Err (ValueError _) => try_formats s rest
      | Err e => Err e
      end
  end.

Definition convert (self : t) (value : Value) : result Value :=
  match value with
  | VNone => Ok VNone
  | _ =>
      match data_type self with
      | INT => n ← py_int value; Ok (VInt n)
      | FLOAT => f ← py_float value; Ok (VFloat f)
      | VARCHAR => Ok (VStr (py_str value))
      | BOOLEAN =>
          match value with
          | VBool b => Ok (VBool b)
          | VStr s => Ok (VBool (string_in (str_lower s) ["true"; "1"; "yes"; "t"]))
          | _ => Ok (VBool (py_bool value))
          end
      | DATETIME =>
          match value with
          | VDatetime d => Ok (VDatetime d)
          | VStr s => try_formats s datetime_formats
          | _ => Err (ValueError ("Invalid datetime value: " +:+ py_str value))
          end
      end
  end.

Definition null_error (self : t) : string :=
  "Column '" +:+ name self +:+ "' cannot be NULL".

(** [validate] returns the pair [(is_valid, error_message)]; only
    ValueError and TypeError from [convert] are caught. *)
Definition validate (self : t) (value : Value) : result (bool * option string) :=
  match value with
  | VNone =>
      if negb (nullable self) && negb (primary_key self)
      then Ok (false, Some (null_error self))
      else Ok (true, None)
  | _ =>
      match convert self value with
      | Err (ValueError m) | Err (TypeError m) =>
          Ok (false, Some ("Type error for column '" +:+ name self +:+ "': " +:+ m))
      | Err e => Err e
      | Ok converted =>
          if bool_decide (converted = VNone)
          then Ok (false, Some ("Invalid value for " +:+ DataType_value (data_type self)))
          else
            match data_type self, length self with
            | VARCHAR, Some len =>
                if negb (len =? 0) && (len <? Z.of_nat (String.length (py_str value)))
                then Ok (false, Some ("Value exceeds maximum length " +:+ pretty len
                                      +:+ " for column '" +:+ name self +:+ "'"))
                else Ok (true, None)
            | _, _ => Ok (true, None)
            end
      end
  end.

End WithBuiltins.
End Column.

(** ** Tokenizer ([parser.py])

    The query is a sequence of 8-bit characters; the classification
    predicates are Python's [str] methods restricted to ASCII. *)

Module Tokenizer.

Inductive TokenType : Type :=
  | STRING | NUMBER | KEYWORD | IDENTIFIER | OPERATOR | PUNCT.

Record Token : Type := MkToken { type : TokenType; value : string }.

Definition KEYWORDS : list string :=
  ["SELECT"; "FROM"; "WHERE"; "INSERT"; "INTO"; "VALUES"; "UPDATE"; "SET";
   "DELETE"; "CREATE"; "TABLE"; "DROP"; "INDEX"; "ON"; "PRIMARY"; "KEY";
   "UNIQUE"; "NOT"; "NULL"; "DEFAULT"; "AND"; "OR"; "JOIN"; "INNER"; "LEFT";
   "RIGHT"; "OUTER"; "ORDER"; "BY"; "ASC"; "DESC"; "LIMIT"; "INT"; "VARCHAR";
   "FLOAT"; "BOOLEAN"; "DATETIME"].

Definition code (c : ascii) : nat := nat_of_ascii c.

(** [str.isspace], [str.isdigit], [str.isalpha] and [str.isalnum] on the
    characters below 128.  Python's methods also hold for some characters
    above 127 (for example [chr(233).isalpha()]); here such a character
    belongs to no class, so the model follows the tokenizer on ASCII
    queries. *)
Definition isspace (c : ascii) : bool :=
  let n := code c in
  ((9 <=? n) && (n <=? 13) || (28 <=? n) && (n <=? 32))%nat.
Definition isdigit (c : ascii) : bool :=
  let n := code c in ((48 <=? n) && (n <=? 57))%nat.
Definition isalpha (c : ascii) : bool :=
  let n := code c in
  ((65 <=? n) && (n <=? 90) || (97 <=? n) && (n <=? 122))%nat.
Definition isalnum (c : ascii) : bool := isalpha c || isdigit c.

Definition is_char (a c : ascii) : bool := bool_decide (c = a).
Definition char_in (c : ascii) (s : string) : bool :=
  bool_decide (c ∈ list_ascii_of_string s).

Definition squote : ascii := "039"%char.
Definition dquote : ascii := "034"%char.
Definition is_quote (c : ascii) : bool := is_char squote c || is_char dquote c.

(** The tokenizer object: [query], [pos] and [tokens]. *)
Record state : Type := MkState {
  query : list ascii;
  pos : nat;
  tokens : list Token
}.

Definition init (q : string) : state :=
  MkState (list_ascii_of_string q) 0 [].

Definition set_pos (st : state) (p : nat) : state :=
  MkState (query st) p (tokens st).
Definition append (st : state) (tok : Token) : state :=
  MkState (query st) (pos st) (tokens st ++ [tok]).

(** [query[start:stop]] *)
Definition slice (q : list ascii) (start stop : nat) : string :=
  string_of_list_ascii (take (stop - start) (drop start q)).

(** Number of iterations of [while pos < len(query) and p(query[pos]): pos += 1]
    when [l] is [query[pos:]]. *)
Fixpoint count_while (p : ascii -> bool) (l : list ascii) : nat :=
  match l with
  | c :: l' => if p c then S (count_while p l') else O
  | [] => O
  end.

Definition scan_while (p : ascii -> bool) (st : state) : state :=
  set_pos st (pos st + count_while p (drop (pos st) (query st))).

Definition _skip_whitespace (st : state) : state := scan_while isspace st.

Definition _skip_comment (st : state) : state :=
  scan_while (fun c => negb (is_char "010" c)) st.

(** The loop of [_read_string]: how far [pos] moves over [l = query[pos:]];
    a backslash moves it by two, possibly past the end. *)
Fixpoint scan_string (quote : ascii) (l : list ascii) : nat :=
  match l with
  | [] => O
  | c :: l' =>
      if is_char quote c then O
      else if is_char "\" c then
        match l' with
        | [] => 2
        | _ :: l'' => 2 + scan_string quote l''
        end
      else S (scan_string quote l')
  end%nat.

Definition _read_string (quote : ascii) (st : state) : state * Token :=
  let st := set_pos st (pos st + 1) in
  let start := pos st in
  let st := set_pos st (pos st + scan_string quote (drop (pos st) (query st))) in
  let value := slice (query st) start (pos st) in
  (set_pos st (pos st + 1), MkToken STRING value).

Definition _read_number (st : state) : state * Token :=
  let start := pos st in
  let st := if bool_decide (query st !! pos st = Some "-"%char)
            then set_pos st (pos st + 1) else st in
  let st := scan_while (fun c => isdigit c || is_char "." c) st in
  (st, MkToken NUMBER (slice (query st) start (pos st))).

Definition _read_identifier (st : state) : state * Token :=
  let start := pos st in
  let st := scan_while (fun c => isalnum c || is_char "_" c) st in
  let value := slice (query st) start (pos st) in
  if string_in (str_upper value) KEYWORDS
  then (st, MkToken KEYWORD (str_upper value))
  else (st, MkToken IDENTIFIER value).

Definition _read_operator (char : ascii) (st : state) : state * Token :=
  let st := set_pos st (pos st + 1) in
  let single :=
    (st, MkToken (if char_in char "=<>!" then OPERATOR else PUNCT)
                 (String char EmptyString)) in
  match query st !! pos st with
  | Some c2 =>
      let two_char := String char (String c2 EmptyString) in
      if string_in two_char ["<="; ">="; "!="; "<>"]
      then (set_pos st (pos st + 1), MkToken OPERATOR two_char)
      else single
  | None => single
  end.

Definition push (r : state * Token) : state := append (fst r) (snd r).

(** One iteration of the [while] loop of [tokenize], entered with
    [pos < len(query)]; a [break] leaves [pos] at the end of the query. *)
Definition body (st : state) : result state :=
  let st := _skip_whitespace st in
  match query st !! pos st with
  | None => Ok st
  | Some char =>
      if is_char "-" char && bool_decide (query st !! (pos st + 1)%nat = Some "-"%char)
      then Ok (_skip_comment st)
      else if is_quote char
      then Ok (push (_read_string char st))
      else if isdigit char ||
              (is_char "-" char &&
               from_option isdigit false (query st !! (pos st + 1)%nat))
      then Ok (push (_read_number st))
      else if isalpha char || is_char "_" char
      then Ok (push (_read_identifier st))
      else if char_in char "(),;=<>!*."
      then Ok (push (_read_operator char st))
      else Err (ValueError ("Unexpected character: " +:+ String char EmptyString))
  end.

(** The [while self.pos < len(self.query)] loop; [None] is "out of fuel". *)
Fixpoint tokenize_loop (fuel : nat) (st : state) : option (result state) :=
  match fuel with
  | O => None
  | S fuel' =>
      if (pos st <? List.length (query st))%nat then
        match body st with
        | Ok st' => tokenize_loop fuel' st'
        | Err e => Some (Err e)
        end
      else Some (Ok st)
  end.

(** Every iteration moves [pos] forward, so [len(query) + 1] rounds suffice
    (see [TokenizerFacts.tokenize_loop_fuel]). *)
Definition tokenize (q : string) : option (result (list Token)) :=
  fmap (M := option) (fmap (M := result) tokens)
       (tokenize_loop (S (String.length q)) (init q)).

(** The states in which [tokenize] tests its loop condition. *)
Inductive at_loop_head (q : string) : state -> Prop :=
  | head_init : at_loop_head q (init q)
  | head_next st st' :
      at_loop_head q st ->
      (pos st < List.length (query st))%nat ->
      body st = Ok st' ->
      at_loop_head q st'.

End Tokenizer.

(** ** Indexes ([index.py]) *)

(** A node of the tree.  [keys] and [values] are parallel lists in the
    source, changed together at the same positions by every statement of
    [index.py]; they are kept here as one list of [(key, row_index)]
    entries. *)
Module BTreeNode.

#[local] Unset Elimination Schemes.
Inductive t : Type :=
  Node (is_leaf : bool) (entries : list (Value * Z)) (children : list t) (order : Z).
#[local] Set Elimination Schemes.

Definition is_leaf (n : t) : bool := let 'Node l _ _ _ := n in l.
Definition entries (n : t) : list (Value * Z) := let 'Node _ es _ _ := n in es.
Definition children (n : t) : list t := let 'Node _ _ cs _ := n in cs.
Definition order (n : t) : Z := let 'Node _ _ _ o := n in o.
Definition keys (n : t) : list Value := (entries n).*1.
Definition values (n : t) : list Z := (entries n).*2.

Definition new (is_leaf : bool) (order : Z) : t := Node is_leaf [] [] order.

Definition is_full (n : t) : bool :=
  2 * order n - 1 <=? Z.of_nat (length (keys n)).

Definition set_children (n : t) (cs : list t) : t :=
  Node (is_leaf n) (entries n) cs (order n).

Fixpoint height (n : t) : nat :=
  match n with
  | Node _ _ cs _ => list_max (map (fun c => S (height c)) cs)
  end.

End BTreeNode.

Module BTreeIndex.
Import BTreeNode.

Record t : Type := Make {
  column_name : string;
  order : Z;
  root : BTreeNode.t;
  size : Z
}.

Definition new (column_name : string) (order : Z) : t :=
  Make column_name order (BTreeNode.new true order) 0.

(** [i = 0; while i < len(keys) and key > keys[i]: i += 1] *)
Fixpoint search_pos (key : Value) (ks : list Value) : result nat :=
  match ks with
  | [] => Ok O
  | k :: ks' =>
      b ← py_gt key k;
      if (b : bool) then S <$> search_pos key ks' else Ok O
  end.

(** [sub] holds the outcome of the recursive call on each child; the source
    makes the call on the one child it selects. *)
Fixpoint _search_node (node : BTreeNode.t) (key : Value) : result (list Z) :=
  match node with
  | Node leaf es cs _ =>
      let sub := map (fun c => _search_node c key) cs in
      i ← search_pos key es.*1;
      match es !! i with
      | Some (k, v) =>
          if py_eq key k then
            if leaf then Ok [v]
            else rest ← join_result (py_index sub (i + 1)); Ok (v :: rest)
          else if leaf then Ok []
          else join_result (py_index sub i)
      | None =>
          if leaf then Ok [] else join_result (py_index sub i)
      end
  end.

Definition search (self : t) (key : Value) : result (list Z) :=
  _search_node (root self) key.

(** The [while i < len(node.keys)] loop of [_range_search_node], from
    position [i] on; [es] is [entries[i:]]. *)
Fixpoint range_loop (leaf : bool) (es : list (Value * Z)) (i : nat)
    (sub : list (result (list Z))) (start end_ : Value) : result (list Z) :=
  match es with
  | [] => Ok []
  | (k, v) :: es' =>
      ge ← py_ge k start;
      in_range ← (if (ge : bool) then py_le k end_ else Ok false);
      let here := if (in_range : bool) then [v] else [] in
      down ← (if negb leaf then
                le ← py_le k end_;
                if (le : bool) then join_result (py_index sub i) else Ok []
              else Ok []);
      rest ← range_loop leaf es' (S i) sub start end_;
      Ok (here ++ down ++ rest)
  end.

(** Returns what the call appends to [result]. *)
Fixpoint _range_search_node (node : BTreeNode.t) (start end_ : Value)
    : result (list Z) :=
  match node with
  | Node leaf es cs _ =>
      let sub := map (fun c => _range_search_node c start end_) cs in
      found ← range_loop leaf es 0 sub start end_;
      tail ← (if negb leaf then
                go ← match last es with
                     | None => Ok true
                     | Some (k, _) => py_le k end_
                     end;
                if (go : bool) then join_result (py_getitem sub (-1)) else Ok []
              else Ok []);
      Ok (found ++ tail)
  end.

Definition range_search (self : t) (start end_ : Value) : result (list Z) :=
  _range_search_node (root self) start end_.

Definition _split_child (order : Z) (parent : BTreeNode.t) (index : nat)
    : result BTreeNode.t :=
  full_child ← py_index (children parent) index;
  let mid := order - 1 in
  let new_entries := slice_from (entries full_child) (mid + 1) in
  let full_entries := slice_to (entries full_child) mid in
  let new_children :=
    if negb (is_leaf full_child) then slice_from (children full_child) (mid + 1)
    else [] in
  let full_children :=
    if negb (is_leaf full_child) then slice_to (children full_child) (mid + 1)
    else children full_child in
  let new_child := Node (is_leaf full_child) new_entries new_children order in
  let full_child' :=
    Node (is_leaf full_child) full_entries full_children (BTreeNode.order full_child) in
  middle ← (if mid <? Z.of_nat (length full_entries)
            then py_getitem full_entries mid
            else py_getitem new_entries 0);
  Ok (Node (is_leaf parent)
           (list_insert_at index middle (entries parent))
           (list_insert_at (index + 1) new_child
              (<[index := full_child']> (children parent)))
           (BTreeNode.order parent)).

(** [i = len(keys) - 1; while i >= 0 and key < keys[i]: i -= 1], counted
    on the reversed key list: the number of keys passed over. *)
Fixpoint count_greater (key : Value) (rev_keys : list Value) : result nat :=
  match rev_keys with
  | [] => Ok O
  | k :: ks' =>
      b ← py_lt key k;
      if (b : bool) then S <$> count_greater key ks' else Ok O
  end.

(** The leaf case: the new entry goes right after the last entry whose key
    is not greater than [key]. *)
Definition leaf_insert (es : list (Value * Z)) (key : Value) (row_index : Z)
    : result (list (Value * Z)) :=
  n ← count_greater key (rev es.*1);
  Ok (list_insert_at (length es - n) (key, row_index) es).

Fixpoint _insert_non_full (fuel : nat) (order : Z) (node : BTreeNode.t)
    (key : Value) (row_index : Z) : result BTreeNode.t :=
  if is_leaf node then
    es ← leaf_insert (entries node) key row_index;
    Ok (Node true es (children node) (BTreeNode.order node))
  else
    n ← count_greater key (rev (keys node));
    let i := (length (keys node) - n)%nat in
    child ← py_index (children node) i;
    '(node, i) ← (if is_full child then
                    node' ← _split_child order node i;
                    k ← py_index (keys node') i;
                    b ← py_gt key k;
                    Ok (node', if (b : bool) then (i + 1)%nat else i)
                  else Ok (node, i));
    child ← py_index (children node) i;
    match fuel with
    | O => Err RecursionError
    | S fuel' =>
        child' ← _insert_non_full fuel' order child key row_index;
        Ok (set_children node (<[i := child']> (children node)))
    end.

(** The descent visits one node per level, so [height] rounds of recursion
    are enough (see [BTreeFacts.insert_non_full_ok]). *)
Definition insert (self : t) (key : Value) (row_index : Z) : result t :=
  root' ← (if is_full (root self) then
             _split_child (order self)
               (Node false [] [root self] (order self)) 0
           else Ok (root self));
  root'' ← _insert_non_full (height root') (order self) root' key row_index;
  Ok (Make (column_name self) (order self) root'' (size self + 1)).

(** [keys.index(key)]: the first position holding a key equal to [key]. *)
Fixpoint keys_index (key : Value) (ks : list Value) : option nat :=
  match ks with
  | [] => None
  | k :: ks' => if py_eq k key then Some O else S <$> keys_index key ks'
  end.

Section FirstChild.
Context (del : BTreeNode.t -> option BTreeNode.t).

(** [for child in node.children: if delete(child): return True]: the
    children with the first one that [del] changes replaced. *)
Fixpoint first_child (cs : list BTreeNode.t) : option (list BTreeNode.t) :=
  match cs with
  | [] => None
  | c :: rest =>
      match del c with
      | Some c' => Some (c' :: rest)
      | None => (c ::.) <$> first_child rest
      end
  end.

End FirstChild.

(** [Some node'] when an entry was removed (the source returns [True] and
    has mutated the node), [None] when it returns [False]. *)
Fixpoint _delete_from_node (node : BTreeNode.t) (key : Value) (row_index : Z)
    : option BTreeNode.t :=
  match node with
  | Node leaf es cs ord =>
      let here :=
        i ← keys_index key es.*1;
        v ← es.*2 !! i;
        if bool_decide (v = row_index) then
          Some (Node leaf (list_del i es)
                  (if negb leaf && (i <? length cs)%nat then list_del i cs else cs)
                  ord)
        else None in
      match here with
      | Some node' => Some node'
      | None =>
          if negb leaf then
            cs' ← first_child (fun c => _delete_from_node c key row_index) cs;
            Some (Node leaf es cs' ord)
          else None
      end
  end.

Definition delete (self : t) (key : Value) (row_index : Z) : t :=
  let root' := default (root self) (_delete_from_node (root self) key row_index) in
  Make (column_name self) (order self) root' (size self - 1).

Fixpoint _collect_entries (node : BTreeNode.t) : list (Value * Z) :=
  match node with
  | Node leaf es cs _ =>
      es ++ (if negb leaf then concat (map _collect_entries cs) else [])
  end.

End BTreeIndex.

(** The hash index: a [dict] from key to the list of row indices; keys are
    looked up with [==], as hashing does for the scalars of [Value]. *)
Module SimpleIndex.

Record t : Type := Make {
  column_name : string;
  index : list (Value * list Z)
}.

Definition new (column_name : string) : t := Make column_name [].

Fixpoint lookup_key (key : Value) (d : list (Value * list Z)) : option (list Z) :=
  match d with
  | [] => None
  | (k, v) :: d' => if py_eq k key then Some v else lookup_key key d'
  end.

Fixpoint store_key (key : Value) (v : list Z) (d : list (Value * list Z))
    : list (Value * list Z) :=
  match d with
  | [] => [(key, v)]
  | (k, v') :: d' =>
      if py_eq k key then (k, v) :: d' else (k, v') :: store_key key v d'
  end.

Fixpoint del_key (key : Value) (d : list (Value * list Z)) : list (Value * list Z) :=
  match d with
  | [] => []
  | (k, v) :: d' => if py_eq k key then d' else (k, v) :: del_key key d'
  end.

Definition insert (self : t) (key : Value) (row_index : Z) : t :=
  let old := default [] (lookup_key key (index self)) in
  Make (column_name self) (store_key key (old ++ [row_index]) (index self)).

Definition search (self : t) (key : Value) : list Z :=
  default [] (lookup_key key (index self)).

(** [l.remove(x)]: drops the first occurrence; [None] is its ValueError. *)
Fixpoint list_remove (x : Z) (l : list Z) : option (list Z) :=
  match l with
  | [] => None
  | y :: l' => if bool_decide (y = x) then Some l' else (y ::.) <$> list_remove x l'
  end.

Definition delete (self : t) (key : Value) (row_index : Z) : t :=
  match lookup_key key (index self) with
  | Some l =>
      match list_remove row_index l with
      | Some [] => Make (column_name self) (del_key key (index self))
      | Some l' => Make (column_name self) (store_key key l' (index self))
      | None => self
      end
  | None => self
  end.

End SimpleIndex.

(** What [Table.indexes] holds: either kind of index. *)
Module Index.

Inductive t : Type :=
  | BTree (b : BTreeIndex.t)
  | Simple (s : SimpleIndex.t).

Definition insert (self : t) (key : Value) (row_index : Z) : result t :=
  match self with
  | BTree b => BTree <$> BTreeIndex.insert b key row_index
  | Simple s => Ok (Simple (SimpleIndex.insert s key row_index))
  end.

Definition search (self : t) (key : Value) : result (list Z) :=
  match self with
  | BTree b => BTreeIndex.search b key
  | Simple s => Ok (SimpleIndex.search s key)
  end.

Definition delete (self : t) (key : Value) (row_index : Z) : t :=
  match self with
  | BTree b => BTree (BTreeIndex.delete b key row_index)
  | Simple s => Simple (SimpleIndex.delete s key row_index)
  end.

Definition is_btree (self : t) : bool :=
  match self with BTree _ => true | Simple _ => false end.

End Index.

(** ** Rows and tables ([table.py]) *)

Module Row.

Record t : Type := Make {
  data : dict Value;
  row_id : Z
}.

#[global] Instance eq_dec : EqDecision t.
Proof. solve_decision. Defined.

(** [row[key]] and [row.get(key)]: [self.data.get(key)]. *)
Definition get (self : t) (key : string) : Value :=
  default VNone (dict_get key (data self)).

Definition set_data (self : t) (d : dict Value) : t := Make d (row_id self).

End Row.

Definition is_none (v : Value) : bool :=
  match v with VNone => true | _ => false end.

Definition none_not_subscriptable : PyError :=
  TypeError "'NoneType' object is not subscriptable".

(** [row[key]] where [row] is a slot of [Table.rows], possibly [None]. *)
Definition slot_get (slot : option Row.t) (key : string) : result Value :=
  match slot with
  | Some row => Ok (Row.get row key)
  | None => Err none_not_subscriptable
  end.

Module Table.

(** [rows] keeps one slot per inserted row; [None] is a deleted row. *)
Record t : Type := Make {
  name : string;
  columns : dict Column.t;
  column_order : list string;
  rows : list (option Row.t);
  indexes : dict Index.t;
  next_row_id : Z
}.

Definition set_rows (self : t) (rs : list (option Row.t)) : t :=
  Make (name self) (columns self) (column_order self) rs (indexes self)
       (next_row_id self).
Definition set_indexes (self : t) (ix : dict Index.t) : t :=
  Make (name self) (columns self) (column_order self) (rows self) ix
       (next_row_id self).
Definition set_next_row_id (self : t) (n : Z) : t :=
  Make (name self) (columns self) (column_order self) (rows self)
       (indexes self) n.

Definition scan (self : t) : list Row.t :=
  omap id (rows self).

(** [rows.index(r)]: the first slot equal to [r].  Rows have no [__eq__],
    so Python compares them by identity; the row objects of a table carry
    distinct [row_id]s, which structural equality tells apart. *)
Fixpoint rows_index (r : option Row.t) (rs : list (option Row.t)) : option nat :=
  match rs with
  | [] => None
  | r' :: rs' => if bool_decide (r' = r) then Some O else S <$> rows_index r rs'
  end.

(** [[self.rows[i] for i in row_indices if i < len(self.rows)]] *)
Fixpoint rows_at (rs : list (option Row.t)) (row_indices : list Z)
    : result (list (option Row.t)) :=
  match row_indices with
  | [] => Ok []
  | i :: rest =>
      if i <? Z.of_nat (length rs) then
        r ← py_getitem rs i;
        tl ← rows_at rs rest;
        Ok (r :: tl)
      else rows_at rs rest
  end.

(** [[row for row in self.rows if cond(row)]], where [cond] may raise. *)
Fixpoint filter_rows (cond : option Row.t -> result bool)
    (rs : list (option Row.t)) : result (list (option Row.t)) :=
  match rs with
  | [] => Ok []
  | r :: rest =>
      b ← cond r;
      tl ← filter_rows cond rest;
      Ok (if (b : bool) then r :: tl else tl)
  end.

Definition find_by_column (self : t) (column_name : string) (value : Value)
    : result (list (option Row.t)) :=
  match dict_get column_name (indexes self) with
  | Some index =>
      row_indices ← Index.search index value;
      rows_at (rows self) row_indices
  | None =>
      filter_rows (fun row => v ← slot_get row column_name; Ok (py_eq v value))
                  (rows self)
  end.

Definition find_by_range (self : t) (column_name : string) (start end_ : Value)
    : result (list (option Row.t)) :=
  match dict_get column_name (indexes self) with
  | Some (Index.BTree index) =>
      row_indices ← BTreeIndex.range_search index start end_;
      rows_at (rows self) row_indices
  | _ =>
      filter_rows
        (fun row =>
           v ← slot_get row column_name;
           if is_none v then Ok false
           else
             ge ← py_le start v;
             if (ge : bool) then py_le v end_ else Ok false)
        (rows self)
  end.

Section WithBuiltins.
Context `{PyBuiltins}.

(** The loop of [create_index] over [enumerate(self.rows)]. *)
Fixpoint build_index (column_name : string) (rs : list (option Row.t)) (i : nat)
    (index : Index.t) : result Index.t :=
  match rs with
  | [] => Ok index
  | row :: rest =>
      value ← slot_get row column_name;
      index' ← (if is_none value then Ok index
                else Index.insert index value (Z.of_nat i));
      build_index column_name rest (S i) index'
  end.

Definition create_index (self : t) (column_name : string) (btree : bool)
    : result t :=
  if negb (dict_mem column_name (columns self)) then
    Err (ValueError ("Column '" +:+ column_name +:+ "' does not exist"))
  else if dict_mem column_name (indexes self) then Ok self
  else
    let index := if btree then Index.BTree (BTreeIndex.new column_name 3)
                 else Index.Simple (SimpleIndex.new column_name) in
    index' ← build_index column_name (rows self) 0 index;
    Ok (set_indexes self (dict_set column_name index' (indexes self))).

(** [Table(name, columns)] *)
Definition new (name : string) (cols : list Column.t) : result t :=
  let self :=
    Make name
         (foldl (fun d col => dict_set (Column.name col) col d) [] cols)
         (map Column.name cols) [] [] 0 in
  foldl (fun r col =>
           self ← r;
           if Column.primary_key col || Column.unique col
           then create_index self (Column.name col) true
           else Ok self)
        (Ok self) cols.

Definition duplicate_error (column : Column.t) (col_name : string) : string :=
  "Duplicate value for "
  +:+ (if Column.primary_key column then "PRIMARY KEY" else "UNIQUE")
  +:+ " column '" +:+ col_name +:+ "'".

(** The second loop of [validate_row], over [self.columns.items()]. *)
Fixpoint validate_columns (self : t) (cols : dict Column.t) (data : dict Value)
    (is_update : bool) (exclude_row_index : option nat)
    : result (bool * option string) :=
  match cols with
  | [] => Ok (true, None)
  | (col_name, column) :: rest =>
      let value := default VNone (dict_get col_name data) in
      if is_update && negb (dict_mem col_name data) then
        validate_columns self rest data is_update exclude_row_index
      else
        '(is_valid, error) ← Column.validate column value;
        if negb is_valid then Ok (false, error)
        else
          dup ← (if (Column.unique column || Column.primary_key column)
                    && negb (is_none value) then
                   existing_rows ← find_by_column self col_name value;
                   let existing_rows :=
                     match exclude_row_index with
                     | Some x =>
                         filter (fun r => rows_index r (rows self) ≠ Some x)
                                existing_rows
                     | None => existing_rows
                     end in
                   Ok (negb (bool_decide (existing_rows = [])))
                 else Ok false);
          if (dup : bool) then Ok (false, Some (duplicate_error column col_name))
          else validate_columns self rest data is_update exclude_row_index
  end.

Definition validate_row (self : t) (data : dict Value) (is_update : bool)
    (exclude_row_index : option nat) : result (bool * option string) :=
  match filter (fun k => negb (dict_mem k (columns self))) (dict_keys data) with
  | col_name :: _ => Ok (false, Some ("Unknown column: '" +:+ col_name +:+ "'"))
  | [] => validate_columns self (columns self) data is_update exclude_row_index
  end.

(** The first loop of [insert]: supplied value, else default, else [None]. *)
Fixpoint fill_defaults (cols : dict Column.t) (data full_data : dict Value)
    : result (dict Value) :=
  match cols with
  | [] => Ok full_data
  | (col_name, column) :: rest =>
      v ← match dict_get col_name data with
          | Some x => Column.convert column x
          | None => Ok (Column.default column)
          end;
      fill_defaults rest data (dict_set col_name v full_data)
  end.

(** The loop [for col_name, index in self.indexes.items()] of [insert];
    [done] are the indexes already visited.  An exception leaves the
    indexes visited so far updated; the index whose [insert] raised is
    kept as it was before that call (in Python its leaf keeps the
    placeholder appended before the comparison raised). *)
Fixpoint insert_indexes (row : Row.t) (row_index : nat) (done todo : dict Index.t)
    : dict Index.t * result unit :=
  match todo with
  | [] => (done, Ok ())
  | (col_name, index) :: rest =>
      let value := Row.get row col_name in
      if is_none value then
        insert_indexes row row_index (done ++ [(col_name, index)]) rest
      else
        match Index.insert index value (Z.of_nat row_index) with
        | Ok index' =>
            insert_indexes row row_index (done ++ [(col_name, index')]) rest
        | Err e => (done ++ todo, Err e)
        end
  end.

Definition validation_error (error : option string) : PyError :=
  ValueError ("Validation error: " +:+ default "None" error).

(** Every operation returns the table as the call leaves it, together with
    the value returned or the exception raised. *)
Definition insert (self : t) (data : dict Value) : t * result Row.t :=
  match fill_defaults (columns self) data [] with
  | Err e => (self, Err e)
  | Ok full_data =>
      match validate_row self full_data false None with
      | Err e => (self, Err e)
      | Ok (false, error) => (self, Err (validation_error error))
      | Ok (true, _) =>
          let row := Row.Make full_data (next_row_id self) in
          let self := set_next_row_id self (next_row_id self + 1) in
          let row_index := length (rows self) in
          let self := set_rows self (rows self ++ [Some row]) in
          let '(ix, r) := insert_indexes row row_index [] (indexes self) in
          (set_indexes self ix, r ≫= fun _ => Ok row)
      end
  end.

Definition invalid_row_index (row_index : nat) : PyError :=
  ValueError ("Invalid row index: " +:+ pretty row_index).

(** The loop over [self.indexes.items()] of [delete]. *)
Definition delete_indexes (row : Row.t) (row_index : nat) (ix : dict Index.t)
    : dict Index.t :=
  map (fun '(col_name, index) =>
         let value := Row.get row col_name in
         (col_name,
          if is_none value then index
          else Index.delete index value (Z.of_nat row_index)))
      ix.

(** [row_index] is a position in [rows] (the executor passes
    [rows.index(row)]). *)
Definition delete (self : t) (row_index : nat) : t * result unit :=
  if (length (rows self) <=? row_index)%nat then
    (self, Err (invalid_row_index row_index))
  else
    match rows self !! row_index with
    | Some (Some row) =>
        let self := set_indexes self (delete_indexes row row_index (indexes self)) in
        (set_rows self (<[row_index := None]> (rows self)), Ok ())
    | _ =>
        match indexes self with
        | [] => (set_rows self (<[row_index := None]> (rows self)), Ok ())
        | _ :: _ => (self, Err none_not_subscriptable)
        end
    end.

(** The loop of [update] that applies [updates] to a copy of the row data. *)
Fixpoint apply_updates (cols : dict Column.t) (updates new_data : dict Value)
    : result (dict Value) :=
  match updates with
  | [] => Ok new_data
  | (col_name, value) :: rest =>
      match dict_get col_name cols with
      | None => Err (ValueError ("Unknown column: '" +:+ col_name +:+ "'"))
      | Some column =>
          v ← Column.convert column value;
          apply_updates cols rest (dict_set col_name v new_data)
      end
  end.

(** The loop [for col_name in updates.keys()] of [update] over the indexes. *)
Fixpoint update_indexes (old_data new_data : dict Value) (row_index : nat)
    (col_names : list string) (ix : dict Index.t) : dict Index.t * result unit :=
  match col_names with
  | [] => (ix, Ok ())
  | col_name :: rest =>
      match dict_get col_name ix with
      | None => update_indexes old_data new_data row_index rest ix
      | Some index =>
          match dict_item col_name old_data with
          | Err e => (ix, Err e)
          | Ok old_value =>
              let index :=
                if is_none old_value then index
                else Index.delete index old_value (Z.of_nat row_index) in
              let ix := dict_set col_name index ix in
              match dict_item col_name new_data with
              | Err e => (ix, Err e)
              | Ok new_value =>
                  if is_none new_value then
                    update_indexes old_data new_data row_index rest ix
                  else
                    match Index.insert index new_value (Z.of_nat row_index) with
                    | Err e => (ix, Err e)
                    | Ok index' =>
                        update_indexes old_data new_data row_index rest
                          (dict_set col_name index' ix)
                    end
              end
          end
      end
  end.

Definition update (self : t) (row_index : nat) (updates : dict Value)
    : t * result Row.t :=
  if (length (rows self) <=? row_index)%nat then
    (self, Err (invalid_row_index row_index))
  else
    match rows self !! row_index with
    | Some (Some row) =>
        let old_data := Row.data row in
        match apply_updates (columns self) updates (Row.data row) with
        | Err e => (self, Err e)
        | Ok new_data =>
            match validate_row self new_data true (Some row_index) with
            | Err e => (self, Err e)
            | Ok (false, error) => (self, Err (validation_error error))
            | Ok (true, _) =>
                let '(ix, r) :=
                  update_indexes old_data new_data row_index
                    (dict_keys updates) (indexes self) in
                let self := set_indexes self ix in
                match r with
                | Err e => (self, Err e)
                | Ok _ =>
                    let row' := Row.set_data row new_data in
                    (set_rows self (<[row_index := Some row']> (rows self)),
                     Ok row')
                end
            end
        end
    | _ => (self, Err (AttributeError "'NoneType' object has no attribute 'data'"))
    end.

End WithBuiltins.
End Table.

(** ** The catalog ([storage.py]) *)

Module Database.

Record t : Type := Make {
  name : string;
  tables : dict Table.t
}.

Definition get_table (self : t) (name : string) : option Table.t :=
  dict_get name (tables self).

End Database.

(** ** Query execution ([executor.py]) *)

Module Executor.

Inductive JoinType : Type := INNER | LEFT | RIGHT.

(** One entry of [parsed["joins"]]. *)
Record Join : Type := MkJoin {
  join_type : JoinType;
  join_table : string;
  on_left : string;
  on_right : string
}.

Inductive Condition : Type :=
  | LOGICAL (operator : string) (left_cond right_cond : Condition)
  | COMPARISON (column : string) (operator : string) (value : Value).

Inductive Direction : Type := ASC | DESC.

#[global] Instance Direction_eq_dec : EqDecision Direction.
Proof. solve_decision. Defined.

(** The dictionary [_parse_select] returns. *)
Record Select : Type := MkSelect {
  columns : list string;
  table : string;
  joins : list Join;
  where_ : option Condition;
  order_by : option (string * Direction);
  limit : option Z
}.

Record QueryResult : Type := MkResult {
  result_columns : list string;
  result_rows : list (dict Value);
  message : option string
}.

Definition row_count (r : QueryResult) : nat := length (result_rows r).

(** [s.split(".", 1)] when ["." in s]: the text before and after the
    first dot. *)
Fixpoint split_dot (s : string) : option (string * string) :=
  match s with
  | EmptyString => None
  | String c s' =>
      if bool_decide (c = "."%char) then Some (EmptyString, s')
      else '(a, b) ← split_dot s'; Some (String c a, b)
  end.

(** The column name of a join operand, without its table prefix. *)
Definition col_name_of (col : string) : string :=
  match split_dot col with
  | Some (_, col_name) => col_name
  | None => col
  end.

Definition qualified (table_name col_name : string) : string :=
  table_name +:+ "." +:+ col_name.

(** The two loops that fill [merged_data] for a matching pair. *)
Definition merge_base (base_name : string) (base_row : Row.t) : dict Value :=
  foldl (fun merged '(col_name, col_val) =>
           dict_set col_name col_val
             (dict_set (qualified base_name col_name) col_val merged))
        [] (Row.data base_row).

Definition merge_rows (base_name join_name : string) (base_row join_row : Row.t)
    : dict Value :=
  foldl (fun merged '(col_name, col_val) =>
           let merged := dict_set (qualified join_name col_name) col_val merged in
           if negb (dict_mem col_name merged)
           then dict_set col_name col_val merged else merged)
        (merge_base base_name base_row) (Row.data join_row).

(** The unmatched row of a LEFT join. *)
Definition merge_null (base_name : string) (join_table : Table.t)
    (base_row : Row.t) : dict Value :=
  foldl (fun merged col_name =>
           dict_set (qualified (Table.name join_table) col_name) VNone merged)
        (merge_base base_name base_row) (dict_keys (Table.columns join_table)).

Definition join_match (left_col_name right_col_name : string)
    (base_row join_row : Row.t) : bool :=
  py_eq (Row.get base_row left_col_name) (Row.get join_row right_col_name).

(** The rows one outer-loop iteration appends to [joined_rows]. *)
Definition inner_rows_of (base_name join_name left_col_name right_col_name : string)
    (join_rows : list Row.t) (base_row : Row.t) : list Row.t :=
  map (fun join_row =>
         Row.Make (merge_rows base_name join_name base_row join_row)
                  (Row.row_id base_row))
      (filter (fun join_row =>
                 join_match left_col_name right_col_name base_row join_row = true)
              join_rows).

Definition left_rows_of (base_name : string) (join_table : Table.t)
    (left_col_name right_col_name : string)
    (join_rows : list Row.t) (base_row : Row.t) : list Row.t :=
  match inner_rows_of base_name (Table.name join_table)
          left_col_name right_col_name join_rows base_row with
  | [] => [Row.Make (merge_null base_name join_table base_row) (Row.row_id base_row)]
  | matched => matched
  end.

(** The body of the loop [for join in joins]: the new [result_rows]. *)
Definition apply_join (db : Database.t) (base_table : Table.t)
    (base_rows result_rows : list Row.t) (join : Join) : result (list Row.t) :=
  match Database.get_table db (join_table join) with
  | None => Err (ValueError ("Table '" +:+ join_table join +:+ "' does not exist"))
  | Some join_table =>
      let join_rows := Table.scan join_table in
      let left_col_name := col_name_of (on_left join) in
      let right_col_name := col_name_of (on_right join) in
      let outer := match result_rows with [] => base_rows | _ => result_rows end in
      let joined_rows :=
        match join_type join with
        | INNER =>
            concat (map (inner_rows_of (Table.name base_table) (Table.name join_table)
                           left_col_name right_col_name join_rows) outer)
        | LEFT =>
            concat (map (left_rows_of (Table.name base_table) join_table
                           left_col_name right_col_name join_rows) outer)
        | RIGHT => []
        end in
      Ok (match joined_rows with [] => result_rows | _ => joined_rows end)
  end.

Definition _apply_joins (db : Database.t) (base_table : Table.t)
    (base_rows : list Row.t) (joins : list Join) : result (list Row.t) :=
  result_rows ← foldl (fun acc join =>
                         result_rows ← acc;
                         apply_join db base_table base_rows result_rows join)
                      (Ok []) joins;
  Ok (match result_rows with [] => base_rows | _ => result_rows end).

Fixpoint _evaluate_condition (row : Row.t) (condition : Condition) : result bool :=
  match condition with
  | LOGICAL operator left_cond right_cond =>
      left_result ← _evaluate_condition row left_cond;
      right_result ← _evaluate_condition row right_cond;
      if bool_decide (operator = "AND")
      then Ok ((left_result : bool) && (right_result : bool))
      else Ok (left_result || right_result)
  | COMPARISON column operator compare_value =>
      let col_value := Row.get row column in
      let guarded (cmp : Value -> Value -> result bool) :=
        if is_none col_value then Ok false else cmp col_value compare_value in
      if bool_decide (operator = "=") then Ok (py_eq col_value compare_value)
      else if string_in operator ["!="; "<>"]
      then Ok (negb (py_eq col_value compare_value))
      else if bool_decide (operator = "<") then guarded py_lt
      else if bool_decide (operator = ">") then guarded py_gt
      else if bool_decide (operator = "<=") then guarded py_le
      else if bool_decide (operator = ">=") then guarded py_ge
      else Err (ValueError ("Unknown operator: " +:+ operator))
  end.

(** [[row for row in rows if cond(row)]] *)
Fixpoint filter_result {A} (cond : A -> result bool) (l : list A) : result (list A) :=
  match l with
  | [] => Ok []
  | x :: l' =>
      b ← cond x;
      tl ← filter_result cond l';
      Ok (if (b : bool) then x :: tl else tl)
  end.

(** [sorted(rows, key=key)]: stable, by [<] on the keys; a pair of keys
    Python cannot order raises TypeError. *)
Fixpoint insert_sorted {A} (key : A -> Value) (x : A) (l : list A) : result (list A) :=
  match l with
  | [] => Ok [x]
  | y :: l' =>
      b ← py_lt (key y) (key x);
      if (b : bool) then (y ::.) <$> insert_sorted key x l' else Ok (x :: y :: l')
  end.

Definition py_sorted {A} (key : A -> Value) (reverse : bool) (l : list A)
    : result (list A) :=
  let sort (l : list A) : result (list A) :=
    foldr (fun x acc => acc ← acc; insert_sorted key x acc) (Ok []) l in
  if reverse then rows ← sort (rev l); Ok (rev rows) else sort l.

Definition order_key (column : string) (r : Row.t) : Value :=
  if is_none (Row.get r column) then VStr EmptyString else Row.get r column.

(** One row of the formatted result. *)
Definition project (cols : list string) (row : Row.t) : dict Value :=
  foldl (fun result_row col =>
           match split_dot col with
           | Some (_, col_name) =>
               let value := if dict_mem col (Row.data row) then Row.get row col
                            else Row.get row col_name in
               dict_set col_name value result_row
           | None => dict_set col (Row.get row col) result_row
           end)
        [] cols.

(** The row list of [_execute_select] after the JOIN, WHERE and ORDER BY
    steps, before LIMIT. *)
Definition select_rows (db : Database.t) (table : Table.t) (parsed : Select)
    : result (list Row.t) :=
  let rows := Table.scan table in
  rows ← match joins parsed with
         | [] => Ok rows
         | _ => _apply_joins db table rows (joins parsed)
         end;
  rows ← match where_ parsed with
         | Some cond => filter_result (fun row => _evaluate_condition row cond) rows
         | None => Ok rows
         end;
  match order_by parsed with
  | Some (column, direction) =>
      py_sorted (order_key column) (bool_decide (direction = DESC)) rows
  | None => Ok rows
  end.

(** [if parsed["limit"]: rows = rows[: parsed["limit"]]] *)
Definition apply_limit (limit : option Z) (rows : list Row.t) : list Row.t :=
  match limit with
  | Some n => if negb (n =? 0) then slice_to rows n else rows
  | None => rows
  end.

Definition _execute_select (db : Database.t) (parsed : Select) : result QueryResult :=
  match Database.get_table db (table parsed) with
  | None => Err (ValueError ("Table '" +:+ table parsed +:+ "' does not exist"))
  | Some table =>
      rows ← select_rows db table parsed;
      let rows := apply_limit (limit parsed) rows in
      let cols :=
        if bool_decide (columns parsed = ["*"]) then
          match joins parsed with
          | [] => Table.column_order table
          | _ => match rows with
                 | row :: _ => dict_keys (Row.data row)
                 | [] => []
                 end
          end
        else columns parsed in
      Ok (MkResult (map (fun col => col_name_of col) cols)
                   (map (project cols) rows) None)
  end.

End Executor.

(** ** Snapshots ([to_dict], [from_dict], [Database.save], [Database.load])

    The records below are the dictionaries the [to_dict] methods build,
    field by field.  The snapshot file holds their JSON text, so what
    [load] reads back is the dictionary after [json.dump(..., default=str)]
    followed by [json.load]. *)

Module Snapshot.

Record ColumnDict : Type := MkColumn {
  c_name : string;
  c_data_type : string;
  c_length : option Z;
  c_nullable : bool;
  c_primary_key : bool;
  c_unique : bool;
  c_default : Value
}.

Record RowDict : Type := MkRow {
  r_row_id : Z;
  r_data : dict Value
}.

Inductive IndexDict : Type :=
  | BTreeDict (column_name : string) (order : Z) (size : Z)
              (entries : list (Value * Z))
  | SimpleDict (column_name : string) (index : dict (list Z)).

Record TableDict : Type := MkTable {
  t_name : string;
  t_columns : list ColumnDict;
  t_column_order : list string;
  t_rows : list (option RowDict);
  t_indexes : dict IndexDict;
  t_next_row_id : Z
}.

Record DatabaseDict : Type := MkDatabase {
  d_name : string;
  d_created_at : string;
  d_tables : dict TableDict
}.

Definition DataType_of_string (s : string) : result DataType :=
  match list_find (fun t => DataType_value t = s) [INT; VARCHAR; FLOAT; BOOLEAN; DATETIME] with
  | Some (_, t) => Ok t
  | None => Err (ValueError ("'" +:+ s +:+ "' is not a valid DataType"))
  end.

(** [mapM] for [result]. *)
Fixpoint traverse {A B} (f : A -> result B) (l : list A) : result (list B) :=
  match l with
  | [] => Ok []
  | x :: l' => y ← f x; tl ← traverse f l'; Ok (y :: tl)
  end.

Section WithBuiltins.
Context `{PyBuiltins}.

(** A scalar after the JSON round trip: [default=str] turns a [datetime]
    into its [str]; the other scalars are JSON values and come back as
    they were. *)
Definition json_value (v : Value) : Value :=
  match v with
  | VDatetime d => VStr (py_str (VDatetime d))
  | _ => v
  end.

Definition json_column (c : ColumnDict) : ColumnDict :=
  MkColumn (c_name c) (c_data_type c) (c_length c) (c_nullable c)
           (c_primary_key c) (c_unique c) (json_value (c_default c)).

Definition json_row (r : RowDict) : RowDict :=
  MkRow (r_row_id r) (map (fun '(k, v) => (k, json_value v)) (r_data r)).

Definition json_index (i : IndexDict) : IndexDict :=
  match i with
  | BTreeDict c o s es => BTreeDict c o s (map (fun '(k, v) => (json_value k, v)) es)
  | SimpleDict c ix => SimpleDict c ix
  end.

Definition json_table (t : TableDict) : TableDict :=
  MkTable (t_name t) (map json_column (t_columns t)) (t_column_order t)
          (map (fmap json_row) (t_rows t))
          (map (fun '(k, i) => (k, json_index i)) (t_indexes t))
          (t_next_row_id t).

(** [json.load] of the text [json.dump(data, default=str)] wrote. *)
Definition json_round_trip (d : DatabaseDict) : DatabaseDict :=
  MkDatabase (d_name d) (d_created_at d)
             (map (fun '(k, t) => (k, json_table t)) (d_tables d)).

Definition column_to_dict (c : Column.t) : ColumnDict :=
  MkColumn (Column.name c) (DataType_value (Column.data_type c)) (Column.length c)
           (Column.nullable c) (Column.primary_key c) (Column.unique c)
           (Column.default c).

Definition column_from_dict (d : ColumnDict) : result Column.t :=
  ty ← DataType_of_string (c_data_type d);
  Ok (Column.Make (c_name d) ty (c_length d) (c_nullable d) (c_primary_key d)
                  (c_unique d) (c_default d)).

Definition row_to_dict (r : Row.t) : RowDict := MkRow (Row.row_id r) (Row.data r).
Definition row_from_dict (d : RowDict) : Row.t := Row.Make (r_data d) (r_row_id d).

Definition btree_to_dict (b : BTreeIndex.t) : IndexDict :=
  BTreeDict (BTreeIndex.column_name b) (BTreeIndex.order b) (BTreeIndex.size b)
            (BTreeIndex._collect_entries (BTreeIndex.root b)).

Definition simple_to_dict (s : SimpleIndex.t) : IndexDict :=
  SimpleDict (SimpleIndex.column_name s)
             (foldl (fun d '(k, v) => dict_set (py_str k) v d) []
                    (SimpleIndex.index s)).

Definition index_to_dict (i : Index.t) : IndexDict :=
  match i with
  | Index.BTree b => btree_to_dict b
  | Index.Simple s => simple_to_dict s
  end.

(** [BTreeIndex.from_dict] inserts the entries one by one into a new tree;
    [SimpleIndex.from_dict] takes the mapping as it is. *)
Definition index_from_dict (d : IndexDict) : result Index.t :=
  match d with
  | BTreeDict c o _ es =>
      Index.BTree <$>
        foldl (fun r '(key, row_index) =>
                 index ← r; BTreeIndex.insert index key row_index)
              (Ok (BTreeIndex.new c o)) es
  | SimpleDict c ix =>
      Ok (Index.Simple (SimpleIndex.Make c (map (fun '(k, v) => (VStr k, v)) ix)))
  end.

Definition table_to_dict (t : Table.t) : TableDict :=
  MkTable (Table.name t)
          (map (fun '(_, c) => column_to_dict c) (Table.columns t))
          (Table.column_order t)
          (map (fmap row_to_dict) (Table.rows t))
          (map (fun '(k, i) => (k, index_to_dict i)) (Table.indexes t))
          (Table.next_row_id t).

Definition table_from_dict (d : TableDict) : result Table.t :=
  cols ← traverse column_from_dict (t_columns d);
  table ← Table.new (t_name d) cols;
  let rows := map (fmap row_from_dict) (t_rows d) in
  indexes ← foldl (fun r '(name, idx_data) =>
                     ix ← r;
                     index ← index_from_dict idx_data;
                     Ok (dict_set name index ix))
                  (Ok (Table.indexes table)) (t_indexes d);
  Ok (Table.Make (Table.name table) (Table.columns table) (t_column_order d)
                 rows indexes (t_next_row_id d)).

(** [save]: the content of the snapshot file, as [json.load] returns it.
    [now] is [datetime.now().isoformat()]. *)
Definition save (self : Database.t) (now : string) : DatabaseDict :=
  json_round_trip
    (MkDatabase (Database.name self) now
       (map (fun '(k, t) => (k, table_to_dict t)) (Database.tables self))).

(** [load]: without a snapshot file the instance is left as it is. *)
Definition load (self : Database.t) (file : option DatabaseDict) : result Database.t :=
  match file with
  | None => Ok self
  | Some data =>
      tables ← foldl (fun r '(table_name, table_data) =>
                        ts ← r;
                        table ← table_from_dict table_data;
                        Ok (dict_set table_name table ts))
                     (Ok []) (d_tables data);
      Ok (Database.Make (d_name data) tables)
  end.

(** [Database(name, data_dir)] on a directory holding [file]. *)
Definition open (name : string) (file : option DatabaseDict) : result Database.t :=
  load (Database.Make name []) file.

End WithBuiltins.
End Snapshot.

(** ** A sample implementation of the builtins

    Used to run the engine on concrete inputs.  It follows CPython on the
    arguments the examples of this file pass: booleans, integers, integral
    floats, strings of decimal digits with an optional sign, and date
    strings with zero-padded fields. *)

Module SampleBuiltins.

Definition digit_of (c : ascii) : option Z :=
  let n := nat_of_ascii c in
  if ((48 <=? n) && (n <=? 57))%nat then Some (Z.of_nat (n - 48)) else None.

Fixpoint digits_value (l : list ascii) (acc : Z) : option Z :=
  match l with
  | [] => Some acc
  | c :: l' => d ← digit_of c; digits_value l' (10 * acc + d)
  end.

Definition parse_nat (l : list ascii) : option Z :=
  match l with
  | [] => None
  | _ => digits_value l 0
  end.

Definition parse_int (s : string) : option Z :=
  match list_ascii_of_string s with
  | "-"%char :: l => Z.opp <$> parse_nat l
  | "+"%char :: l => parse_nat l
  | l => parse_nat l
  end.

Definition int_of (v : Value) : result Z :=
  match v with
  | VBool b => Ok (if b then 1 else 0)
  | VInt n => Ok n
  | VFloat f =>
      Ok (if 0 <=? fexp f then fnum f * 2 ^ fexp f
          else Z.quot (fnum f) (2 ^ (- fexp f)))
  | VStr s =>
      match parse_int s with
      | Some n => Ok n
      | None => Err (ValueError ("invalid literal for int() with base 10: '" +:+ s +:+ "'"))
      end
  | _ => Err (TypeError "int() argument must be a string or a real number")
  end.

Definition float_of (v : Value) : result pyfloat :=
  match v with
  | VBool b => Ok (PyFloat (if b then 1 else 0) 0)
  | VInt n => Ok (PyFloat n 0)
  | VFloat f => Ok f
  | VStr s =>
      match parse_int s with
      | Some n => Ok (PyFloat n 0)
      | None => Err (ValueError ("could not convert string to float: '" +:+ s +:+ "'"))
      end
  | _ => Err (TypeError "float() argument must be a string or a real number")
  end.

(** Decimal text of [n], left-padded with zeros to [width] characters. *)
Definition zero_pad (width : nat) (n : Z) : string :=
  let s := pretty n in
  string_of_list_ascii (replicate (width - String.length s) "0"%char) +:+ s.

Definition datetime_str (d : datetime) : string :=
  zero_pad 4 (year d) +:+ "-" +:+ zero_pad 2 (month d) +:+ "-" +:+ zero_pad 2 (day d)
  +:+ " " +:+ zero_pad 2 (hour d) +:+ ":" +:+ zero_pad 2 (minute d)
  +:+ ":" +:+ zero_pad 2 (second d)
  +:+ (if microsecond d =? 0 then EmptyString
       else "." +:+ zero_pad 6 (microsecond d)).

Definition str_of (v : Value) : string :=
  match v with
  | VNone => "None"
  | VBool b => if b then "True" else "False"
  | VInt n => pretty n
  | VFloat f =>
      if 0 <=? fexp f then pretty (fnum f * 2 ^ fexp f) +:+ ".0"
      else pretty (fnum f) +:+ "*2**" +:+ pretty (fexp f)
  | VStr s => s
  | VDatetime d => datetime_str d
  end.

(** Reads the fields of a date string against a format: a [%] directive
    takes the digits of its field, any other character must match. *)
Fixpoint read_fields (width : nat) (l : list ascii) : option (Z * list ascii) :=
  match width with
  | O => Some (0, l)
  | S w =>
      match l with
      | c :: l' =>
          d ← digit_of c;
          '(n, rest) ← read_fields w l';
          Some (d * 10 ^ Z.of_nat w + n, rest)
      | [] => None
      end
  end.

Fixpoint parse_format (fmt s : list ascii) (d : datetime) : option datetime :=
  match fmt with
  | [] => match s with [] => Some d | _ => None end
  | "%"%char :: f :: fmt' =>
      let field (width : nat) (set : Z -> datetime) :=
        '(n, rest) ← read_fields width s; parse_format fmt' rest (set n) in
      if bool_decide (f = "Y"%char) then
        field 4%nat (fun n => DateTime n (month d) (day d) (hour d) (minute d) (second d) 0)
      else if bool_decide (f = "m"%char) then
        field 2%nat (fun n => DateTime (year d) n (day d) (hour d) (minute d) (second d) 0)
      else if bool_decide (f = "d"%char) then
        field 2%nat (fun n => DateTime (year d) (month d) n (hour d) (minute d) (second d) 0)
      else if bool_decide (f = "H"%char) then
        field 2%nat (fun n => DateTime (year d) (month d) (day d) n (minute d) (second d) 0)
      else if bool_decide (f = "M"%char) then
        field 2%nat (fun n => DateTime (year d) (month d) (day d) (hour d) n (second d) 0)
      else if bool_decide (f = "S"%char) then
        field 2%nat (fun n => DateTime (year d) (month d) (day d) (hour d) (minute d) n 0)
      else None
  | c :: fmt' =>
      match s with
      | c' :: s' => if bool_decide (c = c') then parse_format fmt' s' d else None
      | [] => None
      end
  end.

Definition strptime_of (s fmt : string) : result datetime :=
  match parse_format (list_ascii_of_string fmt) (list_ascii_of_string s)
          (DateTime 1900 1 1 0 0 0 0) with
  | Some d => Ok d
  | None => Err (ValueError ("time data '" +:+ s +:+ "' does not match format '"
                             +:+ fmt +:+ "'"))
  end.

#[export] Instance builtins : PyBuiltins := {|
  py_int := int_of;
  py_float := float_of;
  py_str := str_of;
  strptime := strptime_of
|}.

End SampleBuiltins.

(** ** Sample schemas and databases

    Tables built through [Table.new] and [Table.insert] only, with the
    sample builtins. *)

Module Samples.
Import SampleBuiltins.

Definition column (name : string) (ty : DataType) (primary_key : bool) : Column.t :=
  Column.Make name ty None true primary_key false VNone.

Definition create (name : string) (cols : list Column.t) : Table.t :=
  match Table.new name cols with
  | Ok t => t
  | Err _ => Table.Make name [] [] [] [] 0
  end.

(** [Table.insert], keeping the table the call leaves behind. *)
Definition insert_all (t : Table.t) (payloads : list (dict Value)) : Table.t :=
  foldl (fun t data => fst (Table.insert t data)) t payloads.

(** [people(id INT PRIMARY KEY, name VARCHAR)] with ids 1 to 6. *)
Definition people : Table.t :=
  insert_all (create "people" [column "id" INT true; column "name" VARCHAR false])
    (map (fun n : Z => [("id", VInt n); ("name", VStr "x")]) [1; 2; 3; 4; 5; 6]).

Definition people_index : BTreeIndex.t :=
  match dict_get "id" (Table.indexes people) with
  | Some (Index.BTree b) => b
  | _ => BTreeIndex.new "id" 3
  end.

(** [users(id INT PRIMARY KEY, name VARCHAR)]: Ann and Bob, then Ann's
    row deleted. *)
Definition users : Table.t :=
  insert_all (create "users" [column "id" INT true; column "name" VARCHAR false])
    [[("id", VInt 1); ("name", VStr "Ann")];
     [("id", VInt 2); ("name", VStr "Bob")]].

Definition users_after_delete : Table.t := fst (Table.delete users 0).

(** A customer with id 1 and an order that belongs to customer 2. *)
Definition customers : Table.t :=
  insert_all (create "customers" [column "id" INT true; column "name" VARCHAR false])
    [[("id", VInt 1); ("name", VStr "Ann")]].

Definition orders : Table.t :=
  insert_all (create "orders" [column "id" INT true; column "customer_id" INT false])
    [[("id", VInt 10); ("customer_id", VInt 2)]].

Definition shop : Database.t :=
  Database.Make "shop" [("customers", customers); ("orders", orders)].

(** [SELECT * FROM customers INNER JOIN orders
     ON customers.id = orders.customer_id] *)
Definition select_join : Executor.Select :=
  Executor.MkSelect ["*"] "customers"
    [Executor.MkJoin Executor.INNER "orders" "customers.id" "orders.customer_id"]
    None None None.

(** [SELECT * FROM people LIMIT 0] *)
Definition census : Database.t := Database.Make "census" [("people", people)].

Definition select_limit (n : Z) : Executor.Select :=
  Executor.MkSelect ["*"] "people" [] None None (Some n).

(** [events(id INT PRIMARY KEY, at DATETIME)] with one row, inserted from
    the string ['2024-01-15 10:30:00']. *)
Definition events : Table.t :=
  insert_all (create "events" [column "id" INT true; column "at" DATETIME false])
    [[("id", VInt 1); ("at", VStr "2024-01-15 10:30:00")]].

Definition calendar : Database.t := Database.Make "calendar" [("events", events)].

(** [accounts(id INT PRIMARY KEY, name VARCHAR(5) NOT NULL,
    email VARCHAR UNIQUE)] with one row. *)
Definition accounts : Table.t :=
  insert_all
    (create "accounts"
       [column "id" INT true;
        Column.Make "name" VARCHAR (Some 5) false false false VNone;
        Column.Make "email" VARCHAR None true false true VNone])
    [[("id", VInt 1); ("name", VStr "Ann"); ("email", VStr "ann@example.com")]].

(** The cell [column] of slot [slot] of table [table]. *)
Definition cell (db : Database.t) (table : string) (slot : nat) (column : string)
    : option Value :=
  t ← Database.get_table db table;
  row ← mjoin (Table.rows t !! slot);
  dict_get column (Row.data row).

End Samples.

(** ** Specification-side definitions

    Written from the words of the specification, to compare with the
    functions above. *)

Module Spec.

(** "live rows whose column value v satisfies lo <= v <= hi", by a full
    scan in slot order. *)
Definition le (a b : Value) : bool :=
  match py_compare a b with
  | Some Lt | Some Eq => true
  | _ => false
  end.

Definition in_range (lo hi v : Value) : bool := le lo v && le v hi.

Definition range_filter (t : Table.t) (column : string) (lo hi : Value) : list Row.t :=
  filter (fun row => in_range lo hi (Row.get row column) = true) (Table.scan t).

(** "the live (non-tombstoned) rows whose value in that column equals the
    given value" *)
Definition equal_filter (t : Table.t) (column : string) (value : Value) : list Row.t :=
  filter (fun row => py_eq (Row.get row column) value = true) (Table.scan t).

(** The conversion and validation steps of [Table.insert]: the row data to
    store, or the exception a "validation failure" raises (a failed
    conversion, a NOT NULL violation, a VARCHAR overflow, a duplicate
    PRIMARY KEY or UNIQUE value). *)
Definition checked `{PyBuiltins} (t : Table.t) (data : dict Value)
    : result (dict Value) :=
  full_data ← Table.fill_defaults (Table.columns t) data [];
  '(is_valid, error) ← Table.validate_row t full_data false None;
  if (is_valid : bool) then Ok full_data else Err (Table.validation_error error).

(** "(base row, join row) pair[s] whose resolved left and right
    join-column values are equal" *)
Definition matching_pairs (left_col right_col : string)
    (base_rows join_rows : list Row.t) : list (Row.t * Row.t) :=
  filter (fun p => Executor.join_match left_col right_col p.1 p.2 = true)
         (b ← base_rows; r ← join_rows; [(b, r)]).

(** "no matching closing quote before end of input": scanning [rest], the
    text after the opening quote, never meets [quote] outside an escape
    (a backslash escapes the character after it). *)
Fixpoint unterminated (quote : ascii) (rest : list ascii) : bool :=
  match rest with
  | [] => true
  | c :: rest' =>
      if bool_decide (c = quote) then false
      else if bool_decide (c = "\"%char) then
        match rest' with
        | [] => true
        | _ :: rest'' => unterminated quote rest''
        end
      else unterminated quote rest'
  end.

End Spec.

(** ** Histories of a table

    Calls of [insert], [update] and [delete] on one table, each leaving the
    table as the next call finds it, whether it returned or raised. *)

Module History.

Inductive Op : Type :=
  | Insert (data : dict Value)
  | Update (row_index : nat) (updates : dict Value)
  | Delete (row_index : nat).

Section WithBuiltins.
Context `{PyBuiltins}.

(** The table after the call and, for an [insert] that returned, the
    [row_id] of the row it created. *)
Definition apply (t : Table.t) (op : Op) : Table.t * option Z :=
  match op with
  | Insert data =>
      let '(t', r) := Table.insert t data in
      (t', match r with Ok row => Some (Row.row_id row) | Err _ => None end)
  | Update row_index updates => ((Table.update t row_index updates).1, None)
  | Delete row_index => ((Table.delete t row_index).1, None)
  end.

(** The final table and the ids assigned along the way, oldest first. *)
Fixpoint run (t : Table.t) (ops : list Op) : Table.t * list Z :=
  match ops with
  | [] => (t, [])
  | op :: rest =>
      let '(t', id) := apply t op in
      let '(t'', ids) := run t' rest in
      (t'', from_option (fun i => [i]) [] id ++ ids)
  end.

(** Tables the engine can build: created by [Table(name, columns)], then
    changed by its three mutating methods. *)
Inductive reachable : Table.t -> Prop :=
  | reachable_new name cols t :
      Table.new name cols = Ok t -> reachable t
  | reachable_apply t op :
      reachable t -> reachable (apply t op).1.

End WithBuiltins.

(** Live rows carry increasing ids, all below [next_row_id]. *)
Definition well_numbered (t : Table.t) : Prop :=
  StronglySorted Z.lt (Row.row_id <$> Table.scan t) /\
  Forall (fun row => Row.row_id row < Table.next_row_id t) (Table.scan t).

End History.

(** ** Histories of a B-tree index

    Calls of [insert] and [delete] on one index; a call that raises ends
    the history. *)

Module IndexHistory.

Inductive Op : Type :=
  | Insert (key : Value) (row_index : Z)
  | Delete (key : Value) (row_index : Z).

Definition apply (index : BTreeIndex.t) (op : Op) : result BTreeIndex.t :=
  match op with
  | Insert key row_index => BTreeIndex.insert index key row_index
  | Delete key row_index => Ok (BTreeIndex.delete index key row_index)
  end.

Fixpoint run (index : BTreeIndex.t) (ops : list Op) : result BTreeIndex.t :=
  match ops with
  | [] => Ok index
  | op :: rest => index' ← apply index op; run index' rest
  end.

Definition is_insert (op : Op) : bool :=
  match op with Insert _ _ => true | Delete _ _ => false end.

Definition key_of (op : Op) : Value :=
  match op with Insert key _ | Delete key _ => key end.

(** The numbers of [insert] and of [delete] calls. *)
Definition inserts (ops : list Op) : Z :=
  Z.of_nat (length (filter (fun op => is_insert op = true) ops)).
Definition deletes (ops : list Op) : Z :=
  Z.of_nat (length (filter (fun op => is_insert op = false) ops)).

End IndexHistory.

(** ** Well-formed trees

    The shape every operation of [index.py] maintains, used to show that
    the operations return. *)

Module BTreeInv.
Import BTreeNode.

(** A class of keys Python can order among themselves, such as the
    numbers, the strings or the datetimes. *)
Definition ordered_class (P : Value -> Prop) : Prop :=
  forall a b, P a -> P b -> is_Some (py_compare a b).

Definition numeric (v : Value) : Prop := is_Some (as_number v).

(** Nodes of order [ord] with keys in [P]: an internal node has one child
    more than it has entries. *)
#[local] Unset Elimination Schemes.
Inductive wf (P : Value -> Prop) (ord : Z) : BTreeNode.t -> Prop :=
  | wf_node leaf es cs :
      Forall (fun e => P e.1) es ->
      (leaf = false -> length cs = S (length es)) ->
      Forall (wf P ord) cs ->
      wf P ord (Node leaf es cs ord).
#[local] Set Elimination Schemes.

Definition wf_index (P : Value -> Prop) (index : BTreeIndex.t) : Prop :=
  2 <= BTreeIndex.order index /\
  wf P (BTreeIndex.order index) (BTreeIndex.root index).

(** Induction over a node and all its children. *)
Fixpoint node_ind (Q : BTreeNode.t -> Prop)
    (step : forall leaf es cs ord, Forall Q cs -> Q (Node leaf es cs ord))
    (n : BTreeNode.t) : Q n :=
  match n with
  | Node leaf es cs ord =>
      step leaf es cs ord
        ((fix children_ind (cs : list BTreeNode.t) : Forall Q cs :=
            match cs with
            | [] => @List.Forall_nil _ Q
            | c :: cs' =>
                @List.Forall_cons _ Q c cs' (node_ind Q step c) (children_ind cs')
            end) cs)
  end.

End BTreeInv.

(** [r] raises nothing outside [ok]. *)
Definition only_raises {A} (ok : PyError -> Prop) (r : result A) : Prop :=
  forall e, r = Err e -> ok e.

(** ** Shapes of tokens

    What each token type of [Tokenizer.tokenize] can hold, and the
    texts [_read_string] reads up to a closing quote. *)

Module TokenShape.
Import Tokenizer.

Definition OPERATORS : list string := ["="; "<"; ">"; "!"; "<="; ">="; "!="; "<>"].
Definition PUNCTUATION : list string := ["("; ")"; ","; ";"; "*"; "."].

(** [c.isascii()] *)
Definition isascii (c : ascii) : bool := (code c <? 128)%nat.

Definition ident_char (c : ascii) : bool := isalnum c || is_char "_" c.
Definition number_char (c : ascii) : bool := isdigit c || is_char "." c.

Definition digits (l : list ascii) : bool :=
  match l with
  | d :: rest => isdigit d && forallb number_char rest
  | [] => false
  end.

Definition well_formed (tok : Token) : bool :=
  let chars := list_ascii_of_string (value tok) in
  match type tok with
  | KEYWORD => string_in (value tok) KEYWORDS
  | IDENTIFIER =>
      negb (string_in (str_upper (value tok)) KEYWORDS) &&
      forallb ident_char chars &&
      match chars with
      | c :: _ => isalpha c || is_char "_" c
      | [] => false
      end
  | NUMBER =>
      digits chars ||
      match chars with
      | c :: rest => is_char "-" c && digits rest
      | [] => false
      end
  | OPERATOR => string_in (value tok) OPERATORS
  | PUNCT => string_in (value tok) PUNCTUATION
  | STRING => true
  end.

(** The characters a query may hold outside strings and comments. *)
Definition lexical (c : ascii) : bool :=
  isspace c || is_quote c || isdigit c || isalpha c || is_char "_" c ||
  char_in c "(),;=<>!*.".

(** [s] is the inside of a string literal: no unescaped [quote], no
    backslash at its end. *)
Fixpoint string_body (quote : ascii) (s : list ascii) : bool :=
  match s with
  | [] => true
  | c :: s' =>
      if is_char quote c then false
      else if is_char "\" c then
        match s' with
        | [] => false
        | _ :: s'' => string_body quote s''
        end
      else string_body quote s'
  end.

End TokenShape.
(** ** Keys of the hash index

    A Python [dict] never holds two keys that are [==]; the association
    list of [SimpleIndex] is such a dict when [distinct_keys] holds. *)

Module SimpleInv.

Fixpoint distinct_keys (d : list (Value * list Z)) : bool :=
  match d with
  | [] => true
  | (k, _) :: d' => forallb (fun e => negb (py_eq k e.1)) d' && distinct_keys d'
  end.

(** [l.remove(x)] when [x] is in [l], [l] itself when it is not. *)
Definition without (x : Z) (l : list Z) : list Z :=
  default l (SimpleIndex.list_remove x l).

End SimpleInv.
(** ** Measures used in the proofs *)

(** The value of a float on the scale [2 ^ m]. *)
Module FloatScale.

Definition scaled (a : pyfloat) (m : Z) : Z := fnum a * 2 ^ (fexp a - m).

End FloatScale.

(** The number of entries [_collect_entries] finds below a node, and below
    a list of children. *)
Module BTreeWeight.

Definition weight (n : BTreeNode.t) : nat := length (BTreeIndex._collect_entries n).
Definition total (cs : list BTreeNode.t) : nat :=
  length (concat (map BTreeIndex._collect_entries cs)).

End BTreeWeight.

(** [pets(id INT PRIMARY KEY, kind VARCHAR)] with two cats and an index on
    [kind], created after the rows were inserted. *)
Module IndexedSamples.
Import SampleBuiltins.

Definition pets : Table.t :=
  let t := Samples.insert_all
             (Samples.create "pets"
                [Samples.column "id" INT true; Samples.column "kind" VARCHAR false])
             [[("id", VInt 1); ("kind", VStr "cat")];
              [("id", VInt 2); ("kind", VStr "cat")]] in
  match Table.create_index t "kind" true with
  | Ok t' => t'
  | Err _ => t
  end.

End IndexedSamples.
(** ** Order of rows

    [ordered_by column descending rows]: each row's sort key is at most
    (at least, when descending) the keys of the rows after it. *)

Module RowOrder.

Definition le_by {A} (key : A -> Value) (a b : A) : Prop :=
  Spec.le (key a) (key b) = true.

Definition ordered_by (column : string) (descending : bool) (rows : list Row.t) : Prop :=
  StronglySorted (if descending then flip (le_by (Executor.order_key column))
                  else le_by (Executor.order_key column)) rows.

End RowOrder.
(** ** The catalog and its snapshot file ([storage.py])

    A [Database] object together with the content of its snapshot file
    ([None] while the file does not exist).  [now] is the text of
    [datetime.now().isoformat()] at the time of the call. *)

Module Storage.

Record t : Type := Make {
  database : Database.t;
  file : option Snapshot.DatabaseDict
}.

(** [del d[k]] *)
Definition dict_del {V} (k : string) (d : dict V) : dict V :=
  filter (fun p => p.1 <> k) d.

Definition set_tables (db : Database.t) (tables : dict Table.t) : Database.t :=
  Database.Make (Database.name db) tables.

Definition list_tables (self : t) : list string :=
  dict_keys (Database.tables (database self)).

Definition table_exists (self : t) (name : string) : bool :=
  dict_mem name (Database.tables (database self)).

Definition get_table (self : t) (name : string) : option Table.t :=
  Database.get_table (database self) name.

Section WithBuiltins.
Context `{PyBuiltins}.

Definition save (self : t) (now : string) : t :=
  Make (database self) (Some (Snapshot.save (database self) now)).

Definition create_table (self : t) (name : string) (columns : list Column.t)
    (now : string) : t * result Table.t :=
  let db := database self in
  if dict_mem name (Database.tables db) then
    (self, Err (ValueError ("Table '" +:+ name +:+ "' already exists")))
  else
    match columns with
    | [] => (self, Err (ValueError "Table must have at least one column"))
    | _ =>
        match Table.new name columns with
        | Err e => (self, Err e)
        | Ok table =>
            let db := set_tables db (dict_set name table (Database.tables db)) in
            (save (Make db (file self)) now, Ok table)
        end
    end.

Definition drop_table (self : t) (name : string) (now : string) : t * result unit :=
  let db := database self in
  if negb (dict_mem name (Database.tables db)) then
    (self, Err (ValueError ("Table '" +:+ name +:+ "' does not exist")))
  else
    let db := set_tables db (dict_del name (Database.tables db)) in
    (save (Make db (file self)) now, Ok ()).

End WithBuiltins.
End Storage.

(** ** Statements that change the database ([executor.py])

    The dictionaries the parser returns for the statements other than
    SELECT, and their execution on a [Storage.t]: every function returns
    the state the call leaves behind, with the result or the exception. *)

Module Statements.

Record Insert : Type := MkInsert {
  insert_table : string;
  insert_columns : option (list string);
  insert_values : list Value
}.

Record Update : Type := MkUpdate {
  update_table : string;
  updates : dict Value;
  update_where : option Executor.Condition
}.

Record Delete : Type := MkDelete {
  delete_table : string;
  delete_where : option Executor.Condition
}.

(** One entry of [parsed["columns"]] of a CREATE TABLE. *)
Record ColumnDef : Type := MkColumnDef {
  def_name : string;
  def_type : string;
  def_length : option Z;
  def_primary_key : bool;
  def_unique : bool;
  def_nullable : bool;
  def_default : Value
}.

Record CreateTable : Type := MkCreateTable {
  create_table_name : string;
  create_columns : list ColumnDef
}.

Record CreateIndex : Type := MkCreateIndex {
  index_name : string;
  index_table : string;
  index_column : string
}.

Inductive Statement : Type :=
  | SELECT (parsed : Executor.Select)
  | INSERT (parsed : Insert)
  | UPDATE (parsed : Update)
  | DELETE (parsed : Delete)
  | CREATE_TABLE (parsed : CreateTable)
  | CREATE_INDEX (parsed : CreateIndex)
  | DROP_TABLE (table : string).

Definition no_table (name : string) : PyError :=
  ValueError ("Table '" +:+ name +:+ "' does not exist").

Definition message (text : string) : Executor.QueryResult :=
  Executor.MkResult [] [] (Some text).

(** [{col: val for col, val in zip(cols, vals)}] *)
Definition zip_dict (cols : list string) (vals : list Value) : dict Value :=
  foldl (fun d '(col, val) => dict_set col val d) [] (zip cols vals).

(** The live rows with their slots, in slot order: what [table.scan()]
    returns, each row with its [table.rows.index(row)] (rows are compared
    by identity, so the index of a row is the slot that holds it). *)
Fixpoint live_from (i : nat) (rs : list (option Row.t)) : list (nat * Row.t) :=
  match rs with
  | [] => []
  | Some row :: rest => (i, row) :: live_from (S i) rest
  | None :: rest => live_from (S i) rest
  end.

(** The rows a statement with an optional WHERE clause works on. *)
Definition selected (table : Table.t) (where_ : option Executor.Condition)
    : result (list (nat * Row.t)) :=
  let rows := live_from 0 (Table.rows table) in
  match where_ with
  | Some cond =>
      Executor.filter_result (fun r => Executor._evaluate_condition r.2 cond) rows
  | None => Ok rows
  end.

(** [for row in rows: table.delete(table.rows.index(row)); count += 1] *)
Fixpoint delete_all (table : Table.t) (slots : list nat) (count : nat)
    : Table.t * result nat :=
  match slots with
  | [] => (table, Ok count)
  | i :: rest =>
      match Table.delete table i with
      | (table', Ok _) => delete_all table' rest (S count)
      | (table', Err e) => (table', Err e)
      end
  end.

Section WithBuiltins.
Context `{PyBuiltins}.

(** The table named [name] is the object [table] after the call. *)
Definition set_table (self : Storage.t) (name : string) (table : Table.t) : Storage.t :=
  let db := Storage.database self in
  Storage.Make (Storage.set_tables db (dict_set name table (Database.tables db)))
               (Storage.file self).

Definition _execute_insert (self : Storage.t) (parsed : Insert) (now : string)
    : Storage.t * result Executor.QueryResult :=
  match Storage.get_table self (insert_table parsed) with
  | None => (self, Err (no_table (insert_table parsed)))
  | Some table =>
      let row_data :=
        match insert_columns parsed with
        | Some (col :: cols) =>
            if bool_decide (length (col :: cols) <> length (insert_values parsed))
            then Err (ValueError "Column count doesn't match value count")
            else Ok (zip_dict (col :: cols) (insert_values parsed))
        | _ =>
            if bool_decide (length (insert_values parsed)
                            <> length (Table.column_order table))
            then Err (ValueError "Value count doesn't match table column count")
            else Ok (zip_dict (Table.column_order table) (insert_values parsed))
        end in
      match row_data with
      | Err e => (self, Err e)
      | Ok row_data =>
          match Table.insert table row_data with
          | (table', Err e) => (set_table self (insert_table parsed) table', Err e)
          | (table', Ok row) =>
              (Storage.save (set_table self (insert_table parsed) table') now,
               Ok (message ("Inserted 1 row (row_id=" +:+ pretty (Row.row_id row) +:+ ")")))
          end
      end
  end.

(** [for row in rows: table.update(table.rows.index(row), updates);
    count += 1] *)
Fixpoint update_all (table : Table.t) (slots : list nat) (updates : dict Value)
    (count : nat) : Table.t * result nat :=
  match slots with
  | [] => (table, Ok count)
  | i :: rest =>
      match Table.update table i updates with
      | (table', Ok _) => update_all table' rest updates (S count)
      | (table', Err e) => (table', Err e)
      end
  end.

Definition _execute_update (self : Storage.t) (parsed : Update) (now : string)
    : Storage.t * result Executor.QueryResult :=
  match Storage.get_table self (update_table parsed) with
  | None => (self, Err (no_table (update_table parsed)))
  | Some table =>
      match selected table (update_where parsed) with
      | Err e => (self, Err e)
      | Ok rows =>
          match update_all table rows.*1 (updates parsed) 0 with
          | (table', Err e) => (set_table self (update_table parsed) table', Err e)
          | (table', Ok updated_count) =>
              (Storage.save (set_table self (update_table parsed) table') now,
               Ok (message ("Updated " +:+ pretty updated_count +:+ " row(s)")))
          end
      end
  end.

Definition _execute_delete (self : Storage.t) (parsed : Delete) (now : string)
    : Storage.t * result Executor.QueryResult :=
  match Storage.get_table self (delete_table parsed) with
  | None => (self, Err (no_table (delete_table parsed)))
  | Some table =>
      match selected table (delete_where parsed) with
      | Err e => (self, Err e)
      | Ok rows =>
          match delete_all table rows.*1 0 with
          | (table', Err e) => (set_table self (delete_table parsed) table', Err e)
          | (table', Ok deleted_count) =>
              (Storage.save (set_table self (delete_table parsed) table') now,
               Ok (message ("Deleted " +:+ pretty deleted_count +:+ " row(s)")))
          end
      end
  end.

(** [Column(name=..., data_type=DataType(col_def["type"]), ...)] *)
Definition column_of_def (d : ColumnDef) : result Column.t :=
  ty ← Snapshot.DataType_of_string (def_type d);
  Ok (Column.Make (def_name d) ty (def_length d) (def_nullable d)
                  (def_primary_key d) (def_unique d) (def_default d)).

Definition _execute_create_table (self : Storage.t) (parsed : CreateTable)
    (now : string) : Storage.t * result Executor.QueryResult :=
  match Snapshot.traverse column_of_def (create_columns parsed) with
  | Err e => (self, Err e)
  | Ok columns =>
      match Storage.create_table self (create_table_name parsed) columns now with
      | (self', Err e) => (self', Err e)
      | (self', Ok table) =>
          (self', Ok (message ("Created table '" +:+ Table.name table +:+ "'")))
      end
  end.

Definition _execute_create_index (self : Storage.t) (parsed : CreateIndex)
    (now : string) : Storage.t * result Executor.QueryResult :=
  match Storage.get_table self (index_table parsed) with
  | None => (self, Err (no_table (index_table parsed)))
  | Some table =>
      match Table.create_index table (index_column parsed) true with
      | Err e => (self, Err e)
      | Ok table' =>
          (Storage.save (set_table self (index_table parsed) table') now,
           Ok (message ("Created index on " +:+ index_table parsed +:+ "."
                        +:+ index_column parsed)))
      end
  end.

Definition _execute_drop_table (self : Storage.t) (table : string) (now : string)
    : Storage.t * result Executor.QueryResult :=
  match Storage.drop_table self table now with
  | (self', Err e) => (self', Err e)
  | (self', Ok _) => (self', Ok (message ("Dropped table '" +:+ table +:+ "'")))
  end.

(** The dispatch of [execute] on the parsed statement. *)
Definition run (self : Storage.t) (parsed : Statement) (now : string)
    : Storage.t * result Executor.QueryResult :=
  match parsed with
  | SELECT parsed => (self, Executor._execute_select (Storage.database self) parsed)
  | INSERT parsed => _execute_insert self parsed now
  | UPDATE parsed => _execute_update self parsed now
  | DELETE parsed => _execute_delete self parsed now
  | CREATE_TABLE parsed => _execute_create_table self parsed now
  | CREATE_INDEX parsed => _execute_create_index self parsed now
  | DROP_TABLE table => _execute_drop_table self table now
  end.

End WithBuiltins.
End Statements.
(** ** The parser ([parser.py], class [SQLParser])

    The parser only moves forward, so its state [tokens], [pos] is kept as
    the list [tokens[pos:]] of the tokens not yet consumed.  A [while] loop
    is its body iterated by [while_loop]; every iteration that goes on
    consumes a token, so [len(tokens) + 1] rounds are enough, and
    [RecursionError] stands for running out of them. *)

Module SQLParser.
Import Tokenizer.

#[global] Instance TokenType_eq_dec : EqDecision TokenType.
Proof. solve_decision. Defined.

Definition _current_token (toks : list Token) : option Token := head toks.
Definition _advance (toks : list Token) : list Token := tail toks.

(** [self._current_token() and self._current_token().value == s] *)
Definition value_is (s : string) (toks : list Token) : bool :=
  match toks with
  | token :: _ => bool_decide (value token = s)
  | [] => false
  end.

(** [self._current_token() and self._current_token().value.upper() in l] *)
Definition upper_in (l : list string) (toks : list Token) : bool :=
  match toks with
  | token :: _ => string_in (str_upper (value token)) l
  | [] => false
  end.

Definition is_type (ty : TokenType) (token : Token) : bool :=
  bool_decide (type token = ty).

Definition _expect (expected : string) (token_type : TokenType) (toks : list Token)
    : result (list Token) :=
  match toks with
  | token :: rest =>
      if negb (is_type token_type token) ||
         negb (bool_decide (str_upper (value token) = str_upper expected))
      then Err (ValueError ("Expected " +:+ expected +:+ ", got " +:+ value token))
      else Ok rest
  | [] => Err (ValueError ("Expected " +:+ expected +:+ ", got EOF"))
  end.

(** The outcome of one iteration of a loop: go on with a new state, or
    leave the loop with a result. *)
Inductive step (St R : Type) : Type :=
  | Continue (s : St) (toks : list Token)
  | Break (r : R).
Arguments Continue {St R} s toks.
Arguments Break {St R} r.

Fixpoint while_loop {St R} (body : St -> list Token -> result (step St R))
    (fuel : nat) (s : St) (toks : list Token) : result R :=
  match fuel with
  | O => Err RecursionError
  | S fuel' =>
      r ← body s toks;
      match r with
      | Continue s' toks' => while_loop body fuel' s' toks'
      | Break r => Ok r
      end
  end.

Definition while_ {St R} (body : St -> list Token -> result (step St R))
    (s : St) (toks : list Token) : result R :=
  while_loop body (S (length toks)) s toks.

(** The token [token] is expected to be an IDENTIFIER. *)
Definition identifier (error : string) (toks : list Token)
    : result (Token * list Token) :=
  match toks with
  | token :: rest =>
      if is_type IDENTIFIER token then Ok (token, rest) else Err (ValueError error)
  | [] => Err (ValueError error)
  end.

(** The optional [.column] after a name in a JOIN or WHERE condition. *)
Definition dotted (name : Token) (toks : list Token) : result (string * list Token) :=
  if value_is "." toks then
    '(col, toks) ← identifier "Expected column name" (_advance toks);
    Ok (value name +:+ "." +:+ value col, toks)
  else Ok (value name, toks).

Section WithBuiltins.
Context `{PyBuiltins}.

Definition _parse_value (token : Token) : result Value :=
  match type token with
  | STRING => Ok (VStr (value token))
  | NUMBER =>
      if char_in "." (value token)
      then VFloat <$> py_float (VStr (value token))
      else VInt <$> py_int (VStr (value token))
  | KEYWORD =>
      if bool_decide (str_upper (value token) = "NULL") then Ok VNone
      else if string_in (str_upper (value token)) ["TRUE"; "FALSE"]
      then Ok (VBool (bool_decide (str_upper (value token) = "TRUE")))
      else Ok (VStr (value token))
  | _ => Ok (VStr (value token))
  end.

(** *** SELECT *)

(** One round of the column loop of [_parse_select]. *)
Definition select_columns (columns : list string) (toks : list Token)
    : result (step (list string) (list string * list Token)) :=
  match toks with
  | [] => Ok (Break (columns, toks))
  | token :: rest =>
      let '(columns, toks) :=
        if bool_decide (value token = "*") then (columns ++ ["*"], rest)
        else if is_type IDENTIFIER token then
          let '(col_name, toks) :=
            if value_is "." rest then
              match _advance rest with
              | col_part :: rest' =>
                  if is_type IDENTIFIER col_part
                  then (value token +:+ "." +:+ value col_part, rest')
                  else (value token, _advance rest)
              | [] => (value token, _advance rest)
              end
            else (value token, rest) in
          (columns ++ [col_name], toks)
        else (columns, toks) in
      if value_is "," toks then Ok (Continue columns (_advance toks))
      else Ok (Break (columns, toks))
  end.

(** [join_type] is [None] when the clause starts with INNER, LEFT or
    RIGHT, which the caller has checked. *)
Definition _parse_join (join_type : option Executor.JoinType) (toks : list Token)
    : result (Executor.Join * list Token) :=
  let '(join_type, toks) :=
    match join_type with
    | Some ty => (ty, toks)
    | None =>
        (if upper_in ["INNER"] toks then Executor.INNER
         else if upper_in ["LEFT"] toks then Executor.LEFT
         else Executor.RIGHT,
         _advance toks)
    end in
  toks ← _expect "JOIN" KEYWORD toks;
  '(table, toks) ← identifier "Expected table name in JOIN" toks;
  toks ← _expect "ON" KEYWORD toks;
  '(left_tok, toks) ← identifier "Expected column name in JOIN condition" toks;
  '(left_value, toks) ← dotted left_tok toks;
  if negb (value_is "=" toks) then Err (ValueError "Expected = in JOIN condition")
  else
    let toks := _advance toks in
    '(right_tok, toks) ← identifier "Expected column name in JOIN condition" toks;
    '(right_value, toks) ← dotted right_tok toks;
    Ok (Executor.MkJoin join_type (value table) left_value right_value, toks).

Definition _parse_simple_condition (toks : list Token)
    : result (Executor.Condition * list Token) :=
  '(column, toks) ← identifier "Expected column name in WHERE clause" toks;
  '(column_value, toks) ← dotted column toks;
  match toks with
  | operator :: toks =>
      if negb (is_type OPERATOR operator)
      then Err (ValueError "Expected operator in WHERE clause")
      else
        match toks with
        | value_token :: toks =>
            value_data ← _parse_value value_token;
            Ok (Executor.COMPARISON column_value (value operator) value_data, toks)
        | [] => Err (ValueError "Expected value in WHERE clause")
        end
  | [] => Err (ValueError "Expected operator in WHERE clause")
  end.

(** One round of the AND/OR loop of [_parse_condition]. *)
Definition condition_step (left_cond : Executor.Condition) (toks : list Token)
    : result (step Executor.Condition (Executor.Condition * list Token)) :=
  match toks with
  | token :: rest =>
      if string_in (str_upper (value token)) ["AND"; "OR"] then
        '(right_cond, toks) ← _parse_simple_condition rest;
        Ok (Continue (Executor.LOGICAL (str_upper (value token)) left_cond right_cond)
                     toks)
      else Ok (Break (left_cond, toks))
  | [] => Ok (Break (left_cond, toks))
  end.

Definition _parse_condition (toks : list Token)
    : result (Executor.Condition * list Token) :=
  '(left_cond, toks) ← _parse_simple_condition toks;
  while_ condition_step left_cond toks.

Definition _parse_where (toks : list Token)
    : result (Executor.Condition * list Token) :=
  _parse_condition (_advance toks).

Definition _parse_order_by (toks : list Token)
    : result ((string * Executor.Direction) * list Token) :=
  toks ← _expect "ORDER" KEYWORD toks;
  toks ← _expect "BY" KEYWORD toks;
  '(column, toks) ← identifier "Expected column name in ORDER BY" toks;
  if upper_in ["ASC"; "DESC"] toks
  then Ok ((value column,
            if upper_in ["ASC"] toks then Executor.ASC else Executor.DESC),
           _advance toks)
  else Ok ((value column, Executor.ASC), toks).

Definition _parse_limit (toks : list Token) : result (Z * list Token) :=
  match _advance toks with
  | limit :: toks =>
      if negb (is_type NUMBER limit) then Err (ValueError "Expected number in LIMIT")
      else n ← py_int (VStr (value limit)); Ok (n, toks)
  | [] => Err (ValueError "Expected number in LIMIT")
  end.

(** One round of the loop over the optional clauses of a SELECT. *)
Definition select_clauses (parsed : Executor.Select) (toks : list Token)
    : result (step Executor.Select Executor.Select) :=
  let 'Executor.MkSelect columns table joins where_ order_by limit := parsed in
  if upper_in ["INNER"; "LEFT"; "RIGHT"] toks then
    '(join, toks) ← _parse_join None toks;
    Ok (Continue (Executor.MkSelect columns table (joins ++ [join]) where_ order_by limit)
                 toks)
  else if upper_in ["JOIN"] toks then
    '(join, toks) ← _parse_join (Some Executor.INNER) toks;
    Ok (Continue (Executor.MkSelect columns table (joins ++ [join]) where_ order_by limit)
                 toks)
  else if upper_in ["WHERE"] toks then
    '(cond, toks) ← _parse_where toks;
    Ok (Continue (Executor.MkSelect columns table joins (Some cond) order_by limit) toks)
  else if upper_in ["ORDER"] toks then
    '(order, toks) ← _parse_order_by toks;
    Ok (Continue (Executor.MkSelect columns table joins where_ (Some order) limit) toks)
  else if upper_in ["LIMIT"] toks then
    '(n, toks) ← _parse_limit toks;
    Ok (Continue (Executor.MkSelect columns table joins where_ order_by (Some n)) toks)
  else Ok (Break parsed).

Definition _parse_select (toks : list Token) : result Executor.Select :=
  let toks := _advance toks in
  '(columns, toks) ← while_ select_columns [] toks;
  toks ← _expect "FROM" KEYWORD toks;
  '(table_name, toks) ← identifier "Expected table name" toks;
  while_ select_clauses
    (Executor.MkSelect columns (value table_name) [] None None None) toks.

(** *** INSERT, UPDATE, DELETE *)

(** One round of the loop over the column list of an INSERT. *)
Definition insert_columns (columns : list string) (toks : list Token)
    : result (step (list string) (list string * list Token)) :=
  '(col, toks) ← identifier "Expected column name" toks;
  let columns := columns ++ [value col] in
  if value_is "," toks then Ok (Continue columns (_advance toks))
  else if value_is ")" toks then Ok (Break (columns, _advance toks))
  else Err (ValueError "Expected , or ) in column list").

(** One round of the loop over the VALUES of an INSERT. *)
Definition insert_values (values : list Value) (toks : list Token)
    : result (step (list Value) (list Value * list Token)) :=
  match toks with
  | val :: toks =>
      v ← _parse_value val;
      let values := values ++ [v] in
      if value_is "," toks then Ok (Continue values (_advance toks))
      else if value_is ")" toks then Ok (Break (values, _advance toks))
      else Err (ValueError "Expected , or ) in VALUES")
  | [] => Err (ValueError "Expected value")
  end.

Definition _parse_insert (toks : list Token) : result Statements.Insert :=
  let toks := _advance toks in
  toks ← _expect "INTO" KEYWORD toks;
  '(table, toks) ← identifier "Expected table name" toks;
  '(columns, toks) ←
    (if value_is "(" toks then
       '(columns, toks) ← while_ insert_columns [] (_advance toks);
       Ok (Some columns, toks)
     else Ok (None, toks));
  toks ← _expect "VALUES" KEYWORD toks;
  toks ← _expect "(" PUNCT toks;
  '(values, _) ← while_ insert_values [] toks;
  Ok (Statements.MkInsert (value table) columns values).

(** One round of the loop over the SET clause of an UPDATE. *)
Definition update_sets (updates : dict Value) (toks : list Token)
    : result (step (dict Value) (dict Value * list Token)) :=
  '(col, toks) ← identifier "Expected column name in SET" toks;
  toks ← _expect "=" OPERATOR toks;
  match toks with
  | val :: toks =>
      v ← _parse_value val;
      let updates := dict_set (value col) v updates in
      if value_is "," toks then Ok (Continue updates (_advance toks))
      else Ok (Break (updates, toks))
  | [] => Err (ValueError "Expected value in SET")
  end.

(** The optional WHERE clause that ends an UPDATE or a DELETE. *)
Definition optional_where (toks : list Token) : result (option Executor.Condition) :=
  if upper_in ["WHERE"] toks then
    '(cond, _) ← _parse_where toks; Ok (Some cond)
  else Ok None.

Definition _parse_update (toks : list Token) : result Statements.Update :=
  let toks := _advance toks in
  '(table, toks) ← identifier "Expected table name" toks;
  toks ← _expect "SET" KEYWORD toks;
  '(updates, toks) ← while_ update_sets [] toks;
  where_ ← optional_where toks;
  Ok (Statements.MkUpdate (value table) updates where_).

Definition _parse_delete (toks : list Token) : result Statements.Delete :=
  let toks := _advance toks in
  toks ← _expect "FROM" KEYWORD toks;
  '(table, toks) ← identifier "Expected table name" toks;
  where_ ← optional_where toks;
  Ok (Statements.MkDelete (value table) where_).

(** *** CREATE and DROP *)

(** The constraints read so far: [primary_key], [unique], [nullable],
    [default]. *)
Definition constraints : Type := bool * bool * bool * Value.

(** One round of the loop over the constraints of a column. *)
Definition column_constraints (c : constraints) (toks : list Token)
    : result (step constraints (constraints * list Token)) :=
  let '(primary_key, unique, nullable, default) := c in
  match toks with
  | token :: rest =>
      if negb (is_type KEYWORD token) then Ok (Break (c, toks))
      else
        let keyword := str_upper (value token) in
        if bool_decide (keyword = "PRIMARY") then
          toks ← _expect "KEY" KEYWORD rest;
          Ok (Continue (true, unique, nullable, default) toks)
        else if bool_decide (keyword = "UNIQUE") then
          Ok (Continue (primary_key, true, nullable, default) rest)
        else if bool_decide (keyword = "NOT") then
          toks ← _expect "NULL" KEYWORD rest;
          Ok (Continue (primary_key, unique, false, default) toks)
        else if bool_decide (keyword = "DEFAULT") then
          match rest with
          | default_token :: toks =>
              v ← _parse_value default_token;
              Ok (Continue (primary_key, unique, nullable, v) toks)
          | [] => Err (ValueError "Expected default value")
          end
        else Ok (Break (c, toks))
  | [] => Ok (Break (c, toks))
  end.

(** One round of the loop over the column definitions of a CREATE TABLE. *)
Definition column_definitions (columns : list Statements.ColumnDef) (toks : list Token)
    : result (step (list Statements.ColumnDef)
                (list Statements.ColumnDef * list Token)) :=
  '(col_name, toks) ← identifier "Expected column name" toks;
  match toks with
  | col_type :: toks =>
      if negb (is_type KEYWORD col_type) then Err (ValueError "Expected column type")
      else
        let type_name := str_upper (value col_type) in
        '(length, toks) ←
          (if value_is "(" toks then
             match _advance toks with
             | length_token :: toks =>
                 if negb (is_type NUMBER length_token)
                 then Err (ValueError "Expected number for type length")
                 else
                   n ← py_int (VStr (value length_token));
                   toks ← _expect ")" PUNCT toks;
                   Ok (Some n, toks)
             | [] => Err (ValueError "Expected number for type length")
             end
           else Ok (None, toks));
        '(primary_key, unique, nullable, default, toks) ←
          while_ column_constraints (false, false, true, VNone) toks;
        let columns :=
          columns ++ [Statements.MkColumnDef (value col_name) type_name length
                        primary_key unique nullable default] in
        if value_is "," toks then Ok (Continue columns (_advance toks))
        else if value_is ")" toks then Ok (Break (columns, _advance toks))
        else Err (ValueError "Expected , or ) in column definition")
  | [] => Err (ValueError "Expected column type")
  end.

Definition _parse_create_table (toks : list Token) : result Statements.CreateTable :=
  let toks := _advance toks in
  '(table, toks) ← identifier "Expected table name" toks;
  toks ← _expect "(" PUNCT toks;
  '(columns, _) ← while_ column_definitions [] toks;
  Ok (Statements.MkCreateTable (value table) columns).

Definition _parse_create_index (toks : list Token) : result Statements.CreateIndex :=
  let toks := _advance toks in
  '(index_name, toks) ← identifier "Expected index name" toks;
  toks ← _expect "ON" KEYWORD toks;
  '(table, toks) ← identifier "Expected table name" toks;
  toks ← _expect "(" PUNCT toks;
  '(column, toks) ← identifier "Expected column name" toks;
  _ ← _expect ")" PUNCT toks;
  Ok (Statements.MkCreateIndex (value index_name) (value table) (value column)).

Definition _parse_create (toks : list Token) : result Statements.Statement :=
  let toks := _advance toks in
  match toks with
  | token :: _ =>
      if bool_decide (str_upper (value token) = "TABLE")
      then Statements.CREATE_TABLE <$> _parse_create_table toks
      else if bool_decide (str_upper (value token) = "INDEX")
      then Statements.CREATE_INDEX <$> _parse_create_index toks
      else Err (ValueError ("Unexpected token after CREATE: " +:+ value token))
  | [] => Err (ValueError "Expected TABLE or INDEX")
  end.

Definition _parse_drop (toks : list Token) : result Statements.Statement :=
  let toks := _advance toks in
  toks ← _expect "TABLE" KEYWORD toks;
  '(table, _) ← identifier "Expected table name" toks;
  Ok (Statements.DROP_TABLE (value table)).

(** [parse] after the tokenizer has run. *)
Definition parse_tokens (toks : list Token) : result Statements.Statement :=
  match toks with
  | [] => Err (ValueError "Empty query")
  | first_token :: _ =>
      if negb (is_type KEYWORD first_token)
      then Err (ValueError ("Expected keyword, got " +:+ value first_token))
      else
        let keyword := str_upper (value first_token) in
        if bool_decide (keyword = "SELECT") then Statements.SELECT <$> _parse_select toks
        else if bool_decide (keyword = "INSERT")
        then Statements.INSERT <$> _parse_insert toks
        else if bool_decide (keyword = "UPDATE")
        then Statements.UPDATE <$> _parse_update toks
        else if bool_decide (keyword = "DELETE")
        then Statements.DELETE <$> _parse_delete toks
        else if bool_decide (keyword = "CREATE") then _parse_create toks
        else if bool_decide (keyword = "DROP") then _parse_drop toks
        else Err (ValueError ("Unsupported query type: " +:+ keyword))
  end.

(** [None]: the tokenizer ran out of fuel (it never does, see
    [TokenizerFacts.tokenize_loop_fuel]). *)
Definition parse (query : string) : option (result Statements.Statement) :=
  r ← tokenize query;
  Some (toks ← r; parse_tokens toks).

End WithBuiltins.
End SQLParser.

(** [QueryExecutor.execute]: parse, then run the statement. *)
Definition execute `{PyBuiltins} (self : Storage.t) (query : string) (now : string)
    : option (Storage.t * result Executor.QueryResult) :=
  r ← SQLParser.parse query;
  Some match r with
       | Ok parsed => Statements.run self parsed now
       | Err e => (self, Err e)
       end.

(** ** Chains of conditions

    A WHERE clause as the parser reads it: a first comparison followed by
    links, each an AND or OR keyword with the tokens of one comparison and
    the condition they stand for. *)

Module ConditionChain.

Definition link : Type := string * list Tokenizer.Token * Executor.Condition.

Definition tokens_of (chain : list link) : list Tokenizer.Token :=
  concat (map (fun l : link => Tokenizer.MkToken Tokenizer.KEYWORD l.1.1 :: l.1.2) chain).

(** [((c0 op1 c1) op2 c2) ...] *)
Definition left_assoc (first : Executor.Condition) (chain : list link)
    : Executor.Condition :=
  foldl (fun acc (l : link) => Executor.LOGICAL l.1.1 acc l.2) first chain.

End ConditionChain.

(** ** What a parsing step leaves and raises *)

Module ParserInv.

(** The tokens left after a successful step are no more ([within]) or
    fewer ([inside]) than the tokens before it. *)
Definition within {A} (toks : list Tokenizer.Token)
    (r : result (A * list Tokenizer.Token)) : Prop :=
  forall a toks', r = Ok (a, toks') -> (length toks' <= length toks)%nat.
Definition inside {A} (toks : list Tokenizer.Token)
    (r : result (A * list Tokenizer.Token)) : Prop :=
  forall a toks', r = Ok (a, toks') -> (length toks' < length toks)%nat.

Definition value_error (e : PyError) : Prop := exists m, e = ValueError m.

End ParserInv.

(** * Properties *)

#[local] Existing Instance SampleBuiltins.builtins.

(** ** Column validation *)

(** C4: [Column.validate] on a NULL value returns the cannot-be-NULL error
    exactly when the column is non-nullable and not a primary key; in every
    other case it accepts the value, so a primary-key column accepts NULL
    even when it is declared NOT NULL. *)
Theorem validate_null_exempts_primary_key `{PyBuiltins} (c : Column.t) :
  let rejected := Column.validate c VNone = Ok (false, Some (Column.null_error c)) in
  let accepted := Column.validate c VNone = Ok (true, None) in
  (rejected <-> Column.nullable c = false /\ Column.primary_key c = false) /\
  (accepted <-> ~ rejected) /\
  (Column.primary_key c = true -> accepted).
Proof.
  unfold Column.validate.
  destruct (Column.nullable c), (Column.primary_key c); simpl;
    intuition congruence.
Qed.

Lemma validate_null_exempts_primary_key_witness :
  let c := Column.Make "id" INT None false true false VNone in
  Column.primary_key c = true /\
  Column.nullable c = false /\
  @Column.validate SampleBuiltins.builtins c VNone = Ok (true, None).
Proof.
  intros c. split; [reflexivity | split; [reflexivity |]].
  apply (@validate_null_exempts_primary_key SampleBuiltins.builtins c).
  reflexivity.
Defined.

(** ** The tokenizer on unterminated strings *)

Module TokenizerFacts.
Import Tokenizer.

Lemma count_while_first (p : ascii -> bool) (q : list ascii) (i : nat) (c : ascii) :
  q !! i = Some c -> p c = true -> (1 <= count_while p (drop i q))%nat.
Proof.
  intros Hc Hp. rewrite (drop_S _ _ _ Hc). cbn [count_while]. rewrite Hp. lia.
Qed.

Lemma scan_while_query (p : ascii -> bool) (st : state) :
  query (scan_while p st) = query st /\ (pos st <= pos (scan_while p st))%nat /\
  tokens (scan_while p st) = tokens st.
Proof. unfold scan_while, set_pos. cbn. repeat split. lia. Qed.

(** An iteration keeps the query and moves [pos] forward. *)
Lemma body_advances (st st' : state) :
  (pos st < length (query st))%nat ->
  body st = Ok st' ->
  query st' = query st /\ (pos st < pos st')%nat.
Proof.
  intros Hlt. unfold body.
  destruct (scan_while_query isspace st) as (Hq & Hp & _).
  fold (_skip_whitespace st) in Hq, Hp.
  revert Hq Hp. generalize (_skip_whitespace st). intros st1 Hq Hp.
  destruct (query st1 !! pos st1) as [char|] eqn:Hchar.
  2:{ intros [= <-]. split; [exact Hq|].
      apply lookup_ge_None in Hchar. rewrite Hq in Hchar. lia. }
  destruct (is_char "-" char && _) eqn:Hcomment.
  { intros [= <-]. unfold _skip_comment.
    apply andb_true_iff in Hcomment as [Hdash _].
    apply bool_decide_eq_true in Hdash. subst char.
    pose proof (count_while_first (fun c => negb (is_char "010" c)) _ _ _ Hchar eq_refl).
    unfold scan_while, set_pos. cbn. split; [exact Hq|lia]. }
  destruct (is_quote char).
  { intros [= <-]. unfold push, _read_string, append, set_pos. cbn.
    split; [exact Hq|lia]. }
  destruct (isdigit char || _) eqn:Hnum.
  { intros [= <-]. unfold push, _read_number, append. cbn [fst snd query pos].
    destruct (bool_decide (query st1 !! pos st1 = Some "-"%char)) eqn:Hminus.
    - unfold scan_while, set_pos. cbn. split; [exact Hq|lia].
    - assert (Hd : isdigit char = true).
      { apply orb_true_iff in Hnum as [Hd|Hd]; [exact Hd|].
        apply andb_true_iff in Hd as [Hd _].
        apply bool_decide_eq_true in Hd. subst char.
        rewrite Hchar in Hminus. discriminate. }
      pose proof (count_while_first (fun c => isdigit c || is_char "." c) _ _ _ Hchar) as Hc.
      cbn beta in Hc. rewrite Hd in Hc. specialize (Hc eq_refl).
      unfold scan_while, set_pos. cbn. split; [exact Hq|lia]. }
  destruct (isalpha char || is_char "_" char) eqn:Hid.
  { intros [= <-]. unfold push, _read_identifier.
    pose proof (count_while_first (fun c => isalnum c || is_char "_" c) _ _ _ Hchar) as Hc.
    assert (Hal : isalnum char || is_char "_" char = true).
    { unfold isalnum. apply orb_true_iff in Hid as [->| ->]; [reflexivity|].
      apply orb_true_r. }
    specialize (Hc Hal).
    destruct (string_in _ _); unfold append, scan_while, set_pos; cbn;
      (split; [exact Hq|lia]). }
  destruct (char_in char _); [|discriminate].
  intros [= <-]. unfold push, _read_operator. cbn [pos query set_pos].
  destruct (query st1 !! (pos st1 + 1)%nat) as [c2|];
    [destruct (string_in _ _)|]; unfold append, set_pos; cbn;
    (split; [exact Hq|lia]).
Qed.

Lemma tokenize_loop_mono (f f' : nat) (st : state) (r : result state) :
  (f <= f')%nat -> tokenize_loop f st = Some r -> tokenize_loop f' st = Some r.
Proof.
  revert f' st. induction f as [|f IH]; intros f' st Hle; [discriminate|].
  destruct f' as [|f']; [lia|]. cbn [tokenize_loop].
  destruct (_ <? _)%nat; [|auto].
  destruct (body st) as [st'|e]; [|auto]. apply IH. lia.
Qed.

(** Fuel beyond the characters left is never used up. *)
Lemma tokenize_loop_fuel (f : nat) (st : state) :
  (length (query st) - pos st < f)%nat -> is_Some (tokenize_loop f st).
Proof.
  revert st. induction f as [|f IH]; intros st Hf; [lia|].
  cbn [tokenize_loop].
  destruct (Nat.ltb_spec (pos st) (length (query st))) as [Hlt|]; [|eauto].
  destruct (body st) as [st'|e] eqn:Hbody; [|eauto].
  destruct (body_advances st st' Hlt Hbody) as [Hq Hp].
  apply IH. rewrite Hq. lia.
Qed.

Lemma at_loop_head_query (q : string) (st : state) :
  at_loop_head q st -> query st = list_ascii_of_string q.
Proof.
  induction 1 as [|st st' _ IH Hlt Hbody]; [reflexivity|].
  destruct (body_advances st st' Hlt Hbody) as [-> _]. exact IH.
Qed.

Lemma length_list_ascii (q : string) :
  length (list_ascii_of_string q) = String.length q.
Proof. induction q as [|c q IH]; cbn; [reflexivity|]. rewrite IH. reflexivity. Qed.

(** What the loop returns from a state it passes through is what
    [tokenize] returns. *)
Lemma tokenize_from_head (q : string) (st : state) (f : nat) (r : result state) :
  at_loop_head q st ->
  tokenize_loop f st = Some r ->
  tokenize_loop (S (String.length q)) (init q) = Some r.
Proof.
  intros Hhead. revert f r.
  induction Hhead as [|st st' _ IH Hlt Hbody]; intros f r Hr.
  - destruct (tokenize_loop_fuel (S (String.length q)) (init q)) as [r' Hr'].
    { cbn. rewrite length_list_ascii. lia. }
    rewrite Hr'. f_equal.
    apply (tokenize_loop_mono _ (f + S (String.length q))) in Hr; [|lia].
    apply (tokenize_loop_mono _ (f + S (String.length q))) in Hr'; [|lia].
    congruence.
  - apply (IH (S f)). cbn [tokenize_loop].
    apply Nat.ltb_lt in Hlt. rewrite Hlt, Hbody. exact Hr.
Qed.

(** Without a closing quote the scan runs to the end of the text (one
    position further when the text ends in a lone backslash). *)
Lemma scan_string_unterminated (quote : ascii) (rest : list ascii) :
  Spec.unterminated quote rest = true ->
  (length rest <= scan_string quote rest)%nat.
Proof.
  assert (Hle : (length rest <= length rest)%nat) by lia. revert Hle.
  generalize (length rest) at 2. intros n.
  revert rest. induction n as [|n IH]; intros rest Hle.
  - destruct rest as [|a rest]; [intros _; cbn; lia|].
    exfalso. cbn [length] in Hle. lia.
  - destruct rest as [|c rest']; [cbn; intros; lia|].
    cbn [Spec.unterminated scan_string]. unfold is_char.
    destruct (bool_decide (c = quote)); [discriminate|].
    destruct (bool_decide (c = "\"%char)).
    + destruct rest' as [|c' rest'']; [cbn; intros; lia|].
      intros Hu. cbn [length] in *.
      specialize (IH rest'' ltac:(lia) Hu). lia.
    + intros Hu. cbn [length] in *.
      specialize (IH rest' ltac:(lia) Hu). lia.
Qed.

End TokenizerFacts.

(** C10: when the tokenizer reaches (after whitespace) a quote character
    whose string has no closing quote before the end of the query, it does
    not fail: it returns the tokens read so far followed by one STRING
    token holding all the text after the opening quote. *)
Theorem tokenize_unterminated_string (q : string) (st : Tokenizer.state)
    (pre rest : list ascii) (quote : ascii) :
  Tokenizer.at_loop_head q st ->
  list_ascii_of_string q = pre ++ quote :: rest ->
  Tokenizer.pos (Tokenizer._skip_whitespace st) = length pre ->
  Tokenizer.is_quote quote = true ->
  Spec.unterminated quote rest = true ->
  Tokenizer.tokenize q =
    Some (Ok (Tokenizer.tokens st ++
              [Tokenizer.MkToken Tokenizer.STRING (string_of_list_ascii rest)])).
Proof.
  intros Hhead Hq Hpos Hquote Hrest.
  set (final := Tokenizer.MkState (Tokenizer.query st)
          (length pre + 1 + Tokenizer.scan_string quote rest + 1)
          (Tokenizer.tokens st ++
           [Tokenizer.MkToken Tokenizer.STRING (string_of_list_ascii rest)])).
  pose proof (TokenizerFacts.at_loop_head_query q st Hhead) as Hquery.
  destruct (TokenizerFacts.scan_while_query Tokenizer.isspace st) as (Hq1 & Hp1 & Ht1).
  fold (Tokenizer._skip_whitespace st) in Hq1, Hp1, Ht1.
  pose proof (TokenizerFacts.scan_string_unterminated quote rest Hrest) as Hscan.
  assert (Hchar : Tokenizer.query (Tokenizer._skip_whitespace st)
                    !! Tokenizer.pos (Tokenizer._skip_whitespace st) = Some quote).
  { rewrite Hq1, Hquery, Hq, Hpos. apply list_lookup_middle. reflexivity. }
  assert (Hdrop : drop (length pre + 1) (pre ++ quote :: rest) = rest).
  { rewrite <- drop_drop, drop_app_length. reflexivity. }
  assert (Hlen : length (Tokenizer.query st) = (length pre + 1 + length rest)%nat).
  { rewrite Hquery, Hq, length_app. cbn [length]. lia. }
  assert (Hlt : (Tokenizer.pos st < length (Tokenizer.query st))%nat) by lia.
  assert (Hbody : Tokenizer.body st = Ok final).
  { unfold final, Tokenizer.body. rewrite Hchar.
    assert (Hdash : Tokenizer.is_char "-" quote = false).
    { revert Hquote. unfold Tokenizer.is_quote, Tokenizer.is_char.
      destruct (bool_decide_reflect (quote = Tokenizer.squote)) as [->|_];
        [reflexivity|].
      destruct (bool_decide_reflect (quote = Tokenizer.dquote)) as [->|_];
        [reflexivity|discriminate]. }
    rewrite Hdash, Hquote. cbn [andb]. f_equal.
    unfold Tokenizer.push, Tokenizer._read_string, Tokenizer.append, Tokenizer.set_pos.
    cbn [fst snd Tokenizer.query Tokenizer.pos Tokenizer.tokens].
    rewrite Hq1, Ht1, Hpos, Hquery, Hq, Hdrop.
    unfold Tokenizer.slice. rewrite Hdrop, take_ge by lia. reflexivity. }
  unfold Tokenizer.tokenize.
  rewrite (TokenizerFacts.tokenize_from_head q st 2 (Ok final) Hhead); [reflexivity|].
  cbn [Tokenizer.tokenize_loop].
  rewrite (proj2 (Nat.ltb_lt _ _) Hlt), Hbody.
  unfold final at 1 2. cbn [Tokenizer.pos Tokenizer.query].
  destruct (Nat.ltb_spec (length pre + 1 + Tokenizer.scan_string quote rest + 1)
              (length (Tokenizer.query st))); [lia|reflexivity].
Qed.

Lemma tokenize_unterminated_string_witness :
  Tokenizer.tokenize "SELECT 'abc"
  = Some (Ok [Tokenizer.MkToken Tokenizer.KEYWORD "SELECT";
              Tokenizer.MkToken Tokenizer.STRING "abc"]).
Proof.
  pose (st := Tokenizer.MkState (list_ascii_of_string "SELECT 'abc") 6
                [Tokenizer.MkToken Tokenizer.KEYWORD "SELECT"]).
  assert (Hhead : Tokenizer.at_loop_head "SELECT 'abc" st).
  { apply (Tokenizer.head_next _ (Tokenizer.init "SELECT 'abc"));
      [apply Tokenizer.head_init | vm_compute; lia | vm_compute; reflexivity]. }
  exact (tokenize_unterminated_string "SELECT 'abc" st
           (list_ascii_of_string "SELECT ") (list_ascii_of_string "abc")
           Tokenizer.squote Hhead eq_refl eq_refl eq_refl eq_refl).
Defined.

(** ** The B-tree operations return *)

Module BTreeFacts.
Import BTreeNode BTreeInv.

Lemma slice_from_nonneg {A} (l : list A) (i : Z) :
  0 <= i -> slice_from l i = drop (Z.to_nat i) l.
Proof.
  intros Hi. unfold slice_from, slice_bound, norm_index.
  destruct (Z.ltb_spec i 0); [lia|].
  destruct (Z.le_gt_cases i (Z.of_nat (length l))).
  - f_equal. lia.
  - rewrite !drop_ge by lia. reflexivity.
Qed.

Lemma slice_to_nonneg {A} (l : list A) (i : Z) :
  0 <= i -> slice_to l i = take (Z.to_nat i) l.
Proof.
  intros Hi. unfold slice_to, slice_bound, norm_index.
  destruct (Z.ltb_spec i 0); [lia|].
  destruct (Z.le_gt_cases i (Z.of_nat (length l))).
  - f_equal. lia.
  - rewrite !take_ge by lia. reflexivity.
Qed.

Lemma py_index_lookup {A} (l : list A) (i : nat) (x : A) :
  l !! i = Some x -> py_index l i = Ok x.
Proof. unfold py_index. intros ->. reflexivity. Qed.

Lemma height_child (leaf : bool) (es : list (Value * Z)) (cs : list BTreeNode.t)
    (ord : Z) (c : BTreeNode.t) :
  c ∈ cs -> (S (height c) <= height (Node leaf es cs ord))%nat.
Proof.
  intros Hc. cbn [height].
  assert (Hf : Forall (fun k => (k <= list_max (map (fun c => S (height c)) cs))%nat)
                 (map (fun c => S (height c)) cs)).
  { apply list_max_le. lia. }
  rewrite Forall_forall in Hf. apply Hf.
  apply (list_elem_of_fmap_2 (fun c => S (height c))). exact Hc.
Qed.

Lemma height_subset (l l' : bool) (es es' : list (Value * Z))
    (cs cs' : list BTreeNode.t) (o o' : Z) :
  (forall c, c ∈ cs' -> c ∈ cs) ->
  (height (Node l' es' cs' o') <= height (Node l es cs o))%nat.
Proof.
  intros Hsub. cbn [height]. apply list_max_le. apply Forall_forall.
  intros k Hk. apply list_elem_of_fmap in Hk as (c & -> & Hc).
  apply (height_child l es cs o), Hsub, Hc.
Qed.

Section Total.
Context (P : Value -> Prop) (HP : ordered_class P).

Lemma cmp_ok (f : comparison -> bool) (a b : Value) :
  P a -> P b -> exists c, py_cmp_with f a b = Ok c.
Proof.
  intros Ha Hb. unfold py_cmp_with.
  destruct (HP a b Ha Hb) as [c ->]. eauto.
Qed.

Lemma py_lt_ok (a b : Value) : P a -> P b -> exists c, py_lt a b = Ok c.
Proof. apply cmp_ok. Qed.

Lemma py_gt_ok (a b : Value) : P a -> P b -> exists c, py_gt a b = Ok c.
Proof. apply cmp_ok. Qed.

Lemma count_greater_ok (key : Value) (ks : list Value) :
  P key -> Forall P ks ->
  exists n, BTreeIndex.count_greater key ks = Ok n /\ (n <= length ks)%nat.
Proof.
  intros Hkey. induction 1 as [|k ks Hk _ IH]; cbn [BTreeIndex.count_greater].
  - exists O. split; [reflexivity|cbn; lia].
  - destruct (py_lt_ok key k Hkey Hk) as [b ->]. cbn [mbind result_bind].
    destruct b.
    + destruct IH as (n & -> & Hn). exists (S n). split; [reflexivity|cbn; lia].
    + exists O. split; [reflexivity|cbn; lia].
Qed.

Lemma Forall_list_insert_at {A} (Q : A -> Prop) (i : nat) (x : A) (l : list A) :
  Q x -> Forall Q l -> Forall Q (list_insert_at i x l).
Proof.
  intros Hx Hl. unfold list_insert_at.
  apply Forall_app. split; [apply Forall_take, Hl|].
  constructor; [exact Hx|apply Forall_drop, Hl].
Qed.

Lemma length_list_insert_at {A} (i : nat) (x : A) (l : list A) :
  length (list_insert_at i x l) = S (length l).
Proof.
  unfold list_insert_at. rewrite length_app. cbn [length].
  rewrite length_take, length_drop. lia.
Qed.

Lemma Forall_list_del {A} (Q : A -> Prop) (i : nat) (l : list A) :
  Forall Q l -> Forall Q (list_del i l).
Proof.
  intros Hl. unfold list_del. apply Forall_app.
  split; [apply Forall_take, Hl|apply Forall_drop, Hl].
Qed.

Lemma length_list_del {A} (i : nat) (l : list A) :
  (i < length l)%nat -> S (length (list_del i l)) = length l.
Proof.
  intros Hi. unfold list_del. rewrite length_app, length_take, length_drop. lia.
Qed.

Lemma rev_keys_P (es : list (Value * Z)) :
  Forall (fun e => P e.1) es -> Forall P (rev es.*1).
Proof.
  intros Hes. apply Forall_forall. intros k Hk.
  apply list_elem_of_In, in_rev, list_elem_of_In in Hk.
  apply list_elem_of_fmap in Hk as (e & -> & He).
  rewrite Forall_forall in Hes. exact (Hes e He).
Qed.

Lemma wf_inv (ord : Z) (leaf : bool) (es : list (Value * Z))
    (cs : list BTreeNode.t) (o : Z) :
  wf P ord (Node leaf es cs o) ->
  o = ord /\ Forall (fun e => P e.1) es /\
  (leaf = false -> length cs = S (length es)) /\ Forall (wf P ord) cs.
Proof. inversion 1; subst; auto. Qed.

Lemma lookup_list_insert_at_lt {A} (i j : nat) (x : A) (l : list A) :
  (j < i)%nat -> (i <= length l)%nat -> list_insert_at i x l !! j = l !! j.
Proof.
  intros Hj Hi. unfold list_insert_at.
  rewrite lookup_app_l by (rewrite length_take; lia).
  apply lookup_take_lt. exact Hj.
Qed.

Lemma lookup_list_insert_at {A} (i : nat) (x : A) (l : list A) :
  (i <= length l)%nat -> list_insert_at i x l !! i = Some x.
Proof.
  intros Hi. unfold list_insert_at.
  rewrite lookup_app_r by (rewrite length_take; lia).
  rewrite length_take. replace (i - i `min` length l)%nat with O by lia. reflexivity.
Qed.

Lemma elem_of_take_1 {A} (x : A) (n : nat) (l : list A) : x ∈ take n l -> x ∈ l.
Proof. intros (i & Hi & _)%elem_of_take. eapply list_elem_of_lookup_2, Hi. Qed.

Lemma elem_of_drop_1 {A} (x : A) (n : nat) (l : list A) : x ∈ drop n l -> x ∈ l.
Proof.
  intros (i & Hi)%list_elem_of_lookup_1. rewrite lookup_drop in Hi.
  eapply list_elem_of_lookup_2, Hi.
Qed.

Lemma split_child_ok (ord : Z) (parent : BTreeNode.t) (i : nat) (child : BTreeNode.t) :
  2 <= ord ->
  wf P ord parent ->
  is_leaf parent = false ->
  children parent !! i = Some child ->
  is_full child = true ->
  exists parent' left right m,
    BTreeIndex._split_child ord parent i = Ok parent' /\
    wf P ord parent' /\
    is_leaf parent' = false /\
    entries parent' = list_insert_at i m (entries parent) /\
    children parent' = list_insert_at (i + 1) right (<[i := left]> (children parent)) /\
    (height left <= height child)%nat /\ (height right <= height child)%nat.
Proof.
  intros Hord Hwf Hleaf Hchild Hfull.
  destruct parent as [pl pes pcs po]. cbn in Hleaf, Hchild. subst pl.
  apply wf_inv in Hwf as (-> & Hpes & Hpcs & Hwcs).
  specialize (Hpcs eq_refl).
  pose proof (Forall_lookup_1 _ _ _ _ Hwcs Hchild) as Hwc.
  destruct child as [cl ces ccs co].
  apply wf_inv in Hwc as (-> & Hces & Hccs & Hwccs).
  unfold is_full, keys in Hfull. cbn [order entries] in Hfull.
  rewrite length_fmap in Hfull. apply Z.leb_le in Hfull.
  set (mid := Z.to_nat (ord - 1)).
  assert (Hmid : Z.of_nat mid = ord - 1) by lia.
  assert (Hlen : (2 * mid + 1 <= length ces)%nat) by lia.
  destruct (lookup_lt_is_Some_2 (drop (S mid) ces) 0) as [m Hm].
  { rewrite length_drop. lia. }
  exists (Node false (list_insert_at i m pes)
            (list_insert_at (i + 1)
               (Node cl (drop (S mid) ces) (if negb cl then drop (S mid) ccs else []) ord)
               (<[i := Node cl (take mid ces)
                         (if negb cl then take (S mid) ccs else ccs) ord]> pcs))
            ord).
  eexists _, _, m.
  assert (Hi : (i < length pcs)%nat) by (eapply lookup_lt_Some; exact Hchild).
  split.
  { unfold BTreeIndex._split_child. cbn [children entries is_leaf order].
    rewrite (py_index_lookup _ _ _ Hchild). cbn [mbind result_bind].
    cbn [children entries is_leaf order].
    rewrite !slice_from_nonneg, !slice_to_nonneg by lia.
    replace (Z.to_nat (ord - 1 + 1)) with (S mid) by lia.
    fold mid. rewrite length_take.
    destruct (Z.ltb_spec (ord - 1) (Z.of_nat (mid `min` length ces))); [lia|].
    unfold py_getitem, norm_index. cbn [Z.ltb Z.compare]. change (Z.to_nat 0) with O.
    rewrite (py_index_lookup _ _ _ Hm). cbn [mbind result_bind].
    reflexivity. }
  assert (Hm_in : m ∈ ces).
  { apply list_elem_of_lookup_2 in Hm. eapply elem_of_drop_1. exact Hm. }
  split.
  { constructor.
    - apply Forall_list_insert_at; [|exact Hpes].
      rewrite Forall_forall in Hces. apply Hces, Hm_in.
    - intros _. rewrite !length_list_insert_at, length_insert. lia.
    - apply Forall_list_insert_at.
      + constructor.
        * apply Forall_drop, Hces.
        * intros ->. cbn [negb]. rewrite length_drop, (Hccs eq_refl), length_drop. lia.
        * destruct cl; cbn [negb]; [constructor|apply Forall_drop, Hwccs].
      + apply Forall_insert; [exact Hwcs|].
        constructor.
        * apply Forall_take, Hces.
        * intros ->. cbn [negb]. rewrite !length_take, (Hccs eq_refl). lia.
        * destruct cl; cbn [negb]; [exact Hwccs|apply Forall_take, Hwccs]. }
  split; [reflexivity|]. split; [reflexivity|]. split; [reflexivity|].
  split; apply height_subset; intros c; destruct cl; cbn [negb];
    try (intros Hc; exact Hc).
  - apply elem_of_take_1.
  - intros Hc. inversion Hc.
  - apply elem_of_drop_1.
Qed.

Lemma insert_non_full_eq (fuel : nat) (ord : Z) (node : BTreeNode.t)
    (key : Value) (row_index : Z) :
  BTreeIndex._insert_non_full fuel ord node key row_index =
  if is_leaf node then
    es ← BTreeIndex.leaf_insert (entries node) key row_index;
    Ok (Node true es (children node) (order node))
  else
    n ← BTreeIndex.count_greater key (rev (keys node));
    let i := (length (keys node) - n)%nat in
    child ← py_index (children node) i;
    '(node, i) ← (if is_full child then
                    node' ← BTreeIndex._split_child ord node i;
                    k ← py_index (keys node') i;
                    b ← py_gt key k;
                    Ok (node', if (b : bool) then (i + 1)%nat else i)
                  else Ok (node, i));
    child ← py_index (children node) i;
    match fuel with
    | O => Err RecursionError
    | S fuel' =>
        child' ← BTreeIndex._insert_non_full fuel' ord child key row_index;
        Ok (set_children node (<[i := child']> (children node)))
    end.
Proof. destruct fuel; reflexivity. Qed.

(** With fuel for every level below the node, the insertion returns a
    well-formed node. *)
Lemma insert_non_full_ok (ord : Z) (key : Value) (row_index : Z) (fuel : nat) :
  2 <= ord -> P key ->
  forall node,
    wf P ord node -> (height node <= fuel)%nat ->
    exists node',
      BTreeIndex._insert_non_full fuel ord node key row_index = Ok node' /\
      wf P ord node'.
Proof.
  intros Hord Hkey. induction fuel as [|fuel IH]; intros node Hwf Hh;
    rewrite insert_non_full_eq.
  all: destruct node as [leaf es cs o]; cbn [is_leaf entries children order keys].
  all: pose proof Hwf as (-> & Hes & Hcs & Hwcs)%wf_inv.
  all: destruct leaf.
  1, 3:
    unfold BTreeIndex.leaf_insert;
    destruct (count_greater_ok key (rev es.*1) Hkey (rev_keys_P es Hes)) as (n & -> & _);
    cbn [mbind result_bind]; eexists; split; [reflexivity|];
    constructor; [apply Forall_list_insert_at; assumption|discriminate|assumption].
  all: specialize (Hcs eq_refl).
  all: unfold keys; cbn [entries].
  all: destruct (count_greater_ok key (rev es.*1) Hkey (rev_keys_P es Hes)) as (n & -> & Hn).
  all: cbn [mbind result_bind]; cbv zeta.
  all: rewrite length_rev, length_fmap in Hn; rewrite length_fmap.
  all: destruct (lookup_lt_is_Some_2 cs (length es - n)) as [child Hchild]; [lia|].
  all: pose proof (height_child false es cs ord child
                     (list_elem_of_lookup_2 _ _ _ Hchild)) as Hhc.
  - lia.
  - rewrite (py_index_lookup _ _ _ Hchild). cbn [mbind result_bind].
    assert (Hrec : forall node1 i1 c1,
      wf P ord node1 -> is_leaf node1 = false ->
      children node1 !! i1 = Some c1 -> (height c1 <= fuel)%nat ->
      exists node',
        (child0 ← py_index (children node1) i1;
         child' ← BTreeIndex._insert_non_full fuel ord child0 key row_index;
         Ok (set_children node1 (<[i1 := child']> (children node1)))) = Ok node' /\
        wf P ord node').
    { intros node1 i1 c1 Hw1 Hl1 Hc1 Hh1.
      rewrite (py_index_lookup _ _ _ Hc1). cbn [mbind result_bind].
      destruct node1 as [l1 es1 cs1 o1]. cbn in Hl1, Hc1. subst l1.
      apply wf_inv in Hw1 as (-> & Hes1 & Hcs1 & Hwcs1).
      destruct (IH c1 (Forall_lookup_1 _ _ _ _ Hwcs1 Hc1) Hh1) as (c' & -> & Hwc').
      cbn [mbind result_bind]. eexists. split; [reflexivity|].
      unfold set_children. cbn [is_leaf entries children order].
      constructor; [exact Hes1| |apply Forall_insert; assumption].
      intros _. rewrite length_insert. auto. }
    destruct (is_full child) eqn:Hfull.
    + destruct (split_child_ok ord (Node false es cs ord) _ child Hord Hwf eq_refl
                  Hchild Hfull)
        as (node' & left & right & m & -> & Hw' & Hl' & Hes' & Hcs' & Hhl & Hhr).
      cbn [mbind result_bind]. rewrite Hes'.
      cbn [entries children] in Hes', Hcs' |- *.
      assert (Hmk : (list_insert_at (length es - n) m es).*1 !! (length es - n)%nat
                    = Some m.1).
      { rewrite list_lookup_fmap, lookup_list_insert_at by lia. reflexivity. }
      rewrite (py_index_lookup _ _ _ Hmk). cbn [mbind result_bind].
      assert (Pm : P m.1).
      { destruct node' as [l' es' cs' o']. cbn in Hes'. subst es'.
        apply wf_inv in Hw' as (_ & Hes'' & _).
        rewrite Forall_forall in Hes''. apply Hes''.
        eapply list_elem_of_lookup_2. apply lookup_list_insert_at. lia. }
      destruct (py_gt_ok key m.1 Hkey Pm) as [b ->]. cbn [mbind result_bind].
      assert (Hli : (length es - n < length cs)%nat) by lia.
      destruct b.
      * apply (Hrec node' _ right Hw' Hl'); [|lia].
        rewrite Hcs'. apply lookup_list_insert_at. rewrite length_insert. lia.
      * apply (Hrec node' _ left Hw' Hl'); [|lia].
        rewrite Hcs', lookup_list_insert_at_lt by (rewrite ?length_insert; lia).
        apply list_lookup_insert_eq. exact Hli.
    + cbn [mbind result_bind].
      apply (Hrec (Node false es cs ord) _ child Hwf eq_refl Hchild). lia.
Qed.

Lemma insert_ok (index : BTreeIndex.t) (key : Value) (row_index : Z) :
  wf_index P index -> P key ->
  exists index',
    BTreeIndex.insert index key row_index = Ok index' /\
    wf_index P index'.
Proof.
  intros [Hord Hwf] Hkey. unfold BTreeIndex.insert.
  assert (Hroot : exists root',
    (if is_full (BTreeIndex.root index)
     then BTreeIndex._split_child (BTreeIndex.order index)
            (Node false [] [BTreeIndex.root index] (BTreeIndex.order index)) 0
     else Ok (BTreeIndex.root index)) = Ok root' /\
    wf P (BTreeIndex.order index) root').
  { destruct (is_full (BTreeIndex.root index)) eqn:Hfull; [|eauto].
    destruct (split_child_ok (BTreeIndex.order index)
                (Node false [] [BTreeIndex.root index] (BTreeIndex.order index))
                0 (BTreeIndex.root index) Hord)
      as (root' & _ & _ & _ & -> & Hw' & _); eauto.
    constructor; [constructor|reflexivity|repeat constructor; exact Hwf]. }
  destruct Hroot as (root' & -> & Hw'). cbn [mbind result_bind].
  destruct (insert_non_full_ok (BTreeIndex.order index) key row_index (height root')
              Hord Hkey root' Hw' ltac:(lia)) as (root'' & -> & Hw'').
  cbn [mbind result_bind]. eexists. split; [reflexivity|].
  split; assumption.
Qed.

Lemma keys_index_lt (key : Value) (ks : list Value) (i : nat) :
  BTreeIndex.keys_index key ks = Some i -> (i < length ks)%nat.
Proof.
  revert i. induction ks as [|k ks IH]; intros i; cbn [BTreeIndex.keys_index];
    [discriminate|].
  destruct (py_eq k key); [intros [= <-]; cbn; lia|].
  destruct (BTreeIndex.keys_index key ks) as [j|]; [|discriminate].
  intros [= <-]. specialize (IH j eq_refl). cbn. lia.
Qed.

(** The excision keeps the shape: it removes an entry together with one
    child. *)
Lemma delete_from_node_wf (ord : Z) (key : Value) (row_index : Z) (node : BTreeNode.t) :
  forall node',
    wf P ord node ->
    BTreeIndex._delete_from_node node key row_index = Some node' ->
    wf P ord node'.
Proof.
  induction node as [leaf es cs o IH] using node_ind. intros node' Hwf.
  apply wf_inv in Hwf as (-> & Hes & Hcs & Hwcs).
  cbn [BTreeIndex._delete_from_node].
  destruct (BTreeIndex.keys_index key es.*1 ≫= _) as [here|] eqn:Hhere.
  - intros [= <-].
    destruct (BTreeIndex.keys_index key es.*1) as [i|] eqn:Hi; [|discriminate].
    cbn [mbind option_bind] in Hhere.
    destruct (es.*2 !! i) as [v|]; [|discriminate]. cbn [mbind option_bind] in Hhere.
    destruct (bool_decide (v = row_index)); [|discriminate].
    injection Hhere as <-.
    apply keys_index_lt in Hi. rewrite length_fmap in Hi.
    constructor.
    + apply Forall_list_del, Hes.
    + intros ->. cbn [negb andb]. specialize (Hcs eq_refl).
      destruct (Nat.ltb_spec i (length cs)); [|lia].
      pose proof (length_list_del i cs). pose proof (length_list_del i es). lia.
    + destruct (negb leaf && _); [apply Forall_list_del|]; exact Hwcs.
  - destruct leaf; cbn [negb]; [discriminate|].
    destruct (BTreeIndex.first_child _ cs) as [cs'|] eqn:HFcs; [|discriminate].
    cbn [mbind option_bind]. intros [= <-].
    assert (HF : Forall (wf P ord) cs' /\ length cs' = length cs).
    { clear Hcs Hhere. revert cs' HFcs.
      induction cs as [|c cs IHcs]; intros cs'; cbn [BTreeIndex.first_child];
        [discriminate|].
      apply Forall_cons in IH as [HQc HQ]. apply Forall_cons in Hwcs as [Hwc Hw].
      destruct (BTreeIndex._delete_from_node c key row_index) as [c'|] eqn:Hc.
      - intros [= <-]. split; [|reflexivity].
        constructor; [apply (HQc c' Hwc eq_refl)|exact Hw].
      - destruct (BTreeIndex.first_child _ cs) as [cs1|] eqn:Hcs1; [|discriminate].
        intros [= <-]. destruct (IHcs HQ Hw cs1 eq_refl) as [Hw1 Hl1].
        split; [constructor; assumption|cbn; lia]. }
    destruct HF as [Hw' Hl'].
    constructor; [exact Hes|rewrite Hl'; exact Hcs|exact Hw'].
Qed.

Lemma delete_ok (index : BTreeIndex.t) (key : Value) (row_index : Z) :
  wf_index P index -> wf_index P (BTreeIndex.delete index key row_index).
Proof.
  intros [Hord Hwf]. unfold BTreeIndex.delete, wf_index.
  cbn [BTreeIndex.order BTreeIndex.root]. split; [exact Hord|].
  destruct (BTreeIndex._delete_from_node _ _ _) as [root'|] eqn:Hdel; cbn [default].
  - eapply delete_from_node_wf; eassumption.
  - exact Hwf.
Qed.

(** A history whose inserted keys are in [P] runs to its end. *)
Lemma run_ok (ops : list IndexHistory.Op) (index : BTreeIndex.t) :
  wf_index P index ->
  Forall (fun op => IndexHistory.is_insert op = true -> P (IndexHistory.key_of op)) ops ->
  exists index', IndexHistory.run index ops = Ok index' /\ wf_index P index'.
Proof.
  intros Hwf Hops. revert index Hwf.
  induction Hops as [|op ops Hop _ IH]; intros index Hwf; cbn [IndexHistory.run].
  - eauto.
  - destruct op as [key row_index|key row_index]; cbn [IndexHistory.apply].
    + destruct (insert_ok index key row_index Hwf (Hop eq_refl)) as (index1 & -> & Hw1).
      cbn [mbind result_bind]. apply IH, Hw1.
    + cbn [mbind result_bind]. apply IH, delete_ok, Hwf.
Qed.

End Total.

Lemma numeric_ordered : ordered_class numeric.
Proof.
  intros a b [x Hx] [y Hy]. unfold py_compare. rewrite Hx, Hy. eauto.
Qed.

Lemma new_wf (P : Value -> Prop) (column_name : string) (ord : Z) :
  2 <= ord -> wf_index P (BTreeIndex.new column_name ord).
Proof.
  intros Hord. split; [exact Hord|].
  cbn. constructor; [constructor|discriminate|constructor].
Qed.

End BTreeFacts.

(** ** Exceptions of the index operations *)

Module IndexErrors.
Import BTreeNode.

(** What [_split_child] returns, when it returns: the child at [index]
    is cut into two nodes that are no higher. *)
Lemma split_child_shape (ord : Z) (parent parent' : BTreeNode.t) (index : nat) :
  BTreeIndex._split_child ord parent index = Ok parent' ->
  exists child left right,
    children parent !! index = Some child /\
    children parent'
      = list_insert_at (index + 1) right (<[index := left]> (children parent)) /\
    (height left <= height child)%nat /\ (height right <= height child)%nat.
Proof.
  unfold BTreeIndex._split_child, py_index.
  destruct (children parent !! index) as [child|] eqn:Hchild; [|discriminate].
  cbn [mbind result_bind].
  destruct (if _ <? _ then _ else _) as [middle|e]; [|discriminate].
  cbn [mbind result_bind]. intros [= <-]. cbn [children].
  eexists _, _, _. split; [reflexivity|]. split; [reflexivity|].
  destruct child as [cl ces ccs co]. cbn [is_leaf children entries order].
  split; apply BTreeFacts.height_subset; intros c; destruct cl; cbn [negb];
    unfold slice_to, slice_from; try (intros Hc; exact Hc).
  - apply BTreeFacts.elem_of_take_1.
  - intros Hc. inversion Hc.
  - apply BTreeFacts.elem_of_drop_1.
Qed.

Section Raises.
Context (ok : PyError -> Prop).
Hypothesis ok_type : forall m, ok (TypeError m).
Hypothesis ok_index : forall m, ok (IndexError m).

Lemma only_ok {A} (a : A) : only_raises ok (Ok a).
Proof. intros e. discriminate. Qed.

Lemma only_bind {A B} (m : result A) (f : A -> result B) :
  only_raises ok m -> (forall a, m = Ok a -> only_raises ok (f a)) ->
  only_raises ok (m ≫= f).
Proof.
  intros Hm Hf e. destruct m as [a|e0]; cbn.
  - apply (Hf a eq_refl).
  - intros [= ->]. apply Hm. reflexivity.
Qed.

Lemma only_fmap {A B} (m : result A) (f : A -> B) :
  only_raises ok m -> only_raises ok (f <$> m).
Proof.
  intros Hm e. destruct m as [a|e0]; cbn; [discriminate|].
  intros [= ->]. apply Hm. reflexivity.
Qed.

Lemma only_if {A} (b : bool) (x y : result A) :
  only_raises ok x -> only_raises ok y -> only_raises ok (if b then x else y).
Proof. destruct b; auto. Qed.

Lemma only_cmp (f : comparison -> bool) (a b : Value) :
  only_raises ok (py_cmp_with f a b).
Proof.
  intros e. unfold py_cmp_with.
  destruct (py_compare a b); [discriminate|]. intros [= <-]. apply ok_type.
Qed.

Lemma only_index {A} (l : list A) (i : nat) : only_raises ok (py_index l i).
Proof.
  intros e. unfold py_index.
  destruct (l !! i); [discriminate|]. intros [= <-]. apply ok_index.
Qed.

Lemma only_getitem {A} (l : list A) (i : Z) : only_raises ok (py_getitem l i).
Proof.
  unfold py_getitem. destruct (_ <? 0); [|apply only_index].
  intros e [= <-]. apply ok_index.
Qed.

Lemma only_count_greater (key : Value) (ks : list Value) :
  only_raises ok (BTreeIndex.count_greater key ks).
Proof.
  induction ks as [|k ks IH]; cbn [BTreeIndex.count_greater]; [apply only_ok|].
  apply only_bind; [apply only_cmp|]. intros b _.
  apply only_if; [apply only_fmap, IH|apply only_ok].
Qed.

Lemma only_split_child (order : Z) (parent : BTreeNode.t) (i : nat) :
  only_raises ok (BTreeIndex._split_child order parent i).
Proof.
  unfold BTreeIndex._split_child.
  apply only_bind; [apply only_index|]. intros child _.
  apply only_bind; [apply only_if; apply only_getitem|]. intros m _.
  apply only_ok.
Qed.

(** The descent raises nothing else, provided [RecursionError] is allowed
    or the fuel covers the height of the node. *)
Lemma only_insert_non_full (fuel : nat) (order : Z) (key : Value) (row_index : Z) :
  forall node,
    ok RecursionError \/ (height node <= fuel)%nat ->
    only_raises ok (BTreeIndex._insert_non_full fuel order node key row_index).
Proof.
  induction fuel as [|fuel IH]; intros node Hfuel;
    rewrite BTreeFacts.insert_non_full_eq.
  all: apply only_if;
    [apply only_bind;
       [unfold BTreeIndex.leaf_insert; apply only_bind;
          [apply only_count_greater|intros; apply only_ok]
       |intros; apply only_ok]|].
  all: apply only_bind; [apply only_count_greater|intros n _; cbv zeta].
  all: apply only_bind; [apply only_index|intros child Hchild].
  all: assert (Hh : (S (height child) <= height node)%nat)
         by (destruct node as [l es cs o]; apply BTreeFacts.height_child;
             unfold py_index in Hchild; cbn [children] in Hchild;
             destruct (cs !! _) eqn:Hc; [|discriminate];
             injection Hchild as ->; eapply list_elem_of_lookup_2, Hc).
  all: apply only_bind.
  1, 3: apply only_if; [|apply only_ok];
        apply only_bind; [apply only_split_child|intros node' _];
        apply only_bind; [apply only_index|intros k _];
        apply only_bind; [apply only_cmp|intros b _; apply only_ok].
  - intros [node1 i1] _. apply only_bind; [apply only_index|intros c _].
    intros e [= <-]. destruct Hfuel as [Hre|Hle]; [exact Hre|lia].
  - intros [node1 i1] Hsel. apply only_bind; [apply only_index|intros c Hc].
    apply only_bind; [|intros; apply only_ok].
    apply IH. destruct Hfuel as [Hre|Hle]; [left; exact Hre|right].
    cut (height c <= height child)%nat; [lia|].
    unfold py_index in Hc, Hchild.
    destruct (children node1 !! i1) as [c1|] eqn:Hc1; [|discriminate].
    injection Hc as ->.
    destruct (children node !! _) as [c0|] eqn:Hc0; [|discriminate].
    injection Hchild as ->.
    destruct (is_full child).
    + destruct (BTreeIndex._split_child _ _ _) as [node'|] eqn:Hsplit; [|discriminate].
      cbn [mbind result_bind] in Hsel.
      destruct (py_index (keys node') _) as [k|]; [|discriminate].
      cbn [mbind result_bind] in Hsel.
      destruct (py_gt key k) as [b|]; [|discriminate].
      cbn [mbind result_bind] in Hsel. injection Hsel as <- <-.
      apply split_child_shape in Hsplit
        as (child' & left & right & Hchild' & Hcs' & Hl & Hr).
      rewrite Hc0 in Hchild'. injection Hchild' as <-.
      pose proof (lookup_lt_Some _ _ _ Hc0) as Hlt.
      rewrite Hcs' in Hc1. destruct b.
      * rewrite BTreeFacts.lookup_list_insert_at in Hc1
          by (rewrite length_insert; lia).
        injection Hc1 as <-. exact Hr.
      * rewrite BTreeFacts.lookup_list_insert_at_lt in Hc1
          by (rewrite ?length_insert; lia).
        rewrite list_lookup_insert_eq in Hc1 by exact Hlt.
        injection Hc1 as <-. exact Hl.
    + injection Hsel as <- <-. rewrite Hc0 in Hc1. injection Hc1 as <-. lia.
Qed.

Lemma only_btree_insert (index : BTreeIndex.t) (key : Value) (row_index : Z) :
  only_raises ok (BTreeIndex.insert index key row_index).
Proof.
  unfold BTreeIndex.insert.
  apply only_bind; [apply only_if; [apply only_split_child|apply only_ok]|].
  intros root' _. apply only_bind; [|intros; apply only_ok].
  apply only_insert_non_full. right. lia.
Qed.

Lemma only_index_insert (ix : Index.t) (key : Value) (row_index : Z) :
  only_raises ok (Index.insert ix key row_index).
Proof.
  destruct ix; cbn [Index.insert]; [|apply only_ok].
  apply only_fmap, only_btree_insert.
Qed.

End Raises.

(** [BTreeIndex.insert] raises TypeError (keys Python cannot order) or
    IndexError (a malformed tree) and nothing else: the fuel it passes down
    never runs out. *)
Lemma btree_insert_raises (index : BTreeIndex.t) (key : Value) (row_index : Z) :
  only_raises (fun e => (exists m, e = TypeError m) \/ (exists m, e = IndexError m))
              (BTreeIndex.insert index key row_index).
Proof. apply only_btree_insert; eauto. Qed.

Lemma only_insert_indexes (ok : PyError -> Prop)
    (ok_type : forall m, ok (TypeError m)) (ok_index : forall m, ok (IndexError m))
    (row : Row.t) (row_index : nat) (done todo : dict Index.t) :
  only_raises ok (Table.insert_indexes row row_index done todo).2.
Proof.
  revert done. induction todo as [|[col_name index] rest IH]; intros done;
    cbn [Table.insert_indexes].
  - apply only_ok.
  - destruct (is_none _); [apply IH|].
    pose proof (only_index_insert ok ok_type ok_index index
                  (Row.get row col_name) (Z.of_nat row_index)) as Hi.
    destruct (Index.insert _ _ _) as [index'|e]; [apply IH|].
    intros e' [= <-]. apply Hi. reflexivity.
Qed.

End IndexErrors.

(** ** The size counter of the B-tree *)

Lemma btree_insert_size (index index' : BTreeIndex.t) (key : Value) (row_index : Z) :
  BTreeIndex.insert index key row_index = Ok index' ->
  BTreeIndex.size index' = BTreeIndex.size index + 1.
Proof.
  unfold BTreeIndex.insert.
  destruct (if BTreeNode.is_full _ then _ else _) as [root'|e]; [|discriminate].
  cbn [mbind result_bind].
  destruct (BTreeIndex._insert_non_full _ _ _ _ _) as [root''|e]; [|discriminate].
  intros [= <-]. reflexivity.
Qed.

Lemma index_run_size (ops : list IndexHistory.Op) (index index' : BTreeIndex.t) :
  IndexHistory.run index ops = Ok index' ->
  BTreeIndex.size index'
  = BTreeIndex.size index + IndexHistory.inserts ops - IndexHistory.deletes ops.
Proof.
  unfold IndexHistory.inserts, IndexHistory.deletes.
  revert index. induction ops as [|op ops IH]; intros index; cbn [IndexHistory.run].
  - intros [= <-]. cbn. lia.
  - destruct (IndexHistory.apply index op) as [index1|e] eqn:Hop; [|discriminate].
    cbn [mbind result_bind]. intros Hrun. rewrite (IH _ Hrun). rewrite !filter_cons.
    destruct op as [key row_index|key row_index]; cbn [IndexHistory.apply] in Hop.
    + apply btree_insert_size in Hop. rewrite Hop.
      cbn [IndexHistory.is_insert].
      destruct (decide (true = true)); [|congruence].
      destruct (decide (true = false)); [congruence|]. cbn [length]. lia.
    + injection Hop as <-. cbn [IndexHistory.is_insert BTreeIndex.delete BTreeIndex.size].
      destruct (decide (false = true)); [congruence|].
      destruct (decide (false = false)); [|congruence]. cbn [length]. lia.
Qed.

(** C9: after any history of [insert] and [delete] calls on a new index,
    [size] is the number of [insert] calls minus the number of [delete]
    calls (and with keys of one ordered class, numbers for instance, every
    history runs to its end); [delete] subtracts one even when it finds no
    matching entry and leaves the tree as it is, so [size] can differ from
    the number of entries stored and can be negative. *)
Theorem btree_size_counts_calls (column_name : string) (ord : Z)
    (ops : list IndexHistory.Op) :
  (forall index',
     IndexHistory.run (BTreeIndex.new column_name ord) ops = Ok index' ->
     BTreeIndex.size index' = IndexHistory.inserts ops - IndexHistory.deletes ops) /\
  (2 <= ord ->
   Forall (fun op => IndexHistory.is_insert op = true ->
                     BTreeInv.numeric (IndexHistory.key_of op)) ops ->
   exists index',
     IndexHistory.run (BTreeIndex.new column_name ord) ops = Ok index' /\
     BTreeIndex.size index' = IndexHistory.inserts ops - IndexHistory.deletes ops) /\
  (forall index key row_index,
     BTreeIndex.size (BTreeIndex.delete index key row_index)
     = BTreeIndex.size index - 1 /\
     (BTreeIndex._delete_from_node (BTreeIndex.root index) key row_index = None ->
      BTreeIndex.root (BTreeIndex.delete index key row_index) = BTreeIndex.root index)) /\
  (forall key row_index,
     let index := BTreeIndex.delete (BTreeIndex.new column_name ord) key row_index in
     BTreeIndex.size index = -1 /\
     BTreeIndex._collect_entries (BTreeIndex.root index) = []).
Proof.
  assert (Hsize : forall index',
     IndexHistory.run (BTreeIndex.new column_name ord) ops = Ok index' ->
     BTreeIndex.size index' = IndexHistory.inserts ops - IndexHistory.deletes ops).
  { intros index' Hrun. rewrite (index_run_size _ _ _ Hrun). cbn. lia. }
  split; [exact Hsize|]. split; [|split].
  - intros Hord Hops.
    destruct (BTreeFacts.run_ok BTreeInv.numeric BTreeFacts.numeric_ordered ops
                (BTreeIndex.new column_name ord)
                (BTreeFacts.new_wf _ column_name ord Hord) Hops)
      as (index' & Hrun & _).
    exists index'. split; [exact Hrun|apply Hsize, Hrun].
  - intros index key row_index. split; [reflexivity|].
    unfold BTreeIndex.delete. intros ->. reflexivity.
  - intros key row_index. split; reflexivity.
Qed.

Lemma btree_size_counts_calls_witness :
  let ops := [IndexHistory.Insert (VInt 1) 0;
              IndexHistory.Delete (VInt 5) 9;
              IndexHistory.Delete (VInt 5) 9] in
  exists index',
    IndexHistory.run (BTreeIndex.new "id" 3) ops = Ok index' /\
    BTreeIndex.size index' = -1 /\
    BTreeIndex._collect_entries (BTreeIndex.root index') = [(VInt 1, 0)].
Proof.
  intros ops.
  destruct (btree_size_counts_calls "id" 3 ops) as (_ & Htotal & _).
  destruct Htotal as (index' & Hrun & Hsize).
  { lia. }
  { repeat constructor; intros _; eexists; reflexivity. }
  exists index'. split; [exact Hrun|]. split; [exact Hsize|].
  assert (Hrun' : IndexHistory.run (BTreeIndex.new "id" 3) ops
                  = Ok (BTreeIndex.Make "id" 3 (BTreeNode.Node true [(VInt 1, 0)] [] 3) (-1)))
    by (vm_compute; reflexivity).
  rewrite Hrun in Hrun'. injection Hrun' as ->. reflexivity.
Defined.

(** ** Failed inserts *)

(** A payload that fails conversion or validation makes [Table.insert]
    raise that error and return the table it was given: rows, indexes and
    [next_row_id] are the same, and so is the number of live rows.  Every
    ValueError [Table.insert] raises is of this kind. *)
Theorem insert_failure_leaves_table_unchanged `{PyBuiltins}
    (t : Table.t) (data : dict Value) :
  (forall e, Spec.checked t data = Err e -> Table.insert t data = (t, Err e)) /\
  (forall t' m,
     Table.insert t data = (t', Err (ValueError m)) ->
     Spec.checked t data = Err (ValueError m) /\
     t' = t /\
     Table.rows t' = Table.rows t /\
     Table.indexes t' = Table.indexes t /\
     Table.next_row_id t' = Table.next_row_id t /\
     length (Table.scan t') = length (Table.scan t)).
Proof.
  unfold Spec.checked, Table.insert. split.
  - intros e. destruct (Table.fill_defaults _ _ _) as [full_data|e0]; cbn.
    + destruct (Table.validate_row _ _ _ _) as [[[] error]|e1]; cbn;
        [discriminate | intros [= <-]; reflexivity | intros [= <-]; reflexivity].
    + intros [= <-]. reflexivity.
  - intros t' m. destruct (Table.fill_defaults _ _ _) as [full_data|e0]; cbn.
    + destruct (Table.validate_row _ _ _ _) as [[[] error]|e1]; cbn.
      * match goal with
        | |- context [Table.insert_indexes ?r ?i ?d ?ix] =>
            pose proof (IndexErrors.only_insert_indexes (fun e => forall m, e <> ValueError m)
                          ltac:(discriminate) ltac:(discriminate) r i d ix) as Hn;
            destruct (Table.insert_indexes r i d ix) as [ix' res]
        end.
        cbn [snd] in Hn. intros [= _ Hres].
        destruct res as [[]|e]; cbn in Hres; [discriminate|].
        injection Hres as ->. exfalso. exact (Hn _ eq_refl m eq_refl).
      * intros [= <- <-]. repeat split.
      * intros [= <- ->]. repeat split.
    + intros [= <- ->]. repeat split.
Qed.

Lemma insert_failure_leaves_table_unchanged_witness :
  let data := [("id", VInt 1); ("name", VStr "Bob"); ("email", VStr "bob@example.com")] in
  let msg := "Validation error: Duplicate value for PRIMARY KEY column 'id'" in
  Spec.checked Samples.accounts data = Err (ValueError msg) /\
  Table.insert Samples.accounts data = (Samples.accounts, Err (ValueError msg)).
Proof.
  intros data msg.
  assert (Hchk : Spec.checked Samples.accounts data = Err (ValueError msg))
    by (vm_compute; reflexivity).
  split; [exact Hchk|].
  exact (proj1 (insert_failure_leaves_table_unchanged Samples.accounts data) _ Hchk).
Defined.

(** The four kinds of validation failure, each on [accounts]. *)
Example insert_rejects_bad_conversion :
  Table.insert Samples.accounts
    [("id", VStr "abc"); ("name", VStr "Bob"); ("email", VStr "b@example.com")]
  = (Samples.accounts,
     Err (ValueError "invalid literal for int() with base 10: 'abc'")).
Proof. vm_compute. reflexivity. Qed.

Example insert_rejects_null :
  Table.insert Samples.accounts [("id", VInt 2); ("email", VStr "b@example.com")]
  = (Samples.accounts,
     Err (ValueError "Validation error: Column 'name' cannot be NULL")).
Proof. vm_compute. reflexivity. Qed.

Example insert_rejects_long_text :
  Table.insert Samples.accounts
    [("id", VInt 2); ("name", VStr "Robert"); ("email", VStr "b@example.com")]
  = (Samples.accounts,
     Err (ValueError
            "Validation error: Value exceeds maximum length 5 for column 'name'")).
Proof. vm_compute. reflexivity. Qed.

Example insert_rejects_duplicate_unique :
  Table.insert Samples.accounts
    [("id", VInt 2); ("name", VStr "Bob"); ("email", VStr "ann@example.com")]
  = (Samples.accounts,
     Err (ValueError "Validation error: Duplicate value for UNIQUE column 'email'")).
Proof. vm_compute. reflexivity. Qed.

(** C6: [people] holds a live row with id 3 (slot 2) and [id] is its PRIMARY
    KEY, yet inserting the id 3 again does not fail.  [validate_row] looks
    for the value through the B-tree index, which lost the entry of id 3
    when its root was split, so the lookup finds nothing: the payload is
    stored under the row id 6, the live rows go from six to seven, two of
    them with id 3, and [next_row_id] advances. *)
Theorem insert_accepts_duplicate_primary_key :
  let data := [("id", VInt 3); ("name", VStr "y")] in
  Column.primary_key <$> dict_get "id" (Table.columns Samples.people) = Some true /\
  Row.row_id <$> Spec.equal_filter Samples.people "id" (VInt 3) = [2] /\
  Table.find_by_column Samples.people "id" (VInt 3) = Ok [] /\
  exists t' row,
    Table.insert Samples.people data = (t', Ok row) /\
    Row.row_id row = 6 /\
    length (Table.scan Samples.people) = 6%nat /\
    length (Table.scan t') = 7%nat /\
    Table.next_row_id t' = Table.next_row_id Samples.people + 1 /\
    Row.row_id <$> Spec.equal_filter t' "id" (VInt 3) = [2; 6].
Proof.
  intros data. split; [reflexivity|]. split; [vm_compute; reflexivity|].
  split; [vm_compute; reflexivity|].
  exists (Table.insert Samples.people data).1,
         (Row.Make [("id", VInt 3); ("name", VStr "y")] 6).
  split; [vm_compute; reflexivity|].
  repeat split; vm_compute; reflexivity.
Qed.

(** ** Range lookups *)

Lemma lex_compare_antisym (a b : list Z) :
  lex_compare b a = CompOpp (lex_compare a b).
Proof.
  revert b. induction a as [|x a IH]; intros [|y b]; cbn [lex_compare]; try reflexivity.
  rewrite (Z.compare_antisym x y).
  destruct (x ?= y); cbn [CompOpp]; [apply IH|reflexivity..].
Qed.

Lemma float_compare_antisym (a b : pyfloat) :
  float_compare b a = CompOpp (float_compare a b).
Proof. unfold float_compare. rewrite (Z.min_comm (fexp b)). apply Z.compare_antisym. Qed.

(** Swapping the operands of a comparison mirrors its outcome. *)
Lemma py_compare_antisym (a b : Value) :
  py_compare b a = CompOpp <$> py_compare a b.
Proof.
  unfold py_compare.
  destruct (as_number a) as [x|] eqn:Ha, (as_number b) as [y|] eqn:Hb.
  - cbn [fmap option_fmap option_map]. f_equal. apply float_compare_antisym.
  - destruct a, b; try discriminate; reflexivity.
  - destruct a, b; try discriminate; reflexivity.
  - destruct a, b; try discriminate; try reflexivity;
      cbn [fmap option_fmap option_map]; f_equal; apply lex_compare_antisym.
Qed.

(** On a leaf whose keys can be ordered against both bounds the range
    search is the filter of the specification. *)
Lemma range_search_leaf (es : list (Value * Z)) (ord : Z) (lo hi : Value) :
  Forall (fun e => is_Some (py_compare e.1 lo) /\ is_Some (py_compare e.1 hi)) es ->
  BTreeIndex._range_search_node (BTreeNode.Node true es [] ord) lo hi =
    Ok (filter (fun e => Spec.in_range lo hi e.1 = true) es).*2.
Proof.
  intros Hes. cbn [BTreeIndex._range_search_node map negb mbind result_bind].
  assert (Hloop : forall i,
    BTreeIndex.range_loop true es i [] lo hi =
      Ok (filter (fun e => Spec.in_range lo hi e.1 = true) es).*2).
  { induction Hes as [|[k v] es [[c1 H1] [c2 H2]] _ IH]; intros i; [reflexivity|].
    cbn [BTreeIndex.range_loop negb]. cbn [fst] in H1, H2.
    rewrite filter_cons. cbn [fst].
    unfold Spec.in_range, Spec.le, py_ge, py_le, py_cmp_with.
    rewrite (py_compare_antisym k lo), H1, H2. cbn [fmap option_fmap option_map].
    cbn [mbind result_bind]. rewrite IH. cbn [mbind result_bind].
    destruct c1, c2; cbn; reflexivity. }
  rewrite Hloop. cbn [mbind result_bind]. rewrite app_nil_r. reflexivity.
Qed.

(** C2: after inserting the ids 1 to 6, the range lookup for [1 <= id <= 2]
    through the B-tree index finds nothing, although the full-scan filter
    keeps the rows of slots 0 and 1; the tree still holds the entries
    [(1, 0)] and [(2, 1)] that [range_search] leaves out. *)
Theorem indexed_range_lookup_misses_rows :
  Table.find_by_range Samples.people "id" (VInt 1) (VInt 2) = Ok [] /\
  Row.row_id <$> Spec.range_filter Samples.people "id" (VInt 1) (VInt 2) = [0; 1] /\
  BTreeIndex.range_search Samples.people_index (VInt 1) (VInt 2) = Ok [] /\
  filter (fun e => Spec.in_range (VInt 1) (VInt 2) e.1 = true)
         (BTreeIndex._collect_entries (BTreeIndex.root Samples.people_index))
  = [(VInt 1, 0); (VInt 2, 1)].
Proof. vm_compute. repeat split. Qed.

(** The split that builds this tree drops the median entry [(3, 2)] and
    keeps [(4, 3)] twice, so the id 3 can no longer be found. *)
Lemma split_loses_median_entry :
  BTreeIndex._collect_entries (BTreeIndex.root Samples.people_index)
  = [(VInt 4, 3); (VInt 1, 0); (VInt 2, 1); (VInt 4, 3); (VInt 5, 4); (VInt 6, 5)] /\
  BTreeIndex.search Samples.people_index (VInt 3) = Ok [].
Proof. vm_compute. split; reflexivity. Qed.

(** ** Equality lookups without an index *)

(** The full scan of [find_by_column] subscripts every slot, so one
    tombstone is enough to make it raise. *)
Lemma find_by_column_tombstone (t : Table.t) (column : string) (value : Value) :
  dict_get column (Table.indexes t) = None ->
  None ∈ Table.rows t ->
  Table.find_by_column t column value = Err none_not_subscriptable.
Proof.
  intros Hix Hin. unfold Table.find_by_column. rewrite Hix.
  induction (Table.rows t) as [|r rs IH]; [inversion Hin|].
  cbn [Table.filter_rows].
  destruct r as [row|]; [|reflexivity].
  cbn [slot_get mbind result_bind]. rewrite IH; [reflexivity|].
  apply elem_of_cons in Hin as [Hin|Hin]; [discriminate|exact Hin].
Qed.

(** C8: [users] has no index on [name]; after the row of slot 0 is deleted,
    [find_by_column("name", "Bob")] raises TypeError although Bob's row is
    live and matches. *)
Theorem find_by_column_fails_after_delete :
  dict_get "name" (Table.indexes Samples.users_after_delete) = None /\
  Row.row_id <$> Spec.equal_filter Samples.users_after_delete "name" (VStr "Bob") = [1] /\
  Table.find_by_column Samples.users_after_delete "name" (VStr "Bob")
  = Err none_not_subscriptable.
Proof. vm_compute. repeat split. Qed.

(** ** Deletes, tombstones and row ids *)

Lemma scan_split (rs : list (option Row.t)) (i : nat) (x : option Row.t) :
  (i < length rs)%nat ->
  omap id (<[i := x]> rs) =
    omap id (take i rs) ++ from_option (fun r => [r]) [] x ++ omap id (drop (S i) rs).
Proof.
  intros Hi. rewrite insert_take_drop by exact Hi.
  rewrite omap_app. f_equal. destruct x; reflexivity.
Qed.

Lemma scan_lookup (rs : list (option Row.t)) (i : nat) (x : option Row.t) :
  rs !! i = Some x ->
  omap id rs =
    omap id (take i rs) ++ from_option (fun r => [r]) [] x ++ omap id (drop (S i) rs).
Proof.
  intros Hi. rewrite <- (scan_split rs i x) by (eapply lookup_lt_Some; exact Hi).
  rewrite list_insert_id by exact Hi. reflexivity.
Qed.

Section TableEffects.
Context `{PyBuiltins}.

(** What a call of [insert] can do to the table: nothing, or append one
    row numbered [next_row_id] and advance the counter. *)
Lemma insert_effect (t t' : Table.t) (data : dict Value) (r : result Row.t) :
  Table.insert t data = (t', r) ->
  (t' = t /\ exists e, r = Err e) \/
  (exists row,
     Row.row_id row = Table.next_row_id t /\
     Table.rows t' = Table.rows t ++ [Some row] /\
     Table.next_row_id t' = Table.next_row_id t + 1 /\
     (r = Ok row \/ exists e, r = Err e)).
Proof.
  unfold Table.insert.
  destruct (Table.fill_defaults _ _ _) as [full_data|e0];
    [|intros [= <- <-]; left; eauto].
  destruct (Table.validate_row _ _ _ _) as [[[] error]|e1];
    [|intros [= <- <-]; left; eauto ..].
  destruct (Table.insert_indexes _ _ _ _) as [ix res].
  intros [= <- <-]. right. exists (Row.Make full_data (Table.next_row_id t)). cbn.
  split; [reflexivity|]. split; [reflexivity|]. split; [reflexivity|].
  destruct res as [[]|e]; cbn; eauto.
Qed.

Lemma delete_effect (t : Table.t) (i : nat) :
  Table.next_row_id (Table.delete t i).1 = Table.next_row_id t /\
  (Table.rows (Table.delete t i).1 = Table.rows t \/
   ((i < length (Table.rows t))%nat /\
    Table.rows (Table.delete t i).1 = <[i := None]> (Table.rows t))).
Proof.
  unfold Table.delete.
  destruct (Nat.leb_spec (length (Table.rows t)) i) as [|Hi]; [cbn; auto|].
  destruct (Table.rows t !! i) as [[row|]|] eqn:Hrow; cbn; auto.
  - destruct (Table.indexes t); cbn; auto.
  - destruct (Table.indexes t); cbn; auto.
Qed.

Lemma update_effect (t : Table.t) (i : nat) (updates : dict Value) :
  Table.next_row_id (Table.update t i updates).1 = Table.next_row_id t /\
  (Table.rows (Table.update t i updates).1 = Table.rows t \/
   exists row d,
     Table.rows t !! i = Some (Some row) /\
     Table.rows (Table.update t i updates).1
       = <[i := Some (Row.set_data row d)]> (Table.rows t)).
Proof.
  unfold Table.update.
  destruct (Nat.leb_spec (length (Table.rows t)) i) as [|Hi]; [cbn; auto|].
  destruct (Table.rows t !! i) as [[row|]|] eqn:Hrow; cbn; auto.
  destruct (Table.apply_updates _ _ _) as [new_data|e]; cbn; auto.
  destruct (Table.validate_row _ _ _ _) as [[[] error]|e]; cbn; auto.
  destruct (Table.update_indexes _ _ _ _ _) as [ix [[]|e]]; cbn; eauto 6.
Qed.

Lemma create_index_effect (t t' : Table.t) (column_name : string) (btree : bool) :
  Table.create_index t column_name btree = Ok t' ->
  Table.rows t' = Table.rows t /\ Table.next_row_id t' = Table.next_row_id t.
Proof.
  unfold Table.create_index.
  destruct (negb _); [discriminate|].
  destruct (dict_mem column_name (Table.indexes t)); [intros [= <-]; auto|].
  destruct (Table.build_index _ _ _ _); [|discriminate].
  intros [= <-]. auto.
Qed.

(** [Table(name, columns)] starts without rows, numbering from 0. *)
Lemma new_effect (name : string) (cols : list Column.t) (t : Table.t) :
  Table.new name cols = Ok t ->
  Table.rows t = [] /\ Table.next_row_id t = 0.
Proof.
  unfold Table.new.
  assert (Hgen : forall (r : result Table.t),
    (forall t1, r = Ok t1 -> Table.rows t1 = [] /\ Table.next_row_id t1 = 0) ->
    foldl (fun r col =>
             self ← r;
             if Column.primary_key col || Column.unique col
             then Table.create_index self (Column.name col) true
             else Ok self) r cols = Ok t ->
    Table.rows t = [] /\ Table.next_row_id t = 0).
  { clear. induction cols as [|col cols IH]; intros r Hr; cbn [foldl].
    - apply Hr.
    - apply IH. intros t1. destruct r as [self|e]; cbn; [|discriminate].
      destruct (Hr self eq_refl) as [Hrows Hnext].
      destruct (_ || _).
      + intros [Hr1 Hn1]%create_index_effect. split; congruence.
      + intros [= <-]. auto. }
  apply Hgen. intros t1 [= <-]. auto.
Qed.

End TableEffects.

Section Histories.
Context `{PyBuiltins}.

(** The counter never goes back, and an [insert] that returns has used its
    old value as the id. *)
Lemma apply_next_row_id (t : Table.t) (op : History.Op) :
  Table.next_row_id t <= Table.next_row_id (History.apply t op).1 /\
  forall id, (History.apply t op).2 = Some id ->
    id = Table.next_row_id t /\
    Table.next_row_id (History.apply t op).1 = Table.next_row_id t + 1.
Proof.
  destruct op as [data|i updates|i]; cbn [History.apply].
  - destruct (Table.insert t data) as [t' r] eqn:Hins. cbn [fst snd].
    apply insert_effect in Hins as [[-> [e ->]]|(row & Hid & _ & Hnext & Hr)].
    + split; [lia|discriminate].
    + split; [lia|]. destruct Hr as [->|[e ->]]; [|discriminate].
      intros id [= <-]. auto.
  - cbn [fst snd]. destruct (update_effect t i updates) as [-> _].
    split; [lia|discriminate].
  - cbn [fst snd]. destruct (delete_effect t i) as [-> _].
    split; [lia|discriminate].
Qed.

(** The ids handed out along a history increase strictly and start at the
    counter of the table the history starts from. *)
Lemma run_ids_increase (ops : list History.Op) (t : Table.t) :
  StronglySorted Z.lt (History.run t ops).2 /\
  Forall (fun id => Table.next_row_id t <= id) (History.run t ops).2.
Proof.
  revert t. induction ops as [|op ops IH]; intros t; cbn [History.run].
  - split; constructor.
  - destruct (History.apply t op) as [t' id] eqn:Hop.
    destruct (IH t') as [Hsorted Hge].
    destruct (History.run t' ops) as [t'' ids]. cbn [snd] in *.
    pose proof (apply_next_row_id t op) as [Hle Hid].
    rewrite Hop in Hle, Hid. cbn [fst snd] in Hle, Hid.
    destruct id as [id|]; cbn [from_option app].
    + destruct (Hid id eq_refl) as [-> Hnext]. split.
      * constructor; [exact Hsorted|].
        eapply Forall_impl; [exact Hge|]. cbn. intros; lia.
      * constructor; [lia|].
        eapply Forall_impl; [exact Hge|]. cbn. intros; lia.
    + split; [exact Hsorted|].
      eapply Forall_impl; [exact Hge|]. cbn. intros; lia.
Qed.

Lemma well_numbered_rows (t t' : Table.t) :
  Table.rows t' = Table.rows t ->
  Table.next_row_id t <= Table.next_row_id t' ->
  History.well_numbered t -> History.well_numbered t'.
Proof.
  unfold History.well_numbered, Table.scan. intros -> Hle [Hs Hb].
  split; [exact Hs|]. eapply Forall_impl; [exact Hb|]. cbn. intros; lia.
Qed.

Lemma well_numbered_apply (t : Table.t) (op : History.Op) :
  History.well_numbered t -> History.well_numbered (History.apply t op).1.
Proof.
  intros Hwn. destruct op as [data|i updates|i]; cbn [History.apply].
  - destruct (Table.insert t data) as [t' r] eqn:Hins. cbn [fst].
    apply insert_effect in Hins as [[-> _]|(row & Hid & Hrows & Hnext & _)];
      [exact Hwn|].
    destruct Hwn as [Hs Hb]. unfold History.well_numbered, Table.scan in *.
    rewrite Hrows, omap_app. cbn [omap list_omap id]. split.
    + rewrite fmap_app. apply StronglySorted_app_2; [|exact Hs|repeat constructor].
      intros x1 x2 Hx1 ->%list_elem_of_singleton.
      apply list_elem_of_fmap in Hx1 as (r1 & -> & Hr1).
      rewrite Forall_forall in Hb. specialize (Hb r1 Hr1). cbn. lia.
    + apply Forall_app. split.
      * eapply Forall_impl; [exact Hb|]. cbn. intros; lia.
      * repeat constructor. lia.
  - cbn [fst]. destruct (update_effect t i updates) as [Hnext Hrows].
    destruct Hrows as [Hrows|(row & d & Hrow & Hrows)].
    + eapply well_numbered_rows; [exact Hrows|lia|exact Hwn].
    + destruct Hwn as [Hs Hb]. unfold History.well_numbered, Table.scan in *.
      rewrite Hrows, Hnext.
      rewrite scan_split by (eapply lookup_lt_Some; exact Hrow).
      rewrite (scan_lookup _ _ _ Hrow) in Hs, Hb. cbn [from_option] in *.
      split.
      * rewrite !fmap_app in *. exact Hs.
      * rewrite !Forall_app in *. destruct Hb as (? & Hrow' & ?).
        repeat split; try assumption.
        inversion Hrow'; subst. repeat constructor. assumption.
  - cbn [fst]. destruct (delete_effect t i) as [Hnext Hrows].
    destruct Hrows as [Hrows|[Hi Hrows]].
    + eapply well_numbered_rows; [exact Hrows|lia|exact Hwn].
    + destruct Hwn as [Hs Hb]. unfold History.well_numbered, Table.scan in *.
      rewrite Hrows, Hnext. rewrite scan_split by exact Hi.
      destruct (lookup_lt_is_Some_2 _ _ Hi) as [x Hx].
      rewrite (scan_lookup _ _ _ Hx) in Hs, Hb.
      destruct x as [row|]; cbn [from_option app] in *; [|split; assumption].
      rewrite !fmap_app, !Forall_app in *. cbn [fmap list_fmap] in Hs.
      destruct Hb as (? & Hb2%Forall_cons). split; [|tauto].
      apply StronglySorted_app in Hs as (Hlt & Hs1 & Hs2).
      apply StronglySorted_cons in Hs2 as [_ Hs2].
      apply StronglySorted_app_2; [|assumption ..].
      intros x1 x2 Hx1 Hx2. apply Hlt; [exact Hx1|].
      apply elem_of_cons. right. exact Hx2.
Qed.

Lemma reachable_well_numbered (t : Table.t) :
  History.reachable t -> History.well_numbered t.
Proof.
  induction 1 as [name cols t Hnew|t op _ IH].
  - apply new_effect in Hnew as [Hrows Hnext].
    unfold History.well_numbered, Table.scan. rewrite Hrows.
    split; constructor.
  - apply well_numbered_apply, IH.
Qed.

Lemma reachable_run (t : Table.t) (ops : list History.Op) :
  History.reachable t -> History.reachable (History.run t ops).1.
Proof.
  revert t. induction ops as [|op ops IH]; intros t Ht; cbn [History.run].
  - exact Ht.
  - pose proof (History.reachable_apply t op Ht) as Ht'.
    destruct (History.apply t op) as [t' id]. cbn [fst] in Ht'.
    specialize (IH t' Ht'). destruct (History.run t' ops). exact IH.
Qed.

End Histories.

(** C7: deleting the live row of [slot] in a table the engine built
    succeeds and leaves a tombstone: the slot holds [None], every other
    slot is as before (the list is as long as it was), [scan] lists the
    rows of the other slots and no longer the deleted row, [next_row_id]
    is unchanged, and the ids of the rows inserted from then on increase
    strictly and all exceed the deleted row's id. *)
Theorem delete_leaves_tombstone `{PyBuiltins}
    (t : Table.t) (slot : nat) (row : Row.t) :
  History.reachable t ->
  Table.rows t !! slot = Some (Some row) ->
  let t' := (Table.delete t slot).1 in
  (Table.delete t slot).2 = Ok () /\
  Table.rows t' !! slot = Some None /\
  (forall j, j <> slot -> Table.rows t' !! j = Table.rows t !! j) /\
  length (Table.rows t') = length (Table.rows t) /\
  Table.scan t'
    = omap id (take slot (Table.rows t)) ++ omap id (drop (S slot) (Table.rows t)) /\
  (row ∉ Table.scan t') /\
  Table.next_row_id t' = Table.next_row_id t /\
  forall ops,
    StronglySorted Z.lt (History.run t' ops).2 /\
    Forall (fun id => Row.row_id row < id) (History.run t' ops).2.
Proof.
  intros Hreach Hrow t'.
  pose proof (lookup_lt_Some _ _ _ Hrow) as Hlt.
  assert (Hdel : Table.delete t slot =
    (Table.set_rows
       (Table.set_indexes t (Table.delete_indexes row slot (Table.indexes t)))
       (<[slot := None]> (Table.rows t)), Ok ())).
  { unfold Table.delete. destruct (Nat.leb_spec (length (Table.rows t)) slot); [lia|].
    rewrite Hrow. reflexivity. }
  assert (Hrows : Table.rows t' = <[slot := None]> (Table.rows t)).
  { unfold t'. rewrite Hdel. reflexivity. }
  assert (Hnext : Table.next_row_id t' = Table.next_row_id t).
  { unfold t'. rewrite Hdel. reflexivity. }
  assert (Hscan : Table.scan t' =
    omap id (take slot (Table.rows t)) ++ omap id (drop (S slot) (Table.rows t))).
  { unfold Table.scan. rewrite Hrows, scan_split by exact Hlt. reflexivity. }
  destruct (reachable_well_numbered t Hreach) as [Hs Hb].
  unfold Table.scan in Hs, Hb. rewrite (scan_lookup _ _ _ Hrow) in Hs, Hb.
  cbn [from_option app] in Hs, Hb.
  rewrite Hdel. cbn [fst snd]. split; [reflexivity|].
  split; [rewrite Hrows; apply list_lookup_insert_eq; exact Hlt|].
  split; [intros j Hj; rewrite Hrows; apply list_lookup_insert_ne; congruence|].
  split; [rewrite Hrows; apply length_insert|].
  split; [exact Hscan|].
  split.
  - rewrite Hscan. rewrite fmap_app in Hs. cbn [fmap list_fmap] in Hs.
    apply StronglySorted_app in Hs as (Hlow & _ & Hs2).
    apply StronglySorted_cons in Hs2 as [Hhigh _].
    intros [Hin|Hin]%elem_of_app.
    + specialize (Hlow (Row.row_id row) (Row.row_id row)).
      cut (Row.row_id row < Row.row_id row); [lia|].
      apply Hlow; [apply list_elem_of_fmap; eauto|apply elem_of_cons; auto].
    + rewrite Forall_forall in Hhigh.
      specialize (Hhigh (Row.row_id row)).
      cut (Row.row_id row < Row.row_id row); [lia|].
      apply Hhigh. apply list_elem_of_fmap. eauto.
  - split; [exact Hnext|]. intros ops.
    destruct (run_ids_increase ops t') as [Hsorted Hge].
    split; [exact Hsorted|].
    eapply Forall_impl; [exact Hge|]. cbn. intros id Hid.
    rewrite Hnext in Hid.
    apply Forall_app in Hb as [_ Hb]. apply Forall_cons in Hb as [Hb _]. lia.
Qed.

Lemma delete_leaves_tombstone_witness :
  let row := Row.Make [("id", VInt 1); ("name", VStr "Ann")] 0 in
  let later := [History.Insert [("id", VInt 1); ("name", VStr "Ann")];
                History.Insert [("id", VInt 3); ("name", VStr "Cy")]] in
  History.reachable Samples.users /\
  Table.rows Samples.users !! 0%nat = Some (Some row) /\
  (row ∉ Table.scan Samples.users_after_delete) /\
  Table.next_row_id Samples.users_after_delete = Table.next_row_id Samples.users /\
  (History.run Samples.users_after_delete later).2 = [2; 3] /\
  Forall (fun id => Row.row_id row < id)
         (History.run Samples.users_after_delete later).2.
Proof.
  intros row later.
  assert (Hreach : History.reachable Samples.users).
  { change Samples.users with
      (History.run
         (Samples.create "users"
            [Samples.column "id" INT true; Samples.column "name" VARCHAR false])
         [History.Insert [("id", VInt 1); ("name", VStr "Ann")];
          History.Insert [("id", VInt 2); ("name", VStr "Bob")]]).1.
    apply reachable_run.
    apply (History.reachable_new "users"
             [Samples.column "id" INT true; Samples.column "name" VARCHAR false]).
    vm_compute. reflexivity. }
  assert (Hrow : Table.rows Samples.users !! 0%nat = Some (Some row))
    by (vm_compute; reflexivity).
  destruct (delete_leaves_tombstone Samples.users 0 row Hreach Hrow)
    as (_ & _ & _ & _ & _ & Hgone & Hnext & Hids).
  split; [exact Hreach|]. split; [exact Hrow|].
  split; [exact Hgone|]. split; [exact Hnext|].
  split; [vm_compute; reflexivity|]. exact (proj2 (Hids later)).
Defined.

(** ** Joins *)

(** A single INNER join computes the merged row of every matching pair, in
    nested-loop order; when nothing matches, the emptiness tests of
    [_apply_joins] fall back to the base rows. *)
Lemma inner_join_single (db : Database.t) (base_table join_table : Table.t)
    (base_rows : list Row.t) (j : Executor.Join) :
  Executor.join_type j = Executor.INNER ->
  Database.get_table db (Executor.join_table j) = Some join_table ->
  let merged :=
    map (fun p => Row.Make (Executor.merge_rows (Table.name base_table)
                              (Table.name join_table) p.1 p.2)
                           (Row.row_id p.1))
        (Spec.matching_pairs (Executor.col_name_of (Executor.on_left j))
           (Executor.col_name_of (Executor.on_right j))
           base_rows (Table.scan join_table)) in
  Executor._apply_joins db base_table base_rows [j] =
    Ok (match merged with [] => base_rows | _ => merged end).
Proof.
  intros Hty Hget merged.
  assert (Hm : merged =
    concat (map (Executor.inner_rows_of (Table.name base_table) (Table.name join_table)
                   (Executor.col_name_of (Executor.on_left j))
                   (Executor.col_name_of (Executor.on_right j))
                   (Table.scan join_table)) base_rows)).
  { unfold merged, Spec.matching_pairs. clear.
    induction base_rows as [|b bs IH]; [reflexivity|].
    cbn [mbind list_bind map concat]. rewrite filter_app, map_app. f_equal; [|exact IH].
    unfold Executor.inner_rows_of.
    generalize (Table.scan join_table). intros rs. clear.
    induction rs as [|r rs IH]; [reflexivity|].
    cbn [mbind list_bind app]. rewrite !filter_cons. cbn [fst snd].
    destruct (decide (Executor.join_match _ _ b r = true)); cbn; rewrite IH; reflexivity. }
  unfold Executor._apply_joins. cbn [foldl mbind result_bind].
  unfold Executor.apply_join. rewrite Hget, Hty, <- Hm.
  cbn [mbind result_bind]. destruct merged; reflexivity.
Qed.

(** C1: on a customer with id 1 and an order of customer 2, no pair of rows
    satisfies [customers.id = orders.customer_id], yet the INNER JOIN query
    returns one row (the customer row, unmerged) instead of none. *)
Theorem inner_join_without_match_returns_base_rows :
  Spec.matching_pairs "id" "customer_id"
    (Table.scan Samples.customers) (Table.scan Samples.orders) = [] /\
  Executor._apply_joins Samples.shop Samples.customers
    (Table.scan Samples.customers) (Executor.joins Samples.select_join)
  = Ok (Table.scan Samples.customers) /\
  (Executor.result_rows <$> Executor._execute_select Samples.shop Samples.select_join)
  = Ok [[("id", VInt 1); ("name", VStr "Ann")]].
Proof. vm_compute. repeat split. Qed.

(** ** LIMIT *)

(** A positive LIMIT keeps the first [n] rows. *)
Lemma apply_limit_positive (n : Z) (rows : list Row.t) :
  0 < n ->
  Executor.apply_limit (Some n) rows = take (Z.to_nat n) rows /\
  length (Executor.apply_limit (Some n) rows) = Nat.min (Z.to_nat n) (length rows).
Proof.
  intros Hn. unfold Executor.apply_limit.
  destruct (Z.eqb_spec n 0) as [->|_]; [lia|]. cbn [negb].
  unfold slice_to, slice_bound, norm_index.
  destruct (Z.ltb_spec n 0); [lia|].
  split.
  - destruct (Z.le_gt_cases n (Z.of_nat (length rows))).
    + f_equal. lia.
    + rewrite !take_ge by lia. reflexivity.
  - rewrite length_take. lia.
Qed.

(** C5: [LIMIT 0] on a table of six rows returns all six rows, not
    [min(0, 6) = 0]: the test [if parsed["limit"]] takes 0 for "no LIMIT". *)
Theorem limit_zero_returns_every_row :
  (rows ← Executor.select_rows Samples.census Samples.people (Samples.select_limit 0);
   Ok (length rows)) = Ok 6%nat /\
  (Executor.row_count <$> Executor._execute_select Samples.census (Samples.select_limit 0))
  = Ok 6%nat /\
  forall rows, Executor.apply_limit (Some 0) rows = rows.
Proof. split; [|split]; [vm_compute; reflexivity ..| reflexivity]. Qed.

(** ** Snapshots *)

(** C3: the row of [events] holds a [datetime]; after [save] and [load] into
    a fresh instance the same cell holds the string ['2024-01-15 10:30:00'],
    so the loaded database differs from the saved one. *)
Theorem snapshot_round_trip_turns_datetime_into_text (now : string) :
  Samples.cell Samples.calendar "events" 0 "at"
  = Some (VDatetime (DateTime 2024 1 15 10 30 0 0)) /\
  exists db',
    Snapshot.open "calendar" (Some (Snapshot.save Samples.calendar now)) = Ok db' /\
    Samples.cell db' "events" 0 "at" = Some (VStr "2024-01-15 10:30:00") /\
    db' <> Samples.calendar.
Proof.
  split; [vm_compute; reflexivity|].
  eexists. split; [vm_compute; reflexivity|].
  split; [vm_compute; reflexivity|].
  intros Heq. apply (f_equal (fun db => Samples.cell db "events" 0 "at")) in Heq.
  vm_compute in Heq. discriminate.
Qed.

(** ** Columns: dictionaries, VARCHAR and BOOLEAN *)

(** X1: [Column.from_dict] undoes [Column.to_dict]; through the JSON text
    of a snapshot this still holds when the default is not a [datetime]. *)
Theorem column_dict_round_trip `{PyBuiltins} (c : Column.t) :
  Snapshot.column_from_dict (Snapshot.column_to_dict c) = Ok c /\
  ((forall d, Column.default c <> VDatetime d) ->
   Snapshot.column_from_dict (Snapshot.json_column (Snapshot.column_to_dict c)) = Ok c).
Proof.
  assert (Hty : forall ty, Snapshot.DataType_of_string (DataType_value ty) = Ok ty)
    by (intros []; reflexivity).
  destruct c as [name ty len nullable pk uniq def].
  unfold Snapshot.column_from_dict, Snapshot.json_column, Snapshot.column_to_dict.
  cbn. rewrite Hty. cbn. split; [reflexivity|].
  intros Hdef. destruct def; try reflexivity. exfalso. eapply Hdef. reflexivity.
Qed.

Lemma column_dict_round_trip_witness :
  let c := Column.Make "name" VARCHAR (Some 5) false false false (VStr "n/a") in
  Snapshot.column_from_dict (Snapshot.json_column (Snapshot.column_to_dict c)) = Ok c.
Proof.
  intros c. apply (proj2 (column_dict_round_trip c)). intros d. discriminate.
Defined.

(** X2: a VARCHAR column accepts a non-NULL value exactly when it has no
    length, or length 0, or [str(value)] is at most [length] characters
    long: [VARCHAR(0)] checks nothing. *)
Theorem varchar_validate `{PyBuiltins} (c : Column.t) (v : Value) :
  Column.data_type c = VARCHAR ->
  v <> VNone ->
  (exists r, Column.validate c v = Ok r) /\
  (Column.validate c v = Ok (true, None) <->
   match Column.length c with
   | None => True
   | Some n => n = 0 \/ Z.of_nat (String.length (py_str v)) <= n
   end).
Proof.
  intros Hty Hv.
  assert (Hval : Column.validate c v =
    match Column.length c with
    | Some len =>
        if negb (len =? 0) && (len <? Z.of_nat (String.length (py_str v)))
        then Ok (false, Some ("Value exceeds maximum length " +:+ pretty len
                              +:+ " for column '" +:+ Column.name c +:+ "'"))
        else Ok (true, None)
    | None => Ok (true, None)
    end).
  { unfold Column.validate, Column.convert. rewrite Hty.
    destruct v; try congruence; reflexivity. }
  rewrite Hval. destruct (Column.length c) as [n|]; [|split; [eauto|tauto]].
  destruct (Z.eqb_spec n 0) as [Hn|Hn]; cbn [negb andb]; [split; [eauto|tauto]|].
  destruct (Z.ltb_spec n (Z.of_nat (String.length (py_str v)))).
  - split; [eauto|]. split; [discriminate|]. intros [?|?]; lia.
  - split; [eauto|]. split; [right; lia|reflexivity].
Qed.

Lemma varchar_validate_witness :
  Column.validate (Column.Make "name" VARCHAR (Some 0) false false false VNone)
                  (VStr "a long text") = Ok (true, None).
Proof.
  apply (varchar_validate (Column.Make "name" VARCHAR (Some 0) false false false VNone)
                          (VStr "a long text")); [reflexivity|discriminate|].
  left. reflexivity.
Defined.

(** A BOOLEAN column never rejects a non-NULL value: [convert] always
    returns a bool, and for a string it is [True] exactly when the lowered
    text is one of true, 1, yes, t. *)
Theorem boolean_accepts_every_value `{PyBuiltins} (c : Column.t) (v : Value) :
  Column.data_type c = BOOLEAN ->
  v <> VNone ->
  Column.validate c v = Ok (true, None) /\
  (exists b, Column.convert c v = Ok (VBool b)) /\
  (forall s, v = VStr s ->
     Column.convert c v = Ok (VBool (bool_decide (str_lower s ∈ ["true"; "1"; "yes"; "t"])))).
Proof.
  intros Hty Hv. unfold Column.validate, Column.convert. rewrite Hty.
  destruct v; try congruence; cbn; (split; [reflexivity|]);
    (split; [eauto|]); intros s' [= <-]; reflexivity.
Qed.

Lemma boolean_accepts_every_value_witness :
  Column.validate (Column.Make "active" BOOLEAN None false false false VNone)
                  (VStr "maybe") = Ok (true, None).
Proof.
  apply (boolean_accepts_every_value
           (Column.Make "active" BOOLEAN None false false false VNone) (VStr "maybe"));
    [reflexivity|discriminate].
Defined.

(** ** The tokenizer: results, token shapes, literals and comments *)

Module LexerFacts.
Import Tokenizer TokenShape.

Lemma loop_error (f : nat) (st : state) (e : PyError) :
  tokenize_loop f st = Some (Err e) ->
  exists st', query st' = query st /\ body st' = Err e.
Proof.
  revert st. induction f as [|f IH]; intros st; [discriminate|].
  cbn [tokenize_loop].
  destruct (Nat.ltb_spec (pos st) (length (query st))) as [Hlt|]; [|discriminate].
  destruct (body st) as [st'|e'] eqn:Hbody.
  - intros Hr. destruct (IH st' Hr) as (st2 & Hq & Hb).
    exists st2. split; [|exact Hb].
    rewrite Hq. apply (TokenizerFacts.body_advances st st' Hlt Hbody).
  - intros [= ->]. eauto.
Qed.

Lemma count_while_stop (p : ascii -> bool) (l : list ascii) (c : ascii) :
  l !! count_while p l = Some c -> p c = false.
Proof.
  induction l as [|a l IH]; [discriminate|]. cbn [count_while].
  destruct (p a) eqn:Hp; cbn; [exact IH|]. intros [= <-]. exact Hp.
Qed.

Lemma count_while_all (p : ascii -> bool) (l : list ascii) :
  forallb p (take (count_while p l) l) = true.
Proof.
  induction l as [|a l IH]; [reflexivity|]. cbn [count_while].
  destruct (p a) eqn:Hp; cbn; [|reflexivity]. rewrite Hp. exact IH.
Qed.

Lemma count_while_forallb (p : ascii -> bool) (l tail : list ascii) :
  forallb p l = true ->
  match tail with c :: _ => p c = false | [] => True end ->
  count_while p (l ++ tail) = length l.
Proof.
  intros Hl Ht. induction l as [|a l IH]; cbn.
  - destruct tail as [|c tail]; [reflexivity|]. cbn. rewrite Ht. reflexivity.
  - cbn in Hl. apply andb_true_iff in Hl as [-> Hl]. rewrite (IH Hl). reflexivity.
Qed.

Lemma scan_while_stop (p : ascii -> bool) (st : state) (c : ascii) :
  query (scan_while p st) !! pos (scan_while p st) = Some c -> p c = false.
Proof.
  unfold scan_while, set_pos. cbn. rewrite <- lookup_drop. apply count_while_stop.
Qed.

Lemma body_error (st : state) (e : PyError) :
  body st = Err e ->
  exists c, c ∈ query st /\ lexical c = false /\
    e = ValueError ("Unexpected character: " +:+ String c EmptyString).
Proof.
  unfold body.
  destruct (TokenizerFacts.scan_while_query isspace st) as (Hq & Hp & _).
  pose proof (scan_while_stop isspace st) as Hstop.
  fold (_skip_whitespace st) in Hq, Hp, Hstop.
  revert Hq Hp Hstop. generalize (_skip_whitespace st). intros st1 Hq Hp Hstop.
  destruct (query st1 !! pos st1) as [char|] eqn:Hchar; [|discriminate].
  destruct (is_char "-" char && bool_decide _) eqn:Hcomment; [discriminate|].
  destruct (is_quote char) eqn:Hquote; [discriminate|].
  destruct (isdigit char || _) eqn:Hnum; [discriminate|].
  destruct (isalpha char || is_char "_" char) eqn:Hid; [discriminate|].
  destruct (char_in char _) eqn:Hop; [discriminate|].
  intros [= <-]. exists char. split; [|split; [|reflexivity]].
  - rewrite <- Hq. eapply list_elem_of_lookup_2. exact Hchar.
  - apply orb_false_iff in Hnum as [Hd _], Hid as [Ha Hu].
    unfold lexical. rewrite (Hstop char eq_refl), Hquote, Hd, Ha, Hu, Hop. reflexivity.
Qed.

Lemma tokenize_some (q : string) :
  is_Some (tokenize_loop (S (String.length q)) (init q)).
Proof.
  apply TokenizerFacts.tokenize_loop_fuel. cbn.
  rewrite TokenizerFacts.length_list_ascii. lia.
Qed.

Lemma list_ascii_string (l : list ascii) :
  list_ascii_of_string (string_of_list_ascii l) = l.
Proof. apply list_ascii_of_string_of_list_ascii. Qed.

Lemma string_in_cases (s : string) (l : list string) (P : string -> Prop) :
  Forall P l -> string_in s l = true -> P s.
Proof.
  intros Hall Hin. apply bool_decide_eq_true in Hin.
  rewrite Forall_forall in Hall. auto.
Qed.

Lemma char_in_cases (c : ascii) (s : string) (P : ascii -> Prop) :
  Forall P (list_ascii_of_string s) -> char_in c s = true -> P c.
Proof.
  intros Hall Hin. apply bool_decide_eq_true in Hin.
  rewrite Forall_forall in Hall. auto.
Qed.

Lemma read_operator_shape (char : ascii) (st : state) :
  char_in char "(),;=<>!*." = true ->
  well_formed (snd (_read_operator char st)) = true.
Proof.
  intros Hop. unfold _read_operator. cbn [pos query set_pos].
  assert (Hsingle : well_formed
            (MkToken (if char_in char "=<>!" then OPERATOR else PUNCT)
                     (String char EmptyString)) = true).
  { revert Hop.
    apply (char_in_cases char "(),;=<>!*."
             (fun c => well_formed (MkToken (if char_in c "=<>!" then OPERATOR else PUNCT)
                                            (String c EmptyString)) = true)).
    repeat constructor. }
  destruct (query st !! (pos st + 1)%nat) as [c2|]; [|exact Hsingle].
  destruct (string_in _ _) eqn:Htwo; [|exact Hsingle].
  cbn [snd]. revert Htwo.
  apply (string_in_cases _ _ (fun s => well_formed (MkToken OPERATOR s) = true)).
  repeat constructor.
Qed.

Lemma read_identifier_shape (char : ascii) (st : state) :
  query st !! pos st = Some char ->
  isalpha char || is_char "_" char = true ->
  well_formed (snd (_read_identifier st)) = true.
Proof.
  intros Hchar Hid. unfold _read_identifier.
  destruct (string_in _ _) eqn:Hkw; cbn [snd]; [exact Hkw|].
  unfold well_formed. cbn [type value]. rewrite Hkw. cbn [negb andb].
  unfold slice, scan_while, set_pos. cbn [pos query].
  rewrite list_ascii_string.
  replace (pos st + _ - pos st)%nat
    with (count_while (fun c => isalnum c || is_char "_" c) (drop (pos st) (query st)))
    by lia.
  rewrite (count_while_all (fun c => isalnum c || is_char "_" c)). cbn [andb].
  rewrite (drop_S _ _ _ Hchar). cbn [count_while].
  assert (Hal : isalnum char || is_char "_" char = true).
  { unfold isalnum. apply orb_true_iff in Hid as [->| ->]; [reflexivity|].
    apply orb_true_r. }
  rewrite Hal. cbn. exact Hid.
Qed.

Lemma read_number_shape (char : ascii) (st : state) :
  query st !! pos st = Some char ->
  isdigit char ||
    (is_char "-" char && from_option isdigit false (query st !! (pos st + 1)%nat)) = true ->
  well_formed (snd (_read_number st)) = true.
Proof.
  intros Hchar Hnum. unfold _read_number. cbn [snd].
  unfold well_formed. cbn [type value]. unfold slice. rewrite list_ascii_string.
  rewrite Hchar.
  assert (Hdigits : forall i d, query st !! i = Some d -> isdigit d = true ->
            digits (take (count_while (fun c => isdigit c || is_char "." c)
                            (drop i (query st))) (drop i (query st))) = true).
  { intros i d Hd Hdig. rewrite (drop_S _ _ _ Hd). cbn [count_while].
    rewrite Hdig. cbn. rewrite Hdig. cbn [andb].
    apply (count_while_all (fun c => isdigit c || is_char "." c)). }
  destruct (bool_decide_reflect (Some char = Some "-"%char)) as [[= ->]|Hne].
  - cbn in Hnum. destruct (query st !! (pos st + 1)%nat) as [d|] eqn:Hd; [|discriminate].
    cbn in Hnum. unfold scan_while, set_pos. cbn [pos query].
    replace (pos st + 1 + _ - pos st)%nat
      with (S (count_while (fun c => isdigit c || is_char "." c)
                 (drop (pos st + 1) (query st)))) by lia.
    rewrite (drop_S _ _ _ Hchar). cbn [take].
    replace (S (pos st)) with (pos st + 1)%nat by lia.
    rewrite (Hdigits _ _ Hd Hnum). apply orb_true_r.
  - assert (Hdig : isdigit char = true).
    { apply orb_true_iff in Hnum as [Hd|Hd]; [exact Hd|].
      apply andb_true_iff in Hd as [Hd _].
      apply bool_decide_eq_true in Hd. congruence. }
    unfold scan_while, set_pos. cbn [pos query].
    replace (pos st + _ - pos st)%nat
      with (count_while (fun c => isdigit c || is_char "." c) (drop (pos st) (query st)))
      by lia.
    rewrite (Hdigits _ _ Hchar Hdig). reflexivity.
Qed.

Lemma body_shape (st st' : state) :
  body st = Ok st' ->
  Forall (fun tok => well_formed tok = true) (tokens st) ->
  Forall (fun tok => well_formed tok = true) (tokens st').
Proof.
  unfold body.
  destruct (TokenizerFacts.scan_while_query isspace st) as (_ & _ & Ht).
  fold (_skip_whitespace st) in Ht.
  revert Ht. generalize (_skip_whitespace st). intros st1 Ht.
  destruct (query st1 !! pos st1) as [char|] eqn:Hchar.
  2:{ intros [= <-]. rewrite Ht. auto. }
  destruct (is_char "-" char && bool_decide _).
  { intros [= <-]. unfold _skip_comment, scan_while, set_pos. cbn. rewrite Ht. auto. }
  assert (Hpush : forall r, fst (B := Token) r = fst r ->
            tokens (fst r) = tokens st1 -> well_formed (snd r) = true ->
            Forall (fun tok => well_formed tok = true) (tokens st) ->
            Forall (fun tok => well_formed tok = true) (tokens (push r))).
  { intros r _ Hr Hw Hall. unfold push, append. cbn. rewrite Hr, Ht.
    apply Forall_app. split; [exact Hall|]. constructor; [exact Hw|constructor]. }
  destruct (is_quote char).
  { intros [= <-]. apply Hpush; reflexivity. }
  destruct (isdigit char || _) eqn:Hnum.
  { intros [= <-]. apply Hpush; [reflexivity| |eapply read_number_shape; eassumption].
    unfold _read_number. cbn. destruct (bool_decide _); reflexivity. }
  destruct (isalpha char || is_char "_" char) eqn:Hid.
  { intros [= <-]. apply Hpush; [reflexivity| |eapply read_identifier_shape; eassumption].
    unfold _read_identifier. destruct (string_in _ _); reflexivity. }
  destruct (char_in char _) eqn:Hop; [|discriminate].
  intros [= <-]. apply Hpush; [reflexivity| |apply read_operator_shape; exact Hop].
  unfold _read_operator. cbn [pos query set_pos].
  destruct (query st1 !! (pos st1 + 1)%nat); [destruct (string_in _ _)|]; reflexivity.
Qed.

Lemma loop_shape (f : nat) (st st' : state) :
  tokenize_loop f st = Some (Ok st') ->
  Forall (fun tok => well_formed tok = true) (tokens st) ->
  Forall (fun tok => well_formed tok = true) (tokens st').
Proof.
  revert st. induction f as [|f IH]; intros st; [discriminate|].
  cbn [tokenize_loop]. destruct (_ <? _)%nat; [|intros [= <-]; auto].
  destruct (body st) as [st1|e] eqn:Hbody; [|discriminate].
  intros Hr Hall. apply (IH st1 Hr). apply (body_shape st st1 Hbody Hall).
Qed.

(** What [tokenize] returns when the first iteration reads the whole query. *)
Lemma tokenize_one_step (l : list ascii) (final : state) :
  l <> [] ->
  body (init (string_of_list_ascii l)) = Ok final ->
  (length l <= pos final)%nat ->
  tokenize (string_of_list_ascii l) = Some (Ok (tokens final)).
Proof.
  intros Hl Hbody Hpos. unfold tokenize.
  rewrite (TokenizerFacts.tokenize_from_head _ (init (string_of_list_ascii l)) 2 (Ok final));
    [reflexivity|apply head_init|].
  assert (Hlt : (pos (init (string_of_list_ascii l))
                  < length (query (init (string_of_list_ascii l))))%nat).
  { cbn. rewrite list_ascii_string. destruct l; [congruence|cbn; lia]. }
  destruct (TokenizerFacts.body_advances _ _ Hlt Hbody) as [Hq _].
  cbn [init query] in Hq. rewrite list_ascii_string in Hq.
  cbn [tokenize_loop]. apply Nat.ltb_lt in Hlt. rewrite Hlt, Hbody, Hq.
  destruct (Nat.ltb_spec (pos final) (length l)); [lia|reflexivity].
Qed.

Lemma scan_string_body (quote : ascii) (s tail : list ascii) :
  string_body quote s = true ->
  scan_string quote (s ++ quote :: tail) = length s.
Proof.
  assert (Hle : (length s <= length s)%nat) by lia. revert Hle.
  generalize (length s) at 2. intros n. revert s.
  induction n as [|n IH]; intros s Hle.
  - destruct s; [|cbn in Hle; lia]. intros _. cbn. unfold is_char.
    rewrite bool_decide_eq_true_2 by reflexivity. reflexivity.
  - destruct s as [|c s']. 
    { intros _. cbn. unfold is_char.
      rewrite bool_decide_eq_true_2 by reflexivity. reflexivity. }
    cbn [string_body app scan_string].
    destruct (is_char quote c); [discriminate|].
    destruct (is_char "\" c).
    + destruct s' as [|c' s'']; [discriminate|]. intros Hb.
      cbn [app length] in *. rewrite (IH s'' ltac:(lia) Hb). reflexivity.
    + intros Hb. cbn [length] in *. rewrite (IH s' ltac:(lia) Hb). reflexivity.
Qed.

Lemma skip_whitespace_none (c : ascii) (l : list ascii) (toks : list Token) :
  isspace c = false ->
  _skip_whitespace (MkState (c :: l) 0 toks) = MkState (c :: l) 0 toks.
Proof.
  intros Hc. unfold _skip_whitespace, scan_while, set_pos. cbn. rewrite Hc. reflexivity.
Qed.

Lemma quote_cases (quote : ascii) (P : ascii -> Prop) :
  P squote -> P dquote -> is_quote quote = true -> P quote.
Proof.
  intros Hs Hd. unfold is_quote, is_char.
  destruct (bool_decide_reflect (quote = squote)) as [->|_]; [auto|].
  destruct (bool_decide_reflect (quote = dquote)) as [->|_]; [auto|discriminate].
Qed.

End LexerFacts.

(** X3: [tokenize] always returns; the only exception it raises is
    ValueError "Unexpected character" for a character of the query that is
    no whitespace, quote, digit, letter, underscore or one of
    [(),;=<>!*.], so a query made of such characters only is tokenized. *)
Theorem tokenize_only_rejects_unexpected_characters (q : string) :
  exists r, Tokenizer.tokenize q = Some r /\
    (forall e, r = Err e ->
       exists c, c ∈ list_ascii_of_string q /\ TokenShape.lexical c = false /\
         e = ValueError ("Unexpected character: " +:+ String c EmptyString)) /\
    (forallb TokenShape.lexical (list_ascii_of_string q) = true ->
     exists toks, r = Ok toks).
Proof.
  destruct (LexerFacts.tokenize_some q) as [r Hr].
  assert (Herr : forall e, r = Err e ->
            exists c, c ∈ list_ascii_of_string q /\ TokenShape.lexical c = false /\
              e = ValueError ("Unexpected character: " +:+ String c EmptyString)).
  { intros e ->. apply LexerFacts.loop_error in Hr as (st' & Hq & Hbody).
    apply LexerFacts.body_error in Hbody as (c & Hc & Hlex & He).
    exists c. rewrite Hq in Hc. auto. }
  exists (Tokenizer.tokens <$> r). unfold Tokenizer.tokenize. rewrite Hr.
  split; [reflexivity|]. split.
  - intros e He. destruct r as [st|e']; [discriminate|]. injection He as ->. eauto.
  - intros Hall. destruct r as [st|e]; [cbn; eauto|].
    destruct (Herr e eq_refl) as (c & Hc & Hlex & _).
    rewrite forallb_forall in Hall. apply list_elem_of_In in Hc.
    rewrite (Hall c Hc) in Hlex. discriminate.
Qed.

(** X4: every token [tokenize] returns for a query of ASCII characters
    (on which Python's character classes are the ones of the model) has the
    shape of its type: a KEYWORD is one of KEYWORDS (in upper case), an
    IDENTIFIER is a name of ASCII letters, digits and underscores that is
    not a keyword in any case, a NUMBER is ASCII digits and dots after an
    optional minus sign, an OPERATOR or PUNCT is one of the fixed symbols. *)
Theorem tokenize_token_shapes (q : string) (toks : list Tokenizer.Token) :
  forallb TokenShape.isascii (list_ascii_of_string q) = true ->
  Tokenizer.tokenize q = Some (Ok toks) ->
  Forall (fun tok => TokenShape.well_formed tok = true) toks.
Proof.
  intros _. unfold Tokenizer.tokenize.
  destruct (Tokenizer.tokenize_loop _ _) as [[st|e]|] eqn:Hloop; try discriminate.
  intros [= <-]. apply (LexerFacts.loop_shape _ _ _ Hloop). constructor.
Qed.

Lemma tokenize_token_shapes_witness :
  Forall (fun tok => TokenShape.well_formed tok = true)
    [Tokenizer.MkToken Tokenizer.KEYWORD "SELECT"; Tokenizer.MkToken Tokenizer.PUNCT "*";
     Tokenizer.MkToken Tokenizer.KEYWORD "FROM"; Tokenizer.MkToken Tokenizer.IDENTIFIER "t"].
Proof.
  apply (tokenize_token_shapes "select * from t"); vm_compute; reflexivity.
Defined.

(** X5: a query that is one quoted text, with no unescaped quote of the
    same kind inside and no backslash at its end, gives one STRING token
    holding the text as written: backslash escapes are kept, not removed. *)
Theorem tokenize_string_literal (quote : ascii) (s : list ascii) :
  Tokenizer.is_quote quote = true ->
  TokenShape.string_body quote s = true ->
  Tokenizer.tokenize (string_of_list_ascii (quote :: s ++ [quote]))
  = Some (Ok [Tokenizer.MkToken Tokenizer.STRING (string_of_list_ascii s)]).
Proof.
  intros Hquote Hbody.
  set (final := Tokenizer.MkState (quote :: s ++ [quote]) (0 + 1 + length s + 1)
                  [Tokenizer.MkToken Tokenizer.STRING (string_of_list_ascii s)]).
  apply (LexerFacts.tokenize_one_step (quote :: s ++ [quote]) final); [discriminate| |].
  2:{ cbn. rewrite length_app. cbn. lia. }
  unfold Tokenizer.init. rewrite LexerFacts.list_ascii_string.
  assert (Hs : Tokenizer.isspace quote = false)
    by (revert Hquote;
        apply (LexerFacts.quote_cases quote (fun c => Tokenizer.isspace c = false));
        reflexivity).
  assert (Hd : Tokenizer.is_char "-" quote = false)
    by (revert Hquote;
        apply (LexerFacts.quote_cases quote (fun c => Tokenizer.is_char "-" c = false));
        reflexivity).
  unfold Tokenizer.body. rewrite (LexerFacts.skip_whitespace_none _ _ _ Hs).
  cbn [Tokenizer.pos Tokenizer.query Tokenizer.tokens Nat.add lookup list_lookup].
  rewrite Hd, Hquote. cbn [andb].
  unfold Tokenizer.push, Tokenizer._read_string, Tokenizer.append, Tokenizer.set_pos.
  cbn [fst snd Tokenizer.query Tokenizer.pos Tokenizer.tokens Nat.add drop app].
  rewrite drop_0, (LexerFacts.scan_string_body quote s [] Hbody).
  unfold final, Tokenizer.slice. cbn [Nat.add drop]. rewrite drop_0.
  replace (S (length s) - 1)%nat with (length s) by lia.
  rewrite take_app_length. reflexivity.
Qed.

Lemma tokenize_string_literal_witness :
  Tokenizer.tokenize "'it\'s'"
  = Some (Ok [Tokenizer.MkToken Tokenizer.STRING "it\'s"]).
Proof.
  exact (tokenize_string_literal Tokenizer.squote (list_ascii_of_string "it\'s")
           eq_refl eq_refl).
Defined.

(** A text of digits and dots that starts with a digit, with or without
    a minus sign before it, is read as one NUMBER token, however many dots
    it has. *)
Theorem tokenize_number (minus : bool) (s : list ascii) :
  TokenShape.digits s = true ->
  let text := (if minus then ["-"%char] else []) ++ s in
  Tokenizer.tokenize (string_of_list_ascii text)
  = Some (Ok [Tokenizer.MkToken Tokenizer.NUMBER (string_of_list_ascii text)]).
Proof.
  intros Hdigits text.
  destruct s as [|d s]; [discriminate|]. cbn in Hdigits.
  apply andb_true_iff in Hdigits as [Hd Hs].
  assert (Hcount : Tokenizer.count_while
            (fun c => Tokenizer.isdigit c || Tokenizer.is_char "." c) (d :: s)
            = length (d :: s)).
  { pose proof (LexerFacts.count_while_forallb
                  (fun c => Tokenizer.isdigit c || Tokenizer.is_char "." c) (d :: s) []) as Hc.
    rewrite app_nil_r in Hc. apply Hc; [|exact I]. cbn. rewrite Hd. exact Hs. }
  assert (Hsp : Tokenizer.isspace d = false).
  { revert Hd. unfold Tokenizer.isdigit, Tokenizer.isspace.
    generalize (Tokenizer.code d). intros n Hn.
    apply andb_true_iff in Hn as [H1 H2]. apply Nat.leb_le in H1, H2.
    apply orb_false_iff. split; apply andb_false_iff.
    - right. apply Nat.leb_gt. lia.
    - right. apply Nat.leb_gt. lia. }
  assert (Hq : Tokenizer.is_quote d = false).
  { destruct (Tokenizer.is_quote d) eqn:Hq; [|reflexivity]. exfalso.
    revert Hd. revert Hq.
    apply (LexerFacts.quote_cases d (fun c => Tokenizer.isdigit c = true -> False));
      discriminate. }
  assert (Hm : Tokenizer.is_char "-" d = false).
  { unfold Tokenizer.is_char. apply bool_decide_eq_false. intros ->. discriminate. }
  set (final := Tokenizer.MkState text (length text)
                  [Tokenizer.MkToken Tokenizer.NUMBER (string_of_list_ascii text)]).
  apply (LexerFacts.tokenize_one_step text final);
    [unfold text; destruct minus; discriminate| |cbn; lia].
  unfold Tokenizer.init. rewrite LexerFacts.list_ascii_string.
  unfold Tokenizer.body, final, text. destruct minus; cbn [app].
  - rewrite LexerFacts.skip_whitespace_none by reflexivity.
    cbn [Tokenizer.pos Tokenizer.query Tokenizer.tokens Nat.add lookup list_lookup
         from_option].
    change (Tokenizer.is_char "-" "-") with true.
    rewrite bool_decide_eq_false_2 by (intros [= ->]; discriminate).
    change (Tokenizer.is_quote "-") with false.
    change (Tokenizer.isdigit "-") with false. rewrite Hd. cbn [andb orb].
    f_equal. unfold Tokenizer.push, Tokenizer._read_number, Tokenizer.append.
    cbn [fst snd Tokenizer.query Tokenizer.pos Tokenizer.tokens lookup list_lookup].
    rewrite bool_decide_eq_true_2 by reflexivity.
    unfold Tokenizer.scan_while, Tokenizer.set_pos, Tokenizer.slice.
    cbn [Tokenizer.query Tokenizer.pos Nat.add drop app]. rewrite ?drop_0, Hcount.
    rewrite take_ge by (cbn; lia). reflexivity.
  - rewrite LexerFacts.skip_whitespace_none by exact Hsp.
    cbn [Tokenizer.pos Tokenizer.query Tokenizer.tokens Nat.add lookup list_lookup].
    rewrite Hm, Hq, Hd. cbn [andb orb].
    f_equal. unfold Tokenizer.push, Tokenizer._read_number, Tokenizer.append.
    cbn [fst snd Tokenizer.query Tokenizer.pos Tokenizer.tokens lookup list_lookup].
    rewrite bool_decide_eq_false_2 by (intros [= ->]; discriminate).
    unfold Tokenizer.scan_while, Tokenizer.set_pos, Tokenizer.slice.
    cbn [Tokenizer.query Tokenizer.pos Nat.add drop app]. rewrite ?drop_0, Hcount.
    rewrite take_ge by (cbn; lia). reflexivity.
Qed.

Lemma tokenize_number_witness :
  Tokenizer.tokenize "-1.2.3"
  = Some (Ok [Tokenizer.MkToken Tokenizer.NUMBER "-1.2.3"]).
Proof.
  exact (tokenize_number true (list_ascii_of_string "1.2.3") eq_refl).
Defined.

(** A query that is only a comment (optional whitespace, two dashes,
    any text without a line break) has no tokens. *)
Theorem tokenize_comment_only (ws text : list ascii) :
  forallb Tokenizer.isspace ws = true ->
  "010"%char ∉ text ->
  Tokenizer.tokenize (string_of_list_ascii (ws ++ "-"%char :: "-"%char :: text))
  = Some (Ok []).
Proof.
  intros Hws Htext.
  set (q := ws ++ "-"%char :: "-"%char :: text).
  set (final := Tokenizer.MkState q (length q) []).
  apply (LexerFacts.tokenize_one_step q final);
    [unfold q; destruct ws; discriminate| |cbn; lia].
  unfold Tokenizer.init. rewrite LexerFacts.list_ascii_string.
  assert (Hcount : Tokenizer.count_while Tokenizer.isspace q = length ws).
  { apply LexerFacts.count_while_forallb; [exact Hws|reflexivity]. }
  assert (H0 : q !! length ws = Some "-"%char).
  { apply list_lookup_middle. reflexivity. }
  assert (H1 : q !! (length ws + 1)%nat = Some "-"%char).
  { unfold q. rewrite lookup_app_r by lia.
    replace (length ws + 1 - length ws)%nat with 1%nat by lia. reflexivity. }
  assert (Hdrop : drop (length ws) q = "-"%char :: "-"%char :: text).
  { apply drop_app_length. }
  unfold Tokenizer.body, Tokenizer._skip_whitespace, Tokenizer.scan_while, Tokenizer.set_pos.
  cbn [Tokenizer.pos Tokenizer.query Tokenizer.tokens Nat.add]. rewrite drop_0.
  rewrite Hcount, H0, H1.
  rewrite bool_decide_eq_true_2 by reflexivity.
  change (Tokenizer.is_char "-" "-") with true. cbn [andb]. f_equal.
  unfold Tokenizer._skip_comment, Tokenizer.scan_while, Tokenizer.set_pos, final.
  cbn [Tokenizer.pos Tokenizer.query Tokenizer.tokens]. f_equal.
  rewrite Hdrop.
  pose proof (LexerFacts.count_while_forallb
                (fun c => negb (Tokenizer.is_char "010" c))
                ("-"%char :: "-"%char :: text) []) as Hc.
  rewrite app_nil_r in Hc. rewrite Hc; [| |exact I].
  - unfold q. rewrite length_app. reflexivity.
  - cbn. apply forallb_forall. intros c Hc'. unfold Tokenizer.is_char.
    apply negb_true_iff, bool_decide_eq_false. intros ->.
    apply Htext. apply list_elem_of_In. exact Hc'.
Qed.

Lemma tokenize_comment_only_witness :
  Tokenizer.tokenize " -- nothing here" = Some (Ok []).
Proof.
  apply (tokenize_comment_only (list_ascii_of_string " ")
           (list_ascii_of_string " nothing here")); [reflexivity|].
  intros Hin. apply list_elem_of_In in Hin. cbn in Hin.
  repeat (destruct Hin as [Hin|Hin]; [discriminate|]). exact Hin.
Defined.

(** ** Equality of values *)

Module ValueFacts.
Import FloatScale.

Lemma Zcompare_trans (x y z : Z) (r : comparison) :
  (x ?= y) = r -> (y ?= z) = r -> (x ?= z) = r.
Proof.
  destruct (Z.compare_spec x y), (Z.compare_spec y z); intros <- ?;
    try discriminate;
    [apply Z.compare_eq_iff|apply Z.compare_lt_iff|apply Z.compare_gt_iff]; lia.
Qed.

Lemma lex_compare_trans (a b c : list Z) (r : comparison) :
  lex_compare a b = r -> lex_compare b c = r -> lex_compare a c = r.
Proof.
  revert b c. induction a as [|x a IH]; intros [|y b] [|z c]; cbn [lex_compare];
    try congruence.
  destruct (Z.compare_spec x y) as [->|Hxy|Hxy].
  - destruct (y ?= z); [apply IH|congruence..].
  - intros <-. destruct (Z.compare_spec y z) as [->|Hyz|Hyz]; try discriminate.
    + intros _. rewrite (proj2 (Z.compare_lt_iff x z)) by lia. reflexivity.
    + intros _. rewrite (proj2 (Z.compare_lt_iff x z)) by lia. reflexivity.
  - intros <-. destruct (Z.compare_spec y z) as [->|Hyz|Hyz]; try discriminate.
    + intros _. rewrite (proj2 (Z.compare_gt_iff x z)) by lia. reflexivity.
    + intros _. rewrite (proj2 (Z.compare_gt_iff x z)) by lia. reflexivity.
Qed.

Lemma lex_compare_refl (a : list Z) : lex_compare a a = Eq.
Proof. induction a as [|x a IH]; cbn; [reflexivity|]. rewrite Z.compare_refl. exact IH. Qed.

Lemma float_compare_scaled (a b : pyfloat) (m : Z) :
  m <= fexp a -> m <= fexp b ->
  float_compare a b = (scaled a m ?= scaled b m).
Proof.
  intros Ha Hb. unfold float_compare, scaled.
  set (e := Z.min (fexp a) (fexp b)).
  assert (He : m <= e) by (unfold e; lia).
  assert (Hea : e <= fexp a) by (unfold e; lia).
  assert (Heb : e <= fexp b) by (unfold e; lia).
  replace (fexp a - m) with ((fexp a - e) + (e - m)) by lia.
  replace (fexp b - m) with ((fexp b - e) + (e - m)) by lia.
  rewrite !Z.pow_add_r by lia. rewrite !Z.mul_assoc.
  apply Zmult_compare_compat_r. apply Z.lt_gt. apply Z.pow_pos_nonneg; lia.
Qed.

Lemma float_compare_trans (a b c : pyfloat) (r : comparison) :
  float_compare a b = r -> float_compare b c = r -> float_compare a c = r.
Proof.
  set (m := Z.min (fexp a) (Z.min (fexp b) (fexp c))).
  rewrite (float_compare_scaled a b m), (float_compare_scaled b c m),
    (float_compare_scaled a c m) by (unfold m; lia).
  apply Zcompare_trans.
Qed.

Lemma float_compare_refl (a : pyfloat) : float_compare a a = Eq.
Proof. unfold float_compare. apply Z.compare_refl. Qed.

Lemma py_compare_trans (a b c : Value) (r : comparison) :
  py_compare a b = Some r -> py_compare b c = Some r -> py_compare a c = Some r.
Proof.
  unfold py_compare.
  destruct (as_number a) as [x|] eqn:Ha, (as_number b) as [y|] eqn:Hb,
    (as_number c) as [z|] eqn:Hc;
    try (destruct a, b, c; discriminate).
  - intros [= H1] [= H2]. f_equal. exact (float_compare_trans x y z r H1 H2).
  - destruct a, b, c; try discriminate;
      intros H1%(inj Some) H2%(inj Some); f_equal;
      exact (lex_compare_trans _ _ _ r H1 H2).
Qed.

Lemma py_eq_refl (a : Value) : py_eq a a = true.
Proof.
  destruct a; unfold py_eq, py_compare; cbn [as_number];
    rewrite ?float_compare_refl, ?lex_compare_refl; reflexivity.
Qed.

Lemma py_eq_compare (a b : Value) :
  py_eq a b = true <-> (a = VNone /\ b = VNone) \/ py_compare a b = Some Eq.
Proof.
  assert (Hgen : forall o : option comparison,
            match o with Some Eq => true | _ => false end = true <-> o = Some Eq).
  { intros [[]|]; split; congruence. }
  unfold py_eq. destruct a; try (rewrite Hgen; split; [tauto|intros [[? ?]|?]; congruence]).
  destruct b; try (rewrite Hgen; split; [tauto|intros [[? ?]|?]; congruence]).
  split; auto.
Qed.

Lemma py_eq_sym (a b : Value) : py_eq a b = py_eq b a.
Proof.
  unfold py_eq. rewrite (py_compare_antisym a b).
  destruct a, b; try reflexivity; destruct (py_compare _ _) as [[]|]; reflexivity.
Qed.

Lemma py_eq_trans (a b c : Value) :
  py_eq a b = true -> py_eq b c = true -> py_eq a c = true.
Proof.
  rewrite !py_eq_compare. intros [[Ha Hb]|Hab] [[Hb' Hc]|Hbc].
  - left. auto.
  - subst. discriminate.
  - subst. destruct a; discriminate.
  - right. exact (py_compare_trans a b c Eq Hab Hbc).
Qed.

(** Equal keys are interchangeable on either side of [==]. *)
Lemma py_eq_left (a b c : Value) : py_eq a b = true -> py_eq a c = py_eq b c.
Proof.
  intros Hab. destruct (py_eq b c) eqn:Hbc.
  - exact (py_eq_trans a b c Hab Hbc).
  - destruct (py_eq a c) eqn:Hac; [|reflexivity].
    rewrite py_eq_sym in Hab. rewrite <- Hbc. symmetry.
    exact (py_eq_trans b a c Hab Hac).
Qed.

Lemma py_eq_right (a b c : Value) : py_eq a b = true -> py_eq c a = py_eq c b.
Proof. intros Hab. rewrite (py_eq_sym c a), (py_eq_sym c b). apply py_eq_left, Hab. Qed.

End ValueFacts.

(** ** The hash index *)

Module SimpleFacts.
Import SimpleIndex SimpleInv ValueFacts.

Lemma forallb_congr {A} (f g : A -> bool) (l : list A) :
  (forall x, f x = g x) -> forallb f l = forallb g l.
Proof. intros Hfg. induction l as [|x l IH]; cbn; [reflexivity|]. rewrite Hfg, IH. reflexivity. Qed.

Lemma lookup_store (key key' : Value) (v : list Z) (d : list (Value * list Z)) :
  lookup_key key' (store_key key v d) =
    if py_eq key key' then Some v else lookup_key key' d.
Proof.
  induction d as [|[k v0] d IH]; cbn [store_key lookup_key].
  - destruct (py_eq key key'); reflexivity.
  - destruct (py_eq k key) eqn:Hk; cbn [lookup_key].
    + rewrite (py_eq_left k key key' Hk). destruct (py_eq key key'); reflexivity.
    + destruct (py_eq k key') eqn:Hk'; [|exact IH].
      destruct (py_eq key key') eqn:Hkk; [|reflexivity].
      rewrite (py_eq_right key key' k Hkk) in Hk. congruence.
Qed.

Lemma lookup_congr (key key' : Value) (d : list (Value * list Z)) :
  py_eq key key' = true -> lookup_key key d = lookup_key key' d.
Proof.
  intros Hk. induction d as [|[k v] d IH]; cbn [lookup_key]; [reflexivity|].
  rewrite (py_eq_right key key' k Hk), IH. reflexivity.
Qed.

Lemma lookup_absent (key : Value) (d : list (Value * list Z)) :
  forallb (fun e => negb (py_eq key e.1)) d = true -> lookup_key key d = None.
Proof.
  induction d as [|[k v] d IH]; cbn; [reflexivity|].
  intros [Hk Hd]%andb_true_iff. rewrite py_eq_sym.
  apply negb_true_iff in Hk. rewrite Hk. auto.
Qed.

Lemma lookup_del (key key' : Value) (d : list (Value * list Z)) :
  distinct_keys d = true ->
  lookup_key key' (del_key key d) =
    if py_eq key key' then None else lookup_key key' d.
Proof.
  induction d as [|[k v] d IH]; cbn [del_key lookup_key distinct_keys].
  - destruct (py_eq key key'); reflexivity.
  - intros [Hk Hd]%andb_true_iff. destruct (py_eq k key) eqn:Hkk.
    + rewrite (py_eq_left k key key' Hkk).
      destruct (py_eq key key') eqn:Heq; [|reflexivity].
      apply lookup_absent. rewrite <- Hk. apply forallb_congr. intros [k0 v0].
      cbn. f_equal. symmetry. apply py_eq_left.
      exact (py_eq_trans k key key' Hkk Heq).
    + cbn [lookup_key]. destruct (py_eq k key') eqn:Hk'.
      * destruct (py_eq key key') eqn:Heq; [|reflexivity].
        rewrite (py_eq_right key key' k Heq) in Hkk. congruence.
      * exact (IH Hd).
Qed.

Lemma forallb_store (p : Value -> bool) (key : Value) (v : list Z)
    (d : list (Value * list Z)) :
  p key = true ->
  forallb (fun e => p e.1) d = true ->
  forallb (fun e => p e.1) (store_key key v d) = true.
Proof.
  intros Hkey. induction d as [|[k v0] d IH]; cbn; [rewrite Hkey; reflexivity|].
  intros [Hk Hd]%andb_true_iff. destruct (py_eq k key); cbn; rewrite Hk; auto.
Qed.

Lemma forallb_del (p : Value -> bool) (key : Value) (d : list (Value * list Z)) :
  forallb (fun e => p e.1) d = true ->
  forallb (fun e => p e.1) (del_key key d) = true.
Proof.
  induction d as [|[k v0] d IH]; cbn; [reflexivity|].
  intros [Hk Hd]%andb_true_iff. destruct (py_eq k key); cbn; [exact Hd|].
  rewrite Hk. auto.
Qed.

Lemma distinct_store (key : Value) (v : list Z) (d : list (Value * list Z)) :
  distinct_keys d = true -> distinct_keys (store_key key v d) = true.
Proof.
  induction d as [|[k v0] d IH]; cbn [store_key distinct_keys]; [reflexivity|].
  intros [Hk Hd]%andb_true_iff. destruct (py_eq k key) eqn:Hkk; cbn [distinct_keys].
  - rewrite Hk, Hd. reflexivity.
  - rewrite (IH Hd), andb_true_r.
    apply (forallb_store (fun x => negb (py_eq k x))); [|exact Hk].
    rewrite Hkk. reflexivity.
Qed.

Lemma distinct_del (key : Value) (d : list (Value * list Z)) :
  distinct_keys d = true -> distinct_keys (del_key key d) = true.
Proof.
  induction d as [|[k v0] d IH]; cbn [del_key distinct_keys]; [reflexivity|].
  intros [Hk Hd]%andb_true_iff. destruct (py_eq k key); [exact Hd|].
  cbn [distinct_keys]. rewrite (IH Hd), andb_true_r.
  apply (forallb_del (fun x => negb (py_eq k x))). exact Hk.
Qed.

End SimpleFacts.

(** X6: after [SimpleIndex.insert(key, row)], a search for any key equal
    ([==]) to [key] returns the old result followed by [row], and a search
    for any other key returns what it returned before. *)
Theorem simple_index_insert_search (s : SimpleIndex.t) (key key' : Value) (row : Z) :
  SimpleIndex.search (SimpleIndex.insert s key row) key' =
    if py_eq key key' then SimpleIndex.search s key' ++ [row]
    else SimpleIndex.search s key'.
Proof.
  unfold SimpleIndex.search, SimpleIndex.insert. cbn [SimpleIndex.index].
  rewrite SimpleFacts.lookup_store. destruct (py_eq key key') eqn:Hk; [|reflexivity].
  rewrite (SimpleFacts.lookup_congr key key' _ Hk). reflexivity.
Qed.

(** X7: on an index whose keys are pairwise different, [SimpleIndex.delete(key, row)]
    removes the first occurrence of [row] from the result of a search for a
    key equal to [key] (nothing when [row] is not there: the ValueError is
    swallowed), leaves the other keys alone, and keeps the keys different. *)
Theorem simple_index_delete_search (s : SimpleIndex.t) (key key' : Value) (row : Z) :
  SimpleInv.distinct_keys (SimpleIndex.index s) = true ->
  SimpleIndex.search (SimpleIndex.delete s key row) key' =
    (if py_eq key key' then SimpleInv.without row (SimpleIndex.search s key')
     else SimpleIndex.search s key') /\
  SimpleInv.distinct_keys (SimpleIndex.index (SimpleIndex.delete s key row)) = true.
Proof.
  intros Hd. unfold SimpleIndex.search, SimpleIndex.delete, SimpleInv.without.
  destruct (py_eq key key') eqn:Hk.
  - rewrite <- (SimpleFacts.lookup_congr key key' (SimpleIndex.index s) Hk).
    destruct (SimpleIndex.lookup_key key (SimpleIndex.index s)) as [l|] eqn:Hl;
      [|cbn; rewrite <- (SimpleFacts.lookup_congr key key' _ Hk), Hl; auto].
    cbn [default from_option id].
    destruct (SimpleIndex.list_remove row l) as [[|x l']|] eqn:Hr; cbn.
    + rewrite (SimpleFacts.lookup_del _ _ _ Hd), Hk.
      split; [reflexivity|]. apply SimpleFacts.distinct_del, Hd.
    + rewrite SimpleFacts.lookup_store, Hk.
      split; [reflexivity|]. apply SimpleFacts.distinct_store, Hd.
    + rewrite <- (SimpleFacts.lookup_congr key key' _ Hk), Hl. auto.
  - destruct (SimpleIndex.lookup_key key (SimpleIndex.index s)) as [l|]; [|auto].
    destruct (SimpleIndex.list_remove row l) as [[|x l']|]; cbn; [| |auto].
    + rewrite (SimpleFacts.lookup_del _ _ _ Hd), Hk.
      split; [reflexivity|]. apply SimpleFacts.distinct_del, Hd.
    + rewrite SimpleFacts.lookup_store, Hk.
      split; [reflexivity|]. apply SimpleFacts.distinct_store, Hd.
Qed.

Lemma simple_index_delete_search_witness :
  let s := SimpleIndex.insert (SimpleIndex.insert (SimpleIndex.new "age") (VInt 30) 0)
             (VInt 30) 1 in
  SimpleIndex.search (SimpleIndex.delete s (VFloat (PyFloat 30 0)) 0) (VInt 30) = [1].
Proof.
  intros s.
  exact (proj1 (simple_index_delete_search s (VFloat (PyFloat 30 0)) (VInt 30) 0 eq_refl)).
Defined.

(** ** The entries of the B-tree *)

Module BTreeEntries.
Import BTreeNode BTreeInv BTreeWeight.

Lemma total_app (a b : list BTreeNode.t) : total (a ++ b) = (total a + total b)%nat.
Proof. unfold total. rewrite map_app, concat_app, length_app. reflexivity. Qed.

Lemma total_cons (c : BTreeNode.t) (cs : list BTreeNode.t) :
  total (c :: cs) = (weight c + total cs)%nat.
Proof. unfold total, weight. cbn. rewrite length_app. reflexivity. Qed.

Lemma weight_node (leaf : bool) (es : list (Value * Z)) (cs : list BTreeNode.t) (o : Z) :
  weight (Node leaf es cs o) = (length es + if leaf then 0 else total cs)%nat.
Proof.
  unfold weight, total. cbn [BTreeIndex._collect_entries]. rewrite length_app.
  destruct leaf; reflexivity.
Qed.

Lemma total_lookup (cs : list BTreeNode.t) (i : nat) (c : BTreeNode.t) :
  cs !! i = Some c ->
  total cs = (total (take i cs) + weight c + total (drop (S i) cs))%nat.
Proof.
  intros Hc. rewrite <- (take_drop_middle cs i c Hc) at 1.
  rewrite total_app, total_cons. lia.
Qed.

Lemma total_insert (cs : list BTreeNode.t) (i : nat) (c' : BTreeNode.t) :
  (i < length cs)%nat ->
  total (<[i := c']> cs) = (total (take i cs) + weight c' + total (drop (S i) cs))%nat.
Proof.
  intros Hi. rewrite insert_take_drop by exact Hi.
  rewrite total_app, total_cons. lia.
Qed.

Lemma split_children (cs : list BTreeNode.t) (i : nat) (left right : BTreeNode.t) :
  (i < length cs)%nat ->
  list_insert_at (i + 1) right (<[i := left]> cs)
  = take i cs ++ left :: right :: drop (S i) cs.
Proof.
  intros Hi. unfold list_insert_at. rewrite insert_take_drop by exact Hi.
  replace (i + 1)%nat with (length (take i cs) + 1)%nat at 1 2
    by (rewrite length_take; lia).
  rewrite take_app_add', drop_app_add' by reflexivity.
  cbn. rewrite <- app_assoc. reflexivity.
Qed.

(** What [_split_child] builds from a child that holds at least
    [2 * order - 1] entries. *)
Lemma split_child_eq (ord : Z) (parent : BTreeNode.t) (i : nat)
    (cl : bool) (ces : list (Value * Z)) (ccs : list BTreeNode.t) (co : Z) :
  2 <= ord ->
  children parent !! i = Some (Node cl ces ccs co) ->
  2 * ord - 1 <= Z.of_nat (length ces) ->
  exists m,
    ces !! Z.to_nat ord = Some m /\
    BTreeIndex._split_child ord parent i =
      Ok (Node (is_leaf parent) (list_insert_at i m (entries parent))
            (list_insert_at (i + 1)
               (Node cl (drop (Z.to_nat ord) ces)
                     (if negb cl then drop (Z.to_nat ord) ccs else []) ord)
               (<[i := Node cl (take (Z.to_nat ord - 1) ces)
                         (if negb cl then take (Z.to_nat ord) ccs else ccs) co]>
                  (children parent)))
            (order parent)).
Proof.
  intros Hord Hchild Hfull.
  destruct (lookup_lt_is_Some_2 ces (Z.to_nat ord)) as [m Hm]; [lia|].
  exists m. split; [exact Hm|].
  unfold BTreeIndex._split_child.
  rewrite (BTreeFacts.py_index_lookup _ _ _ Hchild). cbn [mbind result_bind].
  cbn [children entries is_leaf order].
  rewrite !BTreeFacts.slice_from_nonneg, !BTreeFacts.slice_to_nonneg by lia.
  replace (Z.to_nat (ord - 1 + 1)) with (Z.to_nat ord) by lia.
  replace (Z.to_nat (ord - 1)) with (Z.to_nat ord - 1)%nat by lia.
  rewrite length_take.
  destruct (Z.ltb_spec (ord - 1) (Z.of_nat ((Z.to_nat ord - 1) `min` length ces))); [lia|].
  unfold py_getitem, norm_index. cbn [Z.ltb Z.compare]. change (Z.to_nat 0) with O.
  assert (Hm0 : drop (Z.to_nat ord) ces !! O = Some m).
  { rewrite lookup_drop. rewrite Nat.add_0_r. exact Hm. }
  rewrite (BTreeFacts.py_index_lookup _ _ _ Hm0). reflexivity.
Qed.

(** A split moves entries around without changing their number. *)
Lemma split_child_weight (ord : Z) (parent parent' : BTreeNode.t) (i : nat)
    (child : BTreeNode.t) :
  2 <= ord ->
  is_leaf parent = false ->
  children parent !! i = Some child ->
  order child = ord ->
  is_full child = true ->
  BTreeIndex._split_child ord parent i = Ok parent' ->
  weight parent' = weight parent.
Proof.
  intros Hord Hleaf Hchild Hco Hfull.
  destruct child as [cl ces ccs co]. cbn in Hco. subst co.
  unfold is_full, keys in Hfull. cbn [order entries] in Hfull.
  rewrite length_fmap in Hfull. apply Z.leb_le in Hfull.
  destruct (split_child_eq ord parent i cl ces ccs ord Hord Hchild Hfull)
    as (m & Hm & ->).
  intros [= <-]. destruct parent as [pl pes pcs po]. cbn in Hleaf, Hchild. subst pl.
  cbn [is_leaf entries children order].
  pose proof (lookup_lt_Some _ _ _ Hchild) as Hi.
  rewrite !weight_node, BTreeFacts.length_list_insert_at.
  rewrite (split_children pcs i _ _ Hi), (total_lookup pcs i _ Hchild).
  rewrite total_app, !total_cons, !weight_node.
  rewrite length_take, length_drop.
  destruct cl; cbn [negb]; [lia|].
  assert (Hccs : total ccs = (total (take (Z.to_nat ord) ccs)
                              + total (drop (Z.to_nat ord) ccs))%nat).
  { rewrite <- (take_drop (Z.to_nat ord) ccs) at 1. apply total_app. }
  lia.
Qed.

Lemma elem_of_collect_entry (e : Value * Z) (leaf : bool) (es : list (Value * Z))
    (cs : list BTreeNode.t) (o : Z) :
  e ∈ es -> e ∈ BTreeIndex._collect_entries (Node leaf es cs o).
Proof. intros He. cbn. apply elem_of_app. left. exact He. Qed.

Lemma elem_of_collect_child (e : Value * Z) (es : list (Value * Z))
    (cs : list BTreeNode.t) (o : Z) (c : BTreeNode.t) :
  c ∈ cs -> e ∈ BTreeIndex._collect_entries c ->
  e ∈ BTreeIndex._collect_entries (Node false es cs o).
Proof.
  intros Hc He. cbn. apply elem_of_app. right.
  apply list_elem_of_In, in_concat. exists (BTreeIndex._collect_entries c).
  split; [apply in_map|]; apply list_elem_of_In; assumption.
Qed.

Section Insert.
Context (P : Value -> Prop) (HP : ordered_class P).

(** The descent adds the new entry and no other. *)
Lemma insert_non_full_adds (ord : Z) (key : Value) (row_index : Z) (fuel : nat) :
  2 <= ord -> P key ->
  forall node,
    wf P ord node -> (height node <= fuel)%nat ->
    exists node',
      BTreeIndex._insert_non_full fuel ord node key row_index = Ok node' /\
      wf P ord node' /\
      weight node' = S (weight node) /\
      (key, row_index) ∈ BTreeIndex._collect_entries node'.
Proof.
  intros Hord Hkey. induction fuel as [|fuel IH]; intros node Hwf Hh;
    rewrite BTreeFacts.insert_non_full_eq.
  all: destruct node as [leaf es cs o]; cbn [is_leaf entries children order keys].
  all: pose proof Hwf as (-> & Hes & Hcs & Hwcs)%BTreeFacts.wf_inv.
  all: destruct leaf.
  1, 3:
    unfold BTreeIndex.leaf_insert;
    destruct (BTreeFacts.count_greater_ok P HP key (rev es.*1) Hkey
                (BTreeFacts.rev_keys_P P es Hes)) as (n & -> & Hn);
    cbn [mbind result_bind]; eexists; split; [reflexivity|];
    rewrite length_rev, length_fmap in Hn;
    (split; [constructor;
               [apply BTreeFacts.Forall_list_insert_at; assumption
               |discriminate|assumption]|]);
    (split; [rewrite !weight_node, BTreeFacts.length_list_insert_at; lia|]);
    apply elem_of_collect_entry;
    eapply list_elem_of_lookup_2; apply BTreeFacts.lookup_list_insert_at; lia.
  all: specialize (Hcs eq_refl).
  all: unfold keys; cbn [entries].
  all: destruct (BTreeFacts.count_greater_ok P HP key (rev es.*1) Hkey
                   (BTreeFacts.rev_keys_P P es Hes)) as (n & -> & Hn).
  all: cbn [mbind result_bind]; cbv zeta.
  all: rewrite length_rev, length_fmap in Hn; rewrite length_fmap.
  all: destruct (lookup_lt_is_Some_2 cs (length es - n)) as [child Hchild]; [lia|].
  all: pose proof (BTreeFacts.height_child false es cs ord child
                     (list_elem_of_lookup_2 _ _ _ Hchild)) as Hhc.
  - lia.
  - rewrite (BTreeFacts.py_index_lookup _ _ _ Hchild). cbn [mbind result_bind].
    assert (Hrec : forall node1 i1 c1,
      wf P ord node1 -> is_leaf node1 = false ->
      children node1 !! i1 = Some c1 -> (height c1 <= fuel)%nat ->
      exists node',
        (child0 ← py_index (children node1) i1;
         child' ← BTreeIndex._insert_non_full fuel ord child0 key row_index;
         Ok (set_children node1 (<[i1 := child']> (children node1)))) = Ok node' /\
        wf P ord node' /\
        weight node' = S (weight node1) /\
        (key, row_index) ∈ BTreeIndex._collect_entries node').
    { intros node1 i1 c1 Hw1 Hl1 Hc1 Hh1.
      rewrite (BTreeFacts.py_index_lookup _ _ _ Hc1). cbn [mbind result_bind].
      destruct node1 as [l1 es1 cs1 o1]. cbn in Hl1, Hc1. subst l1.
      apply BTreeFacts.wf_inv in Hw1 as (-> & Hes1 & Hcs1 & Hwcs1).
      destruct (IH c1 (Forall_lookup_1 _ _ _ _ Hwcs1 Hc1) Hh1)
        as (c' & -> & Hwc' & Hweight & Hin).
      cbn [mbind result_bind]. eexists. split; [reflexivity|].
      unfold set_children. cbn [is_leaf entries children order].
      pose proof (lookup_lt_Some _ _ _ Hc1) as Hi1.
      split; [|split].
      - constructor; [exact Hes1| |apply Forall_insert; assumption].
        intros _. rewrite length_insert. auto.
      - rewrite !weight_node, (total_insert _ _ _ Hi1), (total_lookup _ _ _ Hc1). lia.
      - apply (elem_of_collect_child _ _ _ _ c'); [|exact Hin].
        eapply list_elem_of_lookup_2. apply list_lookup_insert_eq. exact Hi1. }
    destruct (is_full child) eqn:Hfull.
    + destruct (BTreeFacts.split_child_ok P ord (Node false es cs ord) _ child Hord Hwf
                  eq_refl Hchild Hfull)
        as (node' & left & right & m & Hsplit & Hw' & Hl' & Hes' & Hcs' & Hhl & Hhr).
      assert (Hweight : weight node' = weight (Node false es cs ord)).
      { apply (split_child_weight ord (Node false es cs ord) node' _ child Hord
                 eq_refl Hchild); [|exact Hfull|exact Hsplit].
        pose proof (Forall_lookup_1 _ _ _ _ Hwcs Hchild) as Hwc.
        destruct child as [cl ces ccs co].
        apply BTreeFacts.wf_inv in Hwc as (-> & _). reflexivity. }
      rewrite Hsplit. cbn [mbind result_bind]. rewrite Hes'.
      cbn [entries children] in Hes', Hcs' |- *.
      assert (Hmk : (list_insert_at (length es - n) m es).*1 !! (length es - n)%nat
                    = Some m.1).
      { rewrite list_lookup_fmap, BTreeFacts.lookup_list_insert_at by lia. reflexivity. }
      rewrite (BTreeFacts.py_index_lookup _ _ _ Hmk). cbn [mbind result_bind].
      assert (Pm : P m.1).
      { destruct node' as [l' es' cs' o']. cbn in Hes'. subst es'.
        apply BTreeFacts.wf_inv in Hw' as (_ & Hes'' & _).
        rewrite Forall_forall in Hes''. apply Hes''.
        eapply list_elem_of_lookup_2. apply BTreeFacts.lookup_list_insert_at. lia. }
      destruct (BTreeFacts.py_gt_ok P HP key m.1 Hkey Pm) as [b ->].
      cbn [mbind result_bind].
      assert (Hli : (length es - n < length cs)%nat) by lia.
      rewrite <- Hweight.
      destruct b.
      * apply (Hrec node' _ right Hw' Hl'); [|lia].
        rewrite Hcs'. apply BTreeFacts.lookup_list_insert_at. rewrite length_insert. lia.
      * apply (Hrec node' _ left Hw' Hl'); [|lia].
        rewrite Hcs', BTreeFacts.lookup_list_insert_at_lt
          by (rewrite ?length_insert; lia).
        apply list_lookup_insert_eq. exact Hli.
    + cbn [mbind result_bind].
      apply (Hrec (Node false es cs ord) _ child Hwf eq_refl Hchild). lia.
Qed.

Lemma insert_adds (index : BTreeIndex.t) (key : Value) (row_index : Z) :
  wf_index P index -> P key ->
  exists index',
    BTreeIndex.insert index key row_index = Ok index' /\
    wf_index P index' /\
    weight (BTreeIndex.root index') = S (weight (BTreeIndex.root index)) /\
    (key, row_index) ∈ BTreeIndex._collect_entries (BTreeIndex.root index').
Proof.
  intros [Hord Hwf] Hkey. unfold BTreeIndex.insert.
  assert (Hroot : exists root',
    (if is_full (BTreeIndex.root index)
     then BTreeIndex._split_child (BTreeIndex.order index)
            (Node false [] [BTreeIndex.root index] (BTreeIndex.order index)) 0
     else Ok (BTreeIndex.root index)) = Ok root' /\
    wf P (BTreeIndex.order index) root' /\
    weight root' = weight (BTreeIndex.root index)).
  { destruct (is_full (BTreeIndex.root index)) eqn:Hfull; [|eauto].
    assert (Hwn : wf P (BTreeIndex.order index)
                    (Node false [] [BTreeIndex.root index] (BTreeIndex.order index))).
    { constructor; [constructor|reflexivity|repeat constructor; exact Hwf]. }
    destruct (BTreeFacts.split_child_ok P (BTreeIndex.order index)
                (Node false [] [BTreeIndex.root index] (BTreeIndex.order index))
                0 (BTreeIndex.root index) Hord Hwn eq_refl eq_refl Hfull)
      as (root' & _ & _ & _ & Hsplit & Hw' & _).
    exists root'. split; [exact Hsplit|]. split; [exact Hw'|].
    assert (Hco : order (BTreeIndex.root index) = BTreeIndex.order index).
    { destruct (BTreeIndex.root index). inversion Hwf. reflexivity. }
    rewrite (split_child_weight (BTreeIndex.order index)
               (Node false [] [BTreeIndex.root index] (BTreeIndex.order index))
               root' 0 (BTreeIndex.root index) Hord eq_refl eq_refl Hco Hfull Hsplit).
    rewrite weight_node, total_cons. unfold total. cbn. lia. }
  destruct Hroot as (root' & -> & Hw' & Hweight). cbn [mbind result_bind].
  destruct (insert_non_full_adds (BTreeIndex.order index) key row_index (height root')
              Hord Hkey root' Hw' ltac:(lia)) as (root'' & -> & Hw'' & Hweight' & Hin).
  cbn [mbind result_bind]. eexists. split; [reflexivity|].
  cbn [BTreeIndex.root]. split; [split; assumption|].
  split; [lia|exact Hin].
Qed.

End Insert.

Lemma list_insert_at_perm {A} (i : nat) (x : A) (l : list A) :
  list_insert_at i x l ≡ₚ x :: l.
Proof.
  unfold list_insert_at. rewrite <- Permutation_middle, take_drop. reflexivity.
Qed.

End BTreeEntries.

(** X8: on a well-formed index whose keys Python can order, [insert] with
    such a key returns; the new tree is well formed, holds the entry
    [(key, row_index)], and has exactly one entry more than the old one, so
    [size] stays the number of stored entries when it was. *)
Theorem btree_insert_adds_one_entry (P : Value -> Prop) (index : BTreeIndex.t)
    (key : Value) (row_index : Z) :
  BTreeInv.ordered_class P ->
  BTreeInv.wf_index P index ->
  P key ->
  exists index',
    BTreeIndex.insert index key row_index = Ok index' /\
    BTreeInv.wf_index P index' /\
    (key, row_index) ∈ BTreeIndex._collect_entries (BTreeIndex.root index') /\
    length (BTreeIndex._collect_entries (BTreeIndex.root index'))
    = S (length (BTreeIndex._collect_entries (BTreeIndex.root index))) /\
    (BTreeIndex.size index
     = Z.of_nat (length (BTreeIndex._collect_entries (BTreeIndex.root index))) ->
     BTreeIndex.size index'
     = Z.of_nat (length (BTreeIndex._collect_entries (BTreeIndex.root index')))).
Proof.
  intros HP Hwf Hkey.
  destruct (BTreeEntries.insert_adds P HP index key row_index Hwf Hkey)
    as (index' & Hins & Hwf' & Hweight & Hin).
  exists index'. split; [exact Hins|]. split; [exact Hwf'|]. split; [exact Hin|].
  unfold BTreeWeight.weight in Hweight. split; [exact Hweight|].
  intros Hsize. rewrite Hweight.
  unfold BTreeIndex.insert in Hins.
  destruct (if BTreeNode.is_full _ then _ else _) as [root'|e]; [|discriminate].
  cbn [mbind result_bind] in Hins.
  destruct (BTreeIndex._insert_non_full _ _ _ _ _) as [root''|e]; [|discriminate].
  injection Hins as <-. cbn [BTreeIndex.size]. lia.
Qed.

Lemma btree_insert_adds_one_entry_witness :
  exists index',
    BTreeIndex.insert Samples.people_index (VInt 7) 6 = Ok index' /\
    (VInt 7, 6) ∈ BTreeIndex._collect_entries (BTreeIndex.root index') /\
    BTreeIndex.size index' = 7.
Proof.
  assert (Hwf : BTreeInv.wf_index BTreeInv.numeric Samples.people_index).
  { split; [vm_compute; discriminate|].
    vm_compute. repeat (constructor; try (cbn; eexists; reflexivity); try discriminate;
                        try reflexivity). }
  destruct (btree_insert_adds_one_entry BTreeInv.numeric Samples.people_index (VInt 7) 6
              BTreeFacts.numeric_ordered Hwf ltac:(eexists; reflexivity))
    as (index' & Hins & _ & Hin & Hlen & Hsize).
  exists index'. split; [exact Hins|]. split; [exact Hin|].
  rewrite Hsize, Hlen; reflexivity.
Defined.

(** X9: the first split.  When the root is a leaf holding exactly
    [2 * order - 1] entries [es], the next [insert] splits it, and the new
    tree holds the new entry, the entries of [es] except the one at position
    [order - 1], and the entry at position [order] twice: the median entry
    is lost and its successor is duplicated. *)
Theorem btree_root_split_drops_median (P : Value -> Prop) (column_name : string)
    (ord size : Z) (es : list (Value * Z)) (key : Value) (row_index : Z) :
  BTreeInv.ordered_class P ->
  2 <= ord ->
  Forall (fun e => P e.1) es ->
  P key ->
  Z.of_nat (length es) = 2 * ord - 1 ->
  exists index' m,
    es !! Z.to_nat ord = Some m /\
    BTreeIndex.insert
      (BTreeIndex.Make column_name ord (BTreeNode.Node true es [] ord) size)
      key row_index = Ok index' /\
    BTreeIndex._collect_entries (BTreeIndex.root index')
    ≡ₚ (key, row_index) :: m :: take (Z.to_nat ord - 1) es ++ drop (Z.to_nat ord) es.
Proof.
  intros HP Hord Hes Hkey Hlen.
  set (t := Z.to_nat ord).
  destruct (BTreeEntries.split_child_eq ord
              (BTreeNode.Node false [] [BTreeNode.Node true es [] ord] ord) 0
              true es [] ord Hord eq_refl ltac:(lia)) as (m & Hm & Hsplit).
  fold t in Hm, Hsplit.
  assert (Hsplit' :
    BTreeIndex._split_child ord
      (BTreeNode.Node false [] [BTreeNode.Node true es [] ord] ord) 0
    = Ok (BTreeNode.Node false [m]
            [BTreeNode.Node true (take (t - 1) es) [] ord;
             BTreeNode.Node true (drop t es) [] ord] ord))
    by (rewrite Hsplit; reflexivity).
  clear Hsplit.
  exists (BTreeIndex.Make column_name ord
            match BTreeIndex.count_greater key [m.1] with
            | Ok (S _) =>
                BTreeNode.Node false [m]
                  [BTreeNode.Node true
                     (default [] (match BTreeIndex.leaf_insert (take (t - 1) es) key row_index
                                  with Ok l => Some l | Err _ => None end)) [] ord;
                   BTreeNode.Node true (drop t es) [] ord] ord
            | _ =>
                BTreeNode.Node false [m]
                  [BTreeNode.Node true (take (t - 1) es) [] ord;
                   BTreeNode.Node true
                     (default [] (match BTreeIndex.leaf_insert (drop t es) key row_index
                                  with Ok l => Some l | Err _ => None end)) [] ord] ord
            end (size + 1)), m.
  split; [exact Hm|].
  assert (Pm : P m.1).
  { rewrite Forall_forall in Hes. apply Hes. eapply list_elem_of_lookup_2, Hm. }
  assert (Hleft : Forall (fun e => P e.1) (take (t - 1) es)) by apply Forall_take, Hes.
  assert (Hright : Forall (fun e => P e.1) (drop t es)) by apply Forall_drop, Hes.
  unfold BTreeIndex.insert. cbn [BTreeIndex.root BTreeIndex.order BTreeIndex.size
                                  BTreeIndex.column_name].
  assert (Hfull : BTreeNode.is_full (BTreeNode.Node true es [] ord) = true).
  { unfold BTreeNode.is_full, BTreeNode.keys. cbn. rewrite length_fmap.
    apply Z.leb_le. lia. }
  rewrite Hfull, Hsplit'. cbn [mbind result_bind].
  change (BTreeNode.height _) with 1%nat.
  rewrite BTreeFacts.insert_non_full_eq.
  cbn [BTreeNode.is_leaf BTreeNode.keys BTreeNode.entries BTreeNode.children
       BTreeNode.order fmap list_fmap fst rev app length].
  cbn [BTreeIndex.count_greater].
  destruct (BTreeFacts.py_lt_ok P HP key m.1 Hkey Pm) as [b ->].
  cbn [mbind result_bind].
  assert (Hnot_full : forall l, (length l < 2 * t - 1)%nat ->
            BTreeNode.is_full (BTreeNode.Node true l [] ord) = false).
  { intros l Hl. unfold BTreeNode.is_full, BTreeNode.keys. cbn. rewrite length_fmap.
    apply Z.leb_gt. lia. }
  destruct b; cbn [fmap result_fmap mbind result_bind Nat.sub py_index lookup list_lookup].
  - rewrite Hnot_full by (rewrite length_take; lia). cbn [mbind result_bind py_index
      lookup list_lookup BTreeNode.children].
    rewrite BTreeFacts.insert_non_full_eq.
    unfold BTreeIndex.leaf_insert.
    cbn [BTreeNode.entries BTreeNode.is_leaf BTreeNode.children BTreeNode.order].
    destruct (BTreeFacts.count_greater_ok P HP key (rev (take (t - 1) es).*1) Hkey
                (BTreeFacts.rev_keys_P P _ Hleft)) as (n & -> & _).
    cbn. split; [reflexivity|].
    rewrite BTreeEntries.list_insert_at_perm, !app_nil_r. cbn [app].
    apply perm_swap.
  - rewrite Hnot_full by (rewrite length_drop; lia). cbn [mbind result_bind py_index
      lookup list_lookup BTreeNode.children].
    rewrite BTreeFacts.insert_non_full_eq.
    unfold BTreeIndex.leaf_insert.
    cbn [BTreeNode.entries BTreeNode.is_leaf BTreeNode.children BTreeNode.order].
    destruct (BTreeFacts.count_greater_ok P HP key (rev (drop t es).*1) Hkey
                (BTreeFacts.rev_keys_P P _ Hright)) as (n & -> & _).
    cbn. split; [reflexivity|].
    rewrite BTreeEntries.list_insert_at_perm, !app_nil_r.
    rewrite <- Permutation_middle. apply perm_swap.
Qed.

Lemma btree_root_split_drops_median_witness :
  let es := [(VInt 1, 0); (VInt 2, 1); (VInt 3, 2); (VInt 4, 3); (VInt 5, 4)] in
  exists index',
    BTreeIndex.insert (BTreeIndex.Make "id" 3 (BTreeNode.Node true es [] 3) 5)
                      (VInt 6) 5 = Ok index' /\
    BTreeIndex._collect_entries (BTreeIndex.root index')
    ≡ₚ [(VInt 6, 5); (VInt 4, 3); (VInt 1, 0); (VInt 2, 1); (VInt 4, 3); (VInt 5, 4)].
Proof.
  intros es.
  destruct (btree_root_split_drops_median BTreeInv.numeric "id" 3 5 es (VInt 6) 5
              BTreeFacts.numeric_ordered ltac:(lia)
              ltac:(repeat constructor; eexists; reflexivity)
              ltac:(eexists; reflexivity) eq_refl)
    as (index' & m & Hm & Hins & Hperm).
  exists index'. split; [exact Hins|].
  injection Hm as <-. exact Hperm.
Defined.

(** ** Dictionaries *)

Module DictFacts.

Lemma dict_get_set {V} (k k' : string) (v : V) (d : dict V) :
  dict_get k (dict_set k' v d) = if bool_decide (k = k') then Some v else dict_get k d.
Proof.
  induction d as [|[k0 v0] d IH]; cbn [dict_set dict_get]; [reflexivity|].
  destruct (bool_decide_reflect (k' = k0)) as [->|Hne]; cbn [dict_get].
  - destruct (bool_decide (k = k0)); reflexivity.
  - rewrite IH. destruct (bool_decide_reflect (k = k0)) as [->|Hne'].
    + rewrite bool_decide_eq_false_2 by congruence. reflexivity.
    + reflexivity.
Qed.

Lemma dict_mem_set {V} (k k' : string) (v : V) (d : dict V) :
  dict_mem k (dict_set k' v d) = bool_decide (k = k') || dict_mem k d.
Proof.
  unfold dict_mem. rewrite dict_get_set. destruct (bool_decide (k = k')); reflexivity.
Qed.

Lemma dict_mem_keys {V} (k : string) (d : dict V) :
  dict_mem k d = true <-> k ∈ dict_keys d.
Proof.
  unfold dict_mem, dict_keys. induction d as [|[k0 v0] d IH]; cbn.
  - split; [discriminate|]. intros Hin. inversion Hin.
  - rewrite elem_of_cons. destruct (bool_decide_reflect (k = k0)) as [->|Hne].
    + split; auto.
    + rewrite IH. split; [auto|]. intros [?|?]; [congruence|assumption].
Qed.

Lemma dict_keys_set {V} (k : string) (v : V) (d : dict V) :
  dict_keys (dict_set k v d)
  = if dict_mem k d then dict_keys d else dict_keys d ++ [k].
Proof.
  unfold dict_keys, dict_mem. induction d as [|[k0 v0] d IH]; cbn; [reflexivity|].
  destruct (bool_decide_reflect (k = k0)) as [->|Hne]; cbn; [reflexivity|].
  rewrite IH. destruct (dict_get k d); reflexivity.
Qed.

End DictFacts.

(** ** Inserts and updates of a table *)

Module TableFacts.
Section WithBuiltins.
Context `{PyBuiltins}.

Lemma fill_defaults_ext (cols : dict Column.t) (data data' acc : dict Value) :
  (forall col, col ∈ dict_keys cols -> dict_get col data = dict_get col data') ->
  Table.fill_defaults cols data acc = Table.fill_defaults cols data' acc.
Proof.
  revert acc. induction cols as [|[col_name column] cols IH]; intros acc Hext;
    cbn [Table.fill_defaults]; [reflexivity|].
  rewrite <- (Hext col_name) by (apply elem_of_cons; left; reflexivity).
  destruct (match dict_get col_name data with
            | Some x => Column.convert column x
            | None => Ok (Column.default column)
            end) as [v|e]; cbn [mbind result_bind]; [|reflexivity].
  apply IH. intros col Hcol. apply Hext. apply elem_of_cons. right. exact Hcol.
Qed.

Lemma fill_defaults_keys (cols : dict Column.t) (data acc full_data : dict Value) :
  Table.fill_defaults cols data acc = Ok full_data ->
  forall col, dict_mem col full_data = dict_mem col acc || dict_mem col cols.
Proof.
  revert acc. induction cols as [|[col_name column] cols IH]; intros acc;
    cbn [Table.fill_defaults].
  - intros [= <-] col. rewrite orb_false_r. reflexivity.
  - destruct (match dict_get col_name data with
              | Some x => Column.convert column x
              | None => Ok (Column.default column)
              end) as [v|e]; cbn [mbind result_bind]; [|discriminate].
    intros Hfill col. rewrite (IH _ Hfill col), DictFacts.dict_mem_set.
    unfold dict_mem at 4. cbn [dict_get].
    destruct (bool_decide (col = col_name)); cbn.
    + rewrite orb_true_r. reflexivity.
    + fold (dict_mem col cols). destruct (dict_mem col acc); reflexivity.
Qed.

Lemma insert_indexes_keys (row : Row.t) (row_index : nat) (done todo : dict Index.t) :
  dict_keys (Table.insert_indexes row row_index done todo).1
  = dict_keys done ++ dict_keys todo.
Proof.
  unfold dict_keys. revert done.
  induction todo as [|[col_name index] rest IH]; intros done; cbn [Table.insert_indexes].
  - cbn. rewrite app_nil_r. reflexivity.
  - destruct (is_none _).
    + rewrite IH, fmap_app. cbn. rewrite <- app_assoc. reflexivity.
    + destruct (Index.insert _ _ _) as [index'|e].
      * rewrite IH, fmap_app. cbn. rewrite <- app_assoc. reflexivity.
      * cbn. rewrite fmap_app. reflexivity.
Qed.

Lemma apply_updates_other (cols : dict Column.t) (updates acc new_data : dict Value)
    (col : string) :
  Table.apply_updates cols updates acc = Ok new_data ->
  dict_get col updates = None ->
  dict_get col new_data = dict_get col acc.
Proof.
  revert acc. induction updates as [|[col_name value] rest IH]; intros acc;
    cbn [Table.apply_updates].
  - intros [= <-] _. reflexivity.
  - destruct (dict_get col_name cols) as [column|]; [|discriminate].
    destruct (Column.convert column value) as [v|e]; cbn [mbind result_bind];
      [|discriminate].
    intros Hup. cbn [dict_get].
    destruct (bool_decide_reflect (col = col_name)) as [->|Hne]; [discriminate|].
    intros Hrest. rewrite (IH _ Hup Hrest), DictFacts.dict_get_set.
    rewrite bool_decide_eq_false_2 by exact Hne. reflexivity.
Qed.

Lemma only_update_indexes (ok : PyError -> Prop)
    (ok_type : forall m, ok (TypeError m)) (ok_index : forall m, ok (IndexError m))
    (ok_key : forall m, ok (KeyError m))
    (old_data new_data : dict Value) (row_index : nat) (col_names : list string)
    (ix : dict Index.t) :
  only_raises ok (Table.update_indexes old_data new_data row_index col_names ix).2.
Proof.
  revert ix. induction col_names as [|col_name rest IH]; intros ix;
    cbn [Table.update_indexes].
  - intros e. discriminate.
  - destruct (dict_get col_name ix) as [index|]; [|apply IH].
    unfold dict_item.
    destruct (dict_get col_name old_data) as [old_value|];
      [|intros e [= <-]; apply ok_key].
    destruct (dict_get col_name new_data) as [new_value|];
      [|intros e [= <-]; apply ok_key].
    destruct (is_none new_value); [apply IH|].
    match goal with
    | |- context [Index.insert ?i ?k ?r] =>
        pose proof (IndexErrors.only_index_insert ok ok_type ok_index i k r) as Hi;
        destruct (Index.insert i k r) as [index'|e]
    end.
    + apply IH.
    + intros e' [= <-]. apply Hi. reflexivity.
Qed.

End WithBuiltins.
End TableFacts.

(** X10: [Table.insert] reads the payload only at the names of the table's
    columns: two payloads that agree there give the same result, so an
    entry for a column that does not exist is ignored, not rejected. *)
Theorem insert_ignores_unknown_columns `{PyBuiltins} (t : Table.t)
    (data data' : dict Value) :
  (forall col, col ∈ dict_keys (Table.columns t) ->
     dict_get col data = dict_get col data') ->
  Table.insert t data = Table.insert t data'.
Proof.
  intros Hext. unfold Table.insert.
  rewrite (TableFacts.fill_defaults_ext _ data data' [] Hext). reflexivity.
Qed.

Lemma insert_ignores_unknown_columns_witness :
  Table.insert Samples.users
    [("id", VInt 3); ("name", VStr "Cy"); ("nickname", VStr "C")]
  = Table.insert Samples.users [("id", VInt 3); ("name", VStr "Cy")].
Proof.
  apply (insert_ignores_unknown_columns Samples.users).
  intros col Hcol. vm_compute in Hcol.
  apply elem_of_cons in Hcol as [->|Hcol]; [reflexivity|].
  apply elem_of_cons in Hcol as [->|Hcol]; [reflexivity|].
  inversion Hcol.
Defined.

(** X11: an [insert] that returns a row has stored the converted and
    validated payload under the id [next_row_id], in a new last slot; the
    row has a value for exactly the columns of the table, the counter has
    advanced by one, and the schema and the set of indexed columns are as
    before. *)
Theorem insert_success `{PyBuiltins} (t t' : Table.t) (data : dict Value) (row : Row.t) :
  Table.insert t data = (t', Ok row) ->
  Spec.checked t data = Ok (Row.data row) /\
  Row.row_id row = Table.next_row_id t /\
  Table.rows t' = Table.rows t ++ [Some row] /\
  Table.scan t' = Table.scan t ++ [row] /\
  Table.next_row_id t' = Table.next_row_id t + 1 /\
  (forall col, dict_mem col (Row.data row) = dict_mem col (Table.columns t)) /\
  Table.name t' = Table.name t /\
  Table.columns t' = Table.columns t /\
  Table.column_order t' = Table.column_order t /\
  dict_keys (Table.indexes t') = dict_keys (Table.indexes t).
Proof.
  unfold Table.insert, Spec.checked.
  destruct (Table.fill_defaults _ _ _) as [full_data|e0] eqn:Hfill; [|discriminate].
  cbn [mbind result_bind].
  destruct (Table.validate_row _ _ _ _) as [[[] error]|e1]; try discriminate.
  pose proof (TableFacts.insert_indexes_keys (Row.Make full_data (Table.next_row_id t))
                (length (Table.rows t)) [] (Table.indexes t)) as Hkeys.
  cbn [Table.set_next_row_id Table.set_rows Table.rows Table.indexes Table.next_row_id].
  destruct (Table.insert_indexes _ _ _ _) as [ix res]. cbn [fst] in Hkeys.
  destruct res as [[]|e]; cbn [mbind result_bind]; [|discriminate].
  intros [= <- <-]. cbn.
  repeat split; try reflexivity.
  - unfold Table.scan. cbn. rewrite omap_app. reflexivity.
  - intros col. rewrite (TableFacts.fill_defaults_keys _ _ _ _ Hfill col). reflexivity.
  - exact Hkeys.
Qed.

Lemma insert_success_witness :
  let row := Row.Make [("id", VInt 3); ("name", VStr "Cy")] 2 in
  Table.scan (Table.insert Samples.users [("id", VStr "3"); ("name", VStr "Cy")]).1
  = Table.scan Samples.users ++ [row].
Proof.
  intros row.
  assert (Hins : Table.insert Samples.users [("id", VStr "3"); ("name", VStr "Cy")]
                 = ((Table.insert Samples.users
                       [("id", VStr "3"); ("name", VStr "Cy")]).1, Ok row)).
  { rewrite (surjective_pairing (Table.insert Samples.users _)) at 1.
    f_equal. }
  exact (proj1 (proj2 (proj2 (proj2 (insert_success _ _ _ _ Hins))))).
Defined.

(** X12: an [update] that returns a row has replaced the data of the live
    row in that slot and nothing else: the row keeps its id and its slot,
    the other slots and [next_row_id] are as before, and a column that
    [updates] does not name keeps its value. *)
Theorem update_success `{PyBuiltins} (t t' : Table.t) (row_index : nat)
    (updates : dict Value) (row' : Row.t) :
  Table.update t row_index updates = (t', Ok row') ->
  exists row,
    Table.rows t !! row_index = Some (Some row) /\
    Row.row_id row' = Row.row_id row /\
    Table.apply_updates (Table.columns t) updates (Row.data row) = Ok (Row.data row') /\
    (forall col, dict_get col updates = None ->
       dict_get col (Row.data row') = dict_get col (Row.data row)) /\
    Table.rows t' = <[row_index := Some row']> (Table.rows t) /\
    Table.next_row_id t' = Table.next_row_id t.
Proof.
  unfold Table.update.
  destruct (Nat.leb_spec (length (Table.rows t)) row_index); [discriminate|].
  destruct (Table.rows t !! row_index) as [[row|]|] eqn:Hrow; try discriminate.
  destruct (Table.apply_updates _ _ _) as [new_data|e] eqn:Hup; [|discriminate].
  destruct (Table.validate_row _ _ _ _) as [[[] error]|e]; try discriminate.
  destruct (Table.update_indexes _ _ _ _ _) as [ix [[]|e]]; [|discriminate].
  intros [= <- <-]. exists row. cbn.
  split; [reflexivity|]. split; [reflexivity|]. split; [exact Hup|].
  split; [|split; reflexivity].
  intros col Hcol. exact (TableFacts.apply_updates_other _ _ _ _ col Hup Hcol).
Qed.

Lemma update_success_witness :
  exists t',
    Table.update Samples.users 1 [("name", VStr "Rob")]
    = (t', Ok (Row.Make [("id", VInt 2); ("name", VStr "Rob")] 1)) /\
    Table.rows t' = <[1%nat := Some (Row.Make [("id", VInt 2); ("name", VStr "Rob")] 1)]>
                      (Table.rows Samples.users).
Proof.
  eexists. 
  assert (Hup : Table.update Samples.users 1 [("name", VStr "Rob")]
                = ((Table.update Samples.users 1 [("name", VStr "Rob")]).1,
                   Ok (Row.Make [("id", VInt 2); ("name", VStr "Rob")] 1))).
  { rewrite (surjective_pairing (Table.update Samples.users _ _)) at 1. f_equal. }
  split; [exact Hup|].
  destruct (update_success _ _ _ _ _ Hup) as (row & _ & _ & _ & _ & Hrows & _).
  exact Hrows.
Defined.

(** X13: [update] fails before it changes anything when the row index is
    past the end (ValueError), when the slot holds a deleted row
    (AttributeError, not ValueError), and whenever it raises ValueError
    (an unknown column, a failed conversion, a validation failure): the
    table is then the one it was given. *)
Theorem update_failure_leaves_table_unchanged `{PyBuiltins} (t : Table.t)
    (row_index : nat) (updates : dict Value) :
  ((length (Table.rows t) <= row_index)%nat ->
   Table.update t row_index updates = (t, Err (Table.invalid_row_index row_index))) /\
  (Table.rows t !! row_index = Some None ->
   Table.update t row_index updates
   = (t, Err (AttributeError "'NoneType' object has no attribute 'data'"))) /\
  (forall t' m,
     Table.update t row_index updates = (t', Err (ValueError m)) -> t' = t).
Proof.
  unfold Table.update. split; [|split].
  - intros Hi. destruct (Nat.leb_spec (length (Table.rows t)) row_index); [reflexivity|lia].
  - intros Hrow. pose proof (lookup_lt_Some _ _ _ Hrow).
    destruct (Nat.leb_spec (length (Table.rows t)) row_index); [lia|].
    rewrite Hrow. reflexivity.
  - intros t' m.
    destruct (Nat.leb_spec (length (Table.rows t)) row_index); [congruence|].
    destruct (Table.rows t !! row_index) as [[row|]|]; try congruence.
    destruct (Table.apply_updates _ _ _) as [new_data|e]; [|congruence].
    destruct (Table.validate_row _ _ _ _) as [[[] error]|e]; try congruence.
    match goal with
    | |- context [Table.update_indexes ?o ?n ?i ?c ?ix] =>
        pose proof (TableFacts.only_update_indexes (fun e => forall m, e <> ValueError m)
                      ltac:(discriminate) ltac:(discriminate) ltac:(discriminate)
                      o n i c ix) as Hn;
        destruct (Table.update_indexes o n i c ix) as [ix' res]
    end.
    cbn [snd] in Hn. destruct res as [[]|e]; [discriminate|].
    intros [= _ ->]. exfalso. exact (Hn _ eq_refl m eq_refl).
Qed.

Lemma update_failure_leaves_table_unchanged_witness :
  Table.update Samples.users_after_delete 0 [("name", VStr "Zed")]
  = (Samples.users_after_delete,
     Err (AttributeError "'NoneType' object has no attribute 'data'")).
Proof.
  exact (proj1 (proj2 (update_failure_leaves_table_unchanged
                         Samples.users_after_delete 0 [("name", VStr "Zed")])) eq_refl).
Defined.

(** X14: [create_index] on an existing column without an index, whose
    values Python can order among themselves: it subscripts every slot, so
    on a table with a deleted row it raises TypeError and builds nothing;
    without deleted rows it returns and the column is indexed, the rows
    being as before. *)
Theorem create_index_fails_after_delete `{PyBuiltins} (P : Value -> Prop) (t : Table.t)
    (column_name : string) (btree : bool) :
  BTreeInv.ordered_class P ->
  (forall row, row ∈ Table.scan t ->
     Row.get row column_name = VNone \/ P (Row.get row column_name)) ->
  dict_mem column_name (Table.columns t) = true ->
  dict_mem column_name (Table.indexes t) = false ->
  (None ∈ Table.rows t ->
   Table.create_index t column_name btree = Err none_not_subscriptable) /\
  (None ∉ Table.rows t ->
   exists t',
     Table.create_index t column_name btree = Ok t' /\
     Table.rows t' = Table.rows t /\
     dict_mem column_name (Table.indexes t') = true).
Proof.
  intros HP Hvals Hcol Hix. unfold Table.create_index. rewrite Hcol, Hix. cbn [negb].
  set (index_ok := fun ix : Index.t =>
         match ix with
         | Index.BTree b => BTreeInv.wf_index P b
         | Index.Simple _ => True
         end).
  assert (Hinsert : forall ix key r, index_ok ix -> P key ->
            exists ix', Index.insert ix key r = Ok ix' /\ index_ok ix').
  { intros [b|s] key r Hok Hkey; cbn [Index.insert].
    - destruct (BTreeFacts.insert_ok P HP b key r Hok Hkey) as (b' & -> & Hb').
      cbn. eauto.
    - eexists. split; [reflexivity|exact I]. }
  assert (Hbuild : forall rs i index,
    index_ok index ->
    (forall row, Some row ∈ rs ->
       Row.get row column_name = VNone \/ P (Row.get row column_name)) ->
    (None ∈ rs ->
     Table.build_index column_name rs i index = Err none_not_subscriptable) /\
    (None ∉ rs -> exists index', Table.build_index column_name rs i index = Ok index')).
  { intros rs. induction rs as [|r rs IH]; intros i index Hok Hrs.
    { split; [intros Hin; inversion Hin|]. intros _. cbn. eauto. }
    cbn [Table.build_index]. destruct r as [row|].
    - cbn [slot_get mbind result_bind].
      assert (Hstep : exists index1,
                (if is_none (Row.get row column_name) then Ok index
                 else Index.insert index (Row.get row column_name) (Z.of_nat i))
                = Ok index1 /\ index_ok index1).
      { destruct (Hrs row ltac:(apply elem_of_cons; left; reflexivity)) as [->|Hp].
        - cbn. eauto.
        - destruct (is_none _); [eauto|]. apply Hinsert; assumption. }
      destruct Hstep as (index1 & -> & Hok1). cbn [mbind result_bind].
      assert (Hrs1 : forall row1, Some row1 ∈ rs ->
                Row.get row1 column_name = VNone \/ P (Row.get row1 column_name)).
      { intros row1 Hrow1. apply Hrs, elem_of_cons. right. exact Hrow1. }
      destruct (IH (S i) index1 Hok1 Hrs1) as [Hnone Hall].
      split.
      + intros [Hin|Hin]%elem_of_cons; [discriminate|auto].
      + intros Hnot. apply Hall. intros Hin. apply Hnot, elem_of_cons. auto.
    - split; [reflexivity|]. intros Hnot. exfalso. apply Hnot, elem_of_cons. auto. }
  assert (Hrows : forall row, Some row ∈ Table.rows t ->
            Row.get row column_name = VNone \/ P (Row.get row column_name)).
  { intros row Hrow. apply Hvals. unfold Table.scan.
    apply list_elem_of_omap. exists (Some row). auto. }
  assert (Hnew : index_ok (if btree then Index.BTree (BTreeIndex.new column_name 3)
                           else Index.Simple (SimpleIndex.new column_name))).
  { destruct btree; [|exact I]. apply BTreeFacts.new_wf. lia. }
  destruct (Hbuild (Table.rows t) O _ Hnew Hrows) as [Hnone Hall].
  split.
  - intros Hin. rewrite (Hnone Hin). reflexivity.
  - intros Hnot. destruct (Hall Hnot) as [index1 ->]. cbn [mbind result_bind].
    eexists. split; [reflexivity|]. split; [reflexivity|].
    cbn [Table.set_indexes Table.indexes]. rewrite DictFacts.dict_mem_set.
    rewrite bool_decide_eq_true_2 by reflexivity. reflexivity.
Qed.

Lemma create_index_fails_after_delete_witness :
  Table.create_index Samples.users_after_delete "name" true
  = Err none_not_subscriptable.
Proof.
  refine (proj1 (create_index_fails_after_delete
                   (fun v => exists s, v = VStr s) Samples.users_after_delete "name" true
                   _ _ eq_refl eq_refl) _).
  - intros a b [s ->] [s1 ->]. cbn. eauto.
  - intros row Hrow. vm_compute in Hrow.
    apply elem_of_cons in Hrow as [->|Hrow]; [|inversion Hrow].
    right. cbn. eauto.
  - vm_compute. apply elem_of_cons. left. reflexivity.
Defined.

(** ** Lookups *)

Module LookupFacts.

Lemma filter_rows_live (cond : Row.t -> bool) (rs : list (option Row.t)) :
  None ∉ rs ->
  Table.filter_rows
    (fun slot => match slot with
                 | Some row => Ok (cond row)
                 | None => Err none_not_subscriptable
                 end) rs
  = Ok (Some <$> filter (fun row => cond row = true) (omap id rs)).
Proof.
  induction rs as [|r rs IH]; intros Hnot; [reflexivity|].
  cbn [Table.filter_rows]. destruct r as [row|].
  - cbn [mbind result_bind]. rewrite IH
      by (intros Hin; apply Hnot, elem_of_cons; auto).
    cbn [mbind result_bind omap list_omap id]. rewrite filter_cons.
    destruct (cond row); cbn.
    + destruct (decide (true = true)); [reflexivity|congruence].
    + destruct (decide (false = true)); [congruence|reflexivity].
  - exfalso. apply Hnot, elem_of_cons. auto.
Qed.

Lemma filter_rows_ext (f g : option Row.t -> result bool) (rs : list (option Row.t)) :
  (forall r, r ∈ rs -> f r = g r) -> Table.filter_rows f rs = Table.filter_rows g rs.
Proof.
  induction rs as [|r rs IH]; intros Hext; [reflexivity|].
  cbn [Table.filter_rows]. rewrite (Hext r) by (apply elem_of_cons; auto).
  rewrite IH by (intros r1 Hr1; apply Hext, elem_of_cons; auto). reflexivity.
Qed.

Lemma filter_rows_tombstone (f : option Row.t -> result bool) (rs : list (option Row.t)) :
  f None = Err none_not_subscriptable ->
  (forall row, Some row ∈ rs -> exists b, f (Some row) = Ok b) ->
  None ∈ rs ->
  Table.filter_rows f rs = Err none_not_subscriptable.
Proof.
  intros Hnone. induction rs as [|r rs IH]; intros Hsome Hin; [inversion Hin|].
  cbn [Table.filter_rows]. destruct r as [row|].
  - destruct (Hsome row ltac:(apply elem_of_cons; auto)) as [b ->].
    cbn [mbind result_bind]. rewrite IH; [reflexivity| |].
    + intros row1 Hrow1. apply Hsome, elem_of_cons. auto.
    + apply elem_of_cons in Hin as [Hin|Hin]; [discriminate|exact Hin].
  - rewrite Hnone. reflexivity.
Qed.

Lemma elem_of_scan (t : Table.t) (row : Row.t) :
  row ∈ Table.scan t <-> Some row ∈ Table.rows t.
Proof.
  unfold Table.scan. rewrite list_elem_of_omap. split.
  - intros ([r|] & Hin & Hr); cbn in Hr; [|discriminate]. congruence.
  - intros Hin. exists (Some row). auto.
Qed.

End LookupFacts.

(** Without an index on the column, [find_by_column] is the full-scan
    filter of the live rows when the table has no deleted row, and raises
    TypeError as soon as it has one. *)
Theorem find_by_column_full_scan (t : Table.t) (column_name : string) (value : Value) :
  dict_get column_name (Table.indexes t) = None ->
  Table.find_by_column t column_name value =
    if bool_decide (None ∈ Table.rows t) then Err none_not_subscriptable
    else Ok (Some <$> Spec.equal_filter t column_name value).
Proof.
  intros Hix. unfold Table.find_by_column, Spec.equal_filter, Table.scan. rewrite Hix.
  rewrite (LookupFacts.filter_rows_ext _
             (fun slot => match slot with
                          | Some row => Ok (py_eq (Row.get row column_name) value)
                          | None => Err none_not_subscriptable
                          end))
    by (intros [row|] _; reflexivity).
  destruct (bool_decide_reflect (None ∈ Table.rows t)) as [Hin|Hnot].
  - apply LookupFacts.filter_rows_tombstone; [reflexivity| |exact Hin]. eauto.
  - apply (LookupFacts.filter_rows_live
             (fun row => py_eq (Row.get row column_name) value)). exact Hnot.
Qed.

Lemma find_by_column_full_scan_witness :
  Table.find_by_column Samples.users "name" (VStr "Bob")
  = Ok (Some <$> Spec.equal_filter Samples.users "name" (VStr "Bob")).
Proof.
  exact (find_by_column_full_scan Samples.users "name" (VStr "Bob") eq_refl).
Defined.

(** X15: without a B-tree index on the column, and with column values that
    Python can compare with both bounds, [find_by_range] is the full-scan
    filter [start <= value <= end] of the live rows (NULLs left out) when
    the table has no deleted row, and raises TypeError when it has one. *)
Theorem find_by_range_full_scan (t : Table.t) (column_name : string)
    (start end_ : Value) :
  match dict_get column_name (Table.indexes t) with
  | Some (Index.BTree _) => False
  | _ => True
  end ->
  (forall row, row ∈ Table.scan t ->
     Row.get row column_name = VNone \/
     (is_Some (py_compare start (Row.get row column_name)) /\
      is_Some (py_compare (Row.get row column_name) end_))) ->
  Table.find_by_range t column_name start end_ =
    if bool_decide (None ∈ Table.rows t) then Err none_not_subscriptable
    else Ok (Some <$> Spec.range_filter t column_name start end_).
Proof.
  intros Hix Hvals.
  assert (Hscan : Table.find_by_range t column_name start end_ =
    Table.filter_rows
      (fun row =>
         v ← slot_get row column_name;
         if is_none v then Ok false
         else ge ← py_le start v; if (ge : bool) then py_le v end_ else Ok false)
      (Table.rows t)).
  { unfold Table.find_by_range.
    destruct (dict_get column_name (Table.indexes t)) as [[b|s]|]; [tauto|reflexivity..]. }
  rewrite Hscan. unfold Spec.range_filter, Table.scan.
  rewrite (LookupFacts.filter_rows_ext _
             (fun slot => match slot with
                          | Some row =>
                              Ok (Spec.in_range start end_ (Row.get row column_name))
                          | None => Err none_not_subscriptable
                          end)).
  - destruct (bool_decide_reflect (None ∈ Table.rows t)) as [Hin|Hnot].
    + apply LookupFacts.filter_rows_tombstone; [reflexivity| |exact Hin]. eauto.
    + apply (LookupFacts.filter_rows_live
               (fun row => Spec.in_range start end_ (Row.get row column_name))).
      exact Hnot.
  - intros [row|] Hrow; [|reflexivity]. cbn [slot_get mbind result_bind].
    apply LookupFacts.elem_of_scan in Hrow.
    unfold Spec.in_range, Spec.le, py_le, py_cmp_with.
    destruct (Hvals row Hrow) as [->|[[c1 H1] [c2 H2]]];
      [destruct start; reflexivity|].
    rewrite H1, H2.
    destruct (Row.get row column_name); cbn [is_none];
      try (destruct c1, c2; reflexivity).
    discriminate.
Qed.

Lemma find_by_range_full_scan_witness :
  Table.find_by_range Samples.users "name" (VStr "A") (VStr "B")
  = Ok (Some <$> Spec.range_filter Samples.users "name" (VStr "A") (VStr "B")).
Proof.
  refine (find_by_range_full_scan Samples.users "name" (VStr "A") (VStr "B") I _).
  intros row Hrow. vm_compute in Hrow. right.
  apply elem_of_cons in Hrow as [->|Hrow];
    [|apply elem_of_cons in Hrow as [->|Hrow]; [|inversion Hrow]];
    split; eexists; reflexivity.
Defined.

(** X16: while the root of a B-tree index is a leaf, an equality lookup
    through the index returns at most one row, however many rows hold the
    value: [_search_node] stops at the first matching key. *)
Theorem indexed_lookup_on_leaf_returns_one_row (t : Table.t) (column_name : string)
    (b : BTreeIndex.t) (value : Value) (found : list (option Row.t)) :
  dict_get column_name (Table.indexes t) = Some (Index.BTree b) ->
  BTreeNode.is_leaf (BTreeIndex.root b) = true ->
  Table.find_by_column t column_name value = Ok found ->
  (length found <= 1)%nat.
Proof.
  intros Hix Hleaf. unfold Table.find_by_column. rewrite Hix.
  cbn [Index.search]. unfold BTreeIndex.search.
  destruct (BTreeIndex.root b) as [leaf es cs o]. cbn in Hleaf. subst leaf.
  cbn [BTreeIndex._search_node].
  destruct (BTreeIndex.search_pos value es.*1) as [i|e]; cbn [mbind result_bind];
    [|discriminate].
  assert (Hat : forall l, (length l <= 1)%nat ->
            forall found1, Table.rows_at (Table.rows t) l = Ok found1 ->
            (length found1 <= 1)%nat).
  { intros [|x [|y l]] Hl found1; cbn in Hl; try lia; cbn [Table.rows_at].
    - intros [= <-]. cbn. lia.
    - destruct (_ <? _); [|intros [= <-]; cbn; lia].
      destruct (py_getitem _ _); cbn; [|discriminate]. intros [= <-]. cbn. lia. }
  destruct (es !! i) as [[k v]|]; [destruct (py_eq value k)|];
    cbn [mbind result_bind]; apply Hat; cbn; lia.
Qed.

Lemma indexed_lookup_on_leaf_returns_one_row_witness :
  exists found,
    Table.find_by_column IndexedSamples.pets "kind" (VStr "cat") = Ok found /\
    (length found <= 1)%nat /\
    length (Spec.equal_filter IndexedSamples.pets "kind" (VStr "cat")) = 2%nat.
Proof.
  destruct (Table.find_by_column IndexedSamples.pets "kind" (VStr "cat"))
    as [found|e] eqn:Hfind; [|vm_compute in Hfind; discriminate].
  exists found. split; [reflexivity|]. split; [|reflexivity].
  destruct (dict_get "kind" (Table.indexes IndexedSamples.pets)) as [[b|s]|] eqn:Hix;
    try (vm_compute in Hix; discriminate).
  apply (indexed_lookup_on_leaf_returns_one_row IndexedSamples.pets "kind" b
           (VStr "cat") found Hix); [|exact Hfind].
  vm_compute in Hix. injection Hix as <-. reflexivity.
Defined.

(** ** The order of values *)

Module OrderFacts.

Lemma lex_le_trans (a b c : list Z) :
  lex_compare a b <> Gt -> lex_compare b c <> Gt -> lex_compare a c <> Gt.
Proof.
  revert b c. induction a as [|x a IH]; intros [|y b] [|z c]; cbn [lex_compare];
    try congruence.
  destruct (Z.compare_spec x y) as [->|Hxy|Hxy]; [| |congruence].
  - destruct (Z.compare_spec y z); [apply IH|congruence..].
  - intros _. destruct (Z.compare_spec y z) as [->|Hyz|Hyz]; [| |congruence].
    + intros _. rewrite (proj2 (Z.compare_lt_iff x z)) by lia. discriminate.
    + intros _. rewrite (proj2 (Z.compare_lt_iff x z)) by lia. discriminate.
Qed.

Lemma float_le_trans (a b c : pyfloat) :
  float_compare a b <> Gt -> float_compare b c <> Gt -> float_compare a c <> Gt.
Proof.
  set (m := Z.min (fexp a) (Z.min (fexp b) (fexp c))).
  rewrite (ValueFacts.float_compare_scaled a b m),
    (ValueFacts.float_compare_scaled b c m),
    (ValueFacts.float_compare_scaled a c m) by (unfold m; lia).
  rewrite !Z.compare_gt_iff. lia.
Qed.

Lemma le_spec (a b : Value) :
  Spec.le a b = true <-> exists c, py_compare a b = Some c /\ c <> Gt.
Proof.
  unfold Spec.le. destruct (py_compare a b) as [[]|]; split;
    try discriminate; try (intros _; eexists; split; [reflexivity|discriminate]);
    try reflexivity; intros (c & [= <-] & Hc); congruence.
Qed.

Lemma le_trans (a b c : Value) :
  Spec.le a b = true -> Spec.le b c = true -> Spec.le a c = true.
Proof.
  rewrite !le_spec. unfold py_compare.
  destruct (as_number a) as [x|] eqn:Ha, (as_number b) as [y|] eqn:Hb,
    (as_number c) as [z|] eqn:Hc;
    try (destruct a, b, c; try discriminate;
         intros (c1 & [= <-] & H1) (c2 & [= <-] & H2); fail).
  - intros (c1 & H1%(inj Some) & Hc1) (c2 & H2%(inj Some) & Hc2). subst.
    eexists. split; [reflexivity|]. eapply float_le_trans; eassumption.
  - destruct a, b, c; try discriminate;
      try (intros (c1 & [=] & _); fail); try (intros _ (c2 & [=] & _); fail);
      intros (c1 & H1%(inj Some) & Hc1) (c2 & H2%(inj Some) & Hc2); subst;
      (eexists; split; [reflexivity|]); eapply lex_le_trans; eassumption.
Qed.

(** [not (b < a)] is [a <= b] where the two can be compared. *)
Lemma not_lt_le (a b : Value) :
  py_lt b a = Ok false -> Spec.le a b = true.
Proof.
  unfold py_lt, py_cmp_with, Spec.le. rewrite (py_compare_antisym b a).
  destruct (py_compare b a) as [[]|]; cbn; congruence.
Qed.

Lemma lt_le (a b : Value) : py_lt a b = Ok true -> Spec.le a b = true.
Proof.
  unfold py_lt, py_cmp_with, Spec.le.
  destruct (py_compare a b) as [[]|]; cbn; congruence.
Qed.

Section Sorting.
Context {A : Type} (key : A -> Value) (P : Value -> Prop).
Context (HP : BTreeInv.ordered_class P).

Local Abbreviation le := (RowOrder.le_by key).

Lemma insert_sorted_ok (x : A) (l : list A) :
  P (key x) -> Forall (fun y => P (key y)) l -> StronglySorted le l ->
  exists l',
    Executor.insert_sorted key x l = Ok l' /\
    l' ≡ₚ x :: l /\ StronglySorted le l'.
Proof.
  intros Hx Hl Hs. induction l as [|y l IH]; cbn [Executor.insert_sorted].
  - exists [x]. split; [reflexivity|]. split; [reflexivity|].
    repeat constructor.
  - apply Forall_cons in Hl as [Hy Hl]. apply StronglySorted_cons in Hs as [Hhd Hs].
    destruct (BTreeFacts.py_lt_ok P HP (key y) (key x) Hy Hx) as [b Hb].
    rewrite Hb. cbn [mbind result_bind]. destruct b.
    + destruct (IH Hl Hs) as (l' & -> & Hperm & Hs'). cbn.
      exists (y :: l'). split; [reflexivity|]. split.
      * rewrite Hperm. apply perm_swap.
      * constructor; [exact Hs'|]. rewrite Hperm. constructor; [|exact Hhd].
        apply lt_le, Hb.
    + exists (x :: y :: l). split; [reflexivity|]. split; [reflexivity|].
      assert (Hxy : le x y) by (apply not_lt_le, Hb).
      constructor; [constructor; assumption|].
      constructor; [exact Hxy|].
      eapply Forall_impl; [exact Hhd|]. intros z Hz. eapply le_trans; eassumption.
Qed.

Lemma sort_ok (l : list A) :
  Forall (fun y => P (key y)) l ->
  exists l',
    foldr (fun x acc => acc ← acc; Executor.insert_sorted key x acc) (Ok []) l = Ok l' /\
    l' ≡ₚ l /\ StronglySorted le l'.
Proof.
  induction 1 as [|x l Hx Hl IH]; cbn [foldr].
  - exists []. split; [reflexivity|]. split; [reflexivity|constructor].
  - destruct IH as (l1 & -> & Hperm & Hs). cbn [mbind result_bind].
    destruct (insert_sorted_ok x l1 Hx) as (l2 & -> & Hperm2 & Hs2); [|exact Hs|].
    + rewrite Hperm. exact Hl.
    + exists l2. split; [reflexivity|]. split; [|exact Hs2].
      rewrite Hperm2, Hperm. reflexivity.
Qed.

Lemma sorted_rev (l : list A) :
  StronglySorted le l -> StronglySorted (flip le) (rev l).
Proof.
  induction 1 as [|x l Hs IH Hhd]; cbn [rev]; [constructor|].
  apply StronglySorted_app_2; [|exact IH|repeat constructor].
  intros a b Ha ->%list_elem_of_singleton. unfold flip.
  rewrite Forall_forall in Hhd. apply Hhd.
  apply list_elem_of_In, in_rev, list_elem_of_In. exact Ha.
Qed.

Lemma py_sorted_ok (reverse : bool) (l : list A) :
  Forall (fun y => P (key y)) l ->
  exists l',
    Executor.py_sorted key reverse l = Ok l' /\
    l' ≡ₚ l /\ StronglySorted (if reverse then flip le else le) l'.
Proof.
  intros Hl. unfold Executor.py_sorted. destruct reverse.
  - destruct (sort_ok (rev l)) as (l1 & -> & Hperm & Hs).
    { apply Forall_forall. intros y Hy. rewrite Forall_forall in Hl. apply Hl.
      apply list_elem_of_In, in_rev, list_elem_of_In. exact Hy. }
    cbn [mbind result_bind]. exists (rev l1). split; [reflexivity|]. split.
    + rewrite <- Permutation_rev, Hperm, <- Permutation_rev. reflexivity.
    + apply sorted_rev, Hs.
  - apply sort_ok, Hl.
Qed.

End Sorting.
End OrderFacts.

(** ** ORDER BY and the joins *)

(** X17: a SELECT with ORDER BY and neither JOIN nor WHERE, on a column
    whose sort keys (the cell, or the empty string for NULL) Python can
    order among themselves, returns the live rows rearranged so that the
    keys ascend, or descend for DESC. *)
Theorem order_by_sorts_rows (P : Value -> Prop) (db : Database.t) (t : Table.t)
    (parsed : Executor.Select) (column : string) (direction : Executor.Direction) :
  BTreeInv.ordered_class P ->
  Executor.joins parsed = [] ->
  Executor.where_ parsed = None ->
  Executor.order_by parsed = Some (column, direction) ->
  Forall (fun row => P (Executor.order_key column row)) (Table.scan t) ->
  exists rows,
    Executor.select_rows db t parsed = Ok rows /\
    rows ≡ₚ Table.scan t /\
    RowOrder.ordered_by column (bool_decide (direction = Executor.DESC)) rows.
Proof.
  intros HP Hj Hw Ho Hkeys. unfold Executor.select_rows. rewrite Hj, Hw, Ho.
  cbn [mbind result_bind].
  apply (OrderFacts.py_sorted_ok (Executor.order_key column) P HP). exact Hkeys.
Qed.

Lemma order_by_sorts_rows_witness :
  exists rows,
    Executor.select_rows Samples.census Samples.people
      (Executor.MkSelect ["*"] "people" [] None (Some ("id", Executor.DESC)) None)
    = Ok rows /\
    Row.row_id <$> rows = [5; 4; 3; 2; 1; 0] /\
    RowOrder.ordered_by "id" true rows.
Proof.
  destruct (order_by_sorts_rows BTreeInv.numeric Samples.census Samples.people
              (Executor.MkSelect ["*"] "people" [] None (Some ("id", Executor.DESC)) None)
              "id" Executor.DESC BTreeFacts.numeric_ordered eq_refl eq_refl eq_refl)
    as (rows & Hrows & _ & Hsorted).
  { vm_compute. repeat constructor; eexists; reflexivity. }
  exists rows. split; [exact Hrows|]. split; [|exact Hsorted].
  assert (Hids : fmap (M := list) Row.row_id <$>
                    Executor.select_rows Samples.census Samples.people
                      (Executor.MkSelect ["*"] "people" [] None
                         (Some ("id", Executor.DESC)) None)
                  = Ok [5; 4; 3; 2; 1; 0])
    by (vm_compute; reflexivity).
  rewrite Hrows in Hids. cbn [fmap result_fmap] in Hids. congruence.
Defined.

Module JoinFacts.

Lemma left_rows_nonempty (base_name : string) (join_table : Table.t)
    (left_col right_col : string) (join_rows : list Row.t) (base_row : Row.t) :
  Executor.left_rows_of base_name join_table left_col right_col join_rows base_row <> [] /\
  Forall (fun r => Row.row_id r = Row.row_id base_row)
    (Executor.left_rows_of base_name join_table left_col right_col join_rows base_row).
Proof.
  unfold Executor.left_rows_of.
  assert (Hids : Forall (fun r => Row.row_id r = Row.row_id base_row)
            (Executor.inner_rows_of base_name (Table.name join_table) left_col right_col
               join_rows base_row)).
  { unfold Executor.inner_rows_of. apply Forall_forall. intros r Hr.
    apply list_elem_of_fmap in Hr as (jr & -> & _). reflexivity. }
  destruct (Executor.inner_rows_of _ _ _ _ _ _) as [|r rs].
  - split; [discriminate|]. repeat constructor.
  - split; [discriminate|exact Hids].
Qed.

End JoinFacts.

(** X18: a single LEFT JOIN keeps every base row: the result is, for each
    base row in order, its merged rows with the matching join rows, or one
    row padded with NULLs when none matches; so it has at least as many
    rows as the base and every base row id occurs in it. *)
Theorem left_join_keeps_every_base_row (db : Database.t) (base_table join_table : Table.t)
    (base_rows : list Row.t) (j : Executor.Join) :
  Executor.join_type j = Executor.LEFT ->
  Database.get_table db (Executor.join_table j) = Some join_table ->
  let joined :=
    concat (map (Executor.left_rows_of (Table.name base_table) join_table
                   (Executor.col_name_of (Executor.on_left j))
                   (Executor.col_name_of (Executor.on_right j))
                   (Table.scan join_table)) base_rows) in
  Executor._apply_joins db base_table base_rows [j] = Ok joined /\
  (length base_rows <= length joined)%nat /\
  (forall b, b ∈ base_rows -> Row.row_id b ∈ Row.row_id <$> joined).
Proof.
  intros Hty Hget joined.
  split; [|split].
  - unfold Executor._apply_joins. cbn [foldl mbind result_bind].
    unfold Executor.apply_join. rewrite Hget, Hty. fold joined.
    cbn [mbind result_bind].
    destruct joined as [|r rs] eqn:Hj; [|reflexivity].
    destruct base_rows as [|b bs]; [reflexivity|]. exfalso.
    unfold joined in Hj. cbn [map concat] in Hj.
    apply app_eq_nil in Hj as [Hj _].
    exact (proj1 (JoinFacts.left_rows_nonempty _ _ _ _ _ _) Hj).
  - unfold joined. clear. induction base_rows as [|b bs IH]; [cbn; lia|].
    cbn [map concat]. rewrite length_app. cbn [length].
    pose proof (proj1 (JoinFacts.left_rows_nonempty (Table.name base_table) join_table
                  (Executor.col_name_of (Executor.on_left j))
                  (Executor.col_name_of (Executor.on_right j))
                  (Table.scan join_table) b)) as Hne.
    destruct (Executor.left_rows_of _ _ _ _ _ b); [congruence|]. cbn [length]. lia.
  - intros b Hb. unfold joined. clear joined Hty Hget.
    induction base_rows as [|b0 bs IH]; [inversion Hb|].
    cbn [map concat]. rewrite fmap_app. apply elem_of_app.
    apply elem_of_cons in Hb as [->|Hb]; [left|right; auto].
    destruct (JoinFacts.left_rows_nonempty (Table.name base_table) join_table
                (Executor.col_name_of (Executor.on_left j))
                (Executor.col_name_of (Executor.on_right j))
                (Table.scan join_table) b0) as [Hne Hids].
    destruct (Executor.left_rows_of _ _ _ _ _ b0) as [|r rs]; [congruence|].
    apply Forall_cons in Hids as [<- _]. cbn. apply elem_of_cons. auto.
Qed.

Lemma left_join_keeps_every_base_row_witness :
  fmap (M := list) Row.data <$>
    Executor._apply_joins Samples.shop Samples.customers (Table.scan Samples.customers)
      [Executor.MkJoin Executor.LEFT "orders" "customers.id" "orders.customer_id"]
  = Ok [[("customers.id", VInt 1); ("id", VInt 1);
         ("customers.name", VStr "Ann"); ("name", VStr "Ann");
         ("orders.id", VNone); ("orders.customer_id", VNone)]].
Proof.
  rewrite (proj1 (left_join_keeps_every_base_row Samples.shop Samples.customers
                    Samples.orders (Table.scan Samples.customers)
                    (Executor.MkJoin Executor.LEFT "orders" "customers.id"
                       "orders.customer_id") eq_refl eq_refl)).
  reflexivity.
Defined.

(** X19: RIGHT joins are parsed but have no branch in [_apply_joins]: a
    query whose joins are all RIGHT joins with existing tables gets the
    base rows back unchanged. *)
Theorem right_join_returns_base_rows (db : Database.t) (base_table : Table.t)
    (base_rows : list Row.t) (joins : list Executor.Join) :
  Forall (fun j => Executor.join_type j = Executor.RIGHT /\
                   is_Some (Database.get_table db (Executor.join_table j))) joins ->
  Executor._apply_joins db base_table base_rows joins = Ok base_rows.
Proof.
  intros Hjoins. unfold Executor._apply_joins.
  assert (Hfold : foldl (fun acc join =>
                           result_rows ← acc;
                           Executor.apply_join db base_table base_rows result_rows join)
                        (Ok []) joins = Ok []).
  { induction Hjoins as [|j joins [Hty [jt Hjt]] _ IH]; [reflexivity|].
    cbn [foldl mbind result_bind]. unfold Executor.apply_join at 2.
    rewrite Hjt, Hty. exact IH. }
  rewrite Hfold. reflexivity.
Qed.

Lemma right_join_returns_base_rows_witness :
  Executor._apply_joins Samples.shop Samples.customers (Table.scan Samples.customers)
    [Executor.MkJoin Executor.RIGHT "orders" "customers.id" "orders.customer_id"]
  = Ok (Table.scan Samples.customers).
Proof.
  apply right_join_returns_base_rows.
  repeat constructor. eexists. reflexivity.
Defined.

(** ** The catalog *)

Module StorageFacts.
Section WithBuiltins.
Context `{PyBuiltins}.

Lemma dict_mem_columns (cols : list Column.t) (d : dict Column.t) (k : string) :
  dict_mem k (foldl (fun d col => dict_set (Column.name col) col d) d cols)
  = dict_mem k d || bool_decide (k ∈ map Column.name cols).
Proof.
  revert d. induction cols as [|col cols IH]; intros d; cbn [foldl map].
  - rewrite bool_decide_eq_false_2 by (intros Hin; inversion Hin).
    rewrite orb_false_r. reflexivity.
  - rewrite IH, DictFacts.dict_mem_set.
    destruct (bool_decide_reflect (k = Column.name col)) as [->|Hne].
    + rewrite (bool_decide_eq_true_2 (_ ∈ _ :: _)) by (apply elem_of_cons; auto).
      cbn. rewrite orb_true_r. reflexivity.
    + cbn [orb]. f_equal. apply bool_decide_ext. rewrite elem_of_cons.
      split; [auto|]. intros [?|?]; [congruence|assumption].
Qed.

(** [Table(name, columns)] never raises: every column it indexes exists
    and there are no rows to read. *)
Lemma new_ok (name : string) (cols : list Column.t) :
  exists t,
    Table.new name cols = Ok t /\
    Table.name t = name /\
    Table.rows t = [] /\
    Table.next_row_id t = 0 /\
    Table.column_order t = map Column.name cols.
Proof.
  unfold Table.new.
  set (C := foldl (fun d col => dict_set (Column.name col) col d) [] cols).
  assert (Hmem : forall col, col ∈ cols -> dict_mem (Column.name col) C = true).
  { intros col Hcol. unfold C. rewrite dict_mem_columns.
    rewrite (bool_decide_eq_true_2 (_ ∈ _)); [apply orb_true_r|].
    apply list_elem_of_fmap. eauto. }
  set (inv := fun t : Table.t =>
         Table.name t = name /\ Table.columns t = C /\ Table.rows t = [] /\
         Table.next_row_id t = 0 /\ Table.column_order t = map Column.name cols).
  assert (Hgen : forall todo self,
    (forall col, col ∈ todo -> col ∈ cols) -> inv self ->
    exists t,
      foldl (fun r col =>
               self ← r;
               if Column.primary_key col || Column.unique col
               then Table.create_index self (Column.name col) true
               else Ok self) (Ok self) todo = Ok t /\ inv t).
  { induction todo as [|col todo IH]; intros self Hsub Hinv; cbn [foldl].
    - eauto.
    - cbn [mbind result_bind].
      assert (Hstep : exists self',
                (if Column.primary_key col || Column.unique col
                 then Table.create_index self (Column.name col) true
                 else Ok self) = Ok self' /\ inv self').
      { destruct (_ || _); [|eauto].
        destruct Hinv as (Hn & Hc & Hr & Hi & Ho).
        unfold Table.create_index. rewrite Hc, Hmem
          by (apply Hsub, elem_of_cons; auto). cbn [negb].
        destruct (dict_mem _ (Table.indexes self)); [exists self; repeat split; auto|].
        rewrite Hr. cbn [Table.build_index mbind result_bind].
        eexists. split; [reflexivity|]. repeat split; assumption. }
      destruct Hstep as (self' & -> & Hinv').
      apply IH; [|exact Hinv'].
      intros c Hc. apply Hsub, elem_of_cons. auto. }
  destruct (Hgen cols (Table.Make name C (map Column.name cols) [] [] 0))
    as (t & Ht & Hn & _ & Hr & Hi & Ho); [auto|repeat split|].
  exists t. auto.
Qed.

Lemma dict_get_del {V} (k k' : string) (d : dict V) :
  dict_get k (Storage.dict_del k' d)
  = if bool_decide (k = k') then None else dict_get k d.
Proof.
  unfold Storage.dict_del. induction d as [|[k0 v0] d IH]; cbn [dict_get].
  - rewrite filter_nil. destruct (bool_decide _); reflexivity.
  - rewrite filter_cons. cbn [fst]. destruct (decide (k0 <> k')) as [Hne|Heq].
    + cbn [dict_get]. rewrite IH.
      destruct (bool_decide_reflect (k = k0)) as [->|_]; [|reflexivity].
      rewrite bool_decide_eq_false_2 by exact Hne. reflexivity.
    + apply dec_stable in Heq. subst k0. rewrite IH.
      destruct (bool_decide_reflect (k = k')); reflexivity.
Qed.

Lemma dict_set_absent {V} (k : string) (v : V) (d : dict V) :
  dict_mem k d = false -> dict_set k v d = d ++ [(k, v)].
Proof.
  unfold dict_mem. induction d as [|[k0 v0] d IH]; cbn; [reflexivity|].
  destruct (bool_decide (k = k0)); [discriminate|].
  intros Hd. rewrite (IH Hd). reflexivity.
Qed.

Lemma dict_del_absent {V} (k : string) (d : dict V) :
  dict_mem k d = false -> Storage.dict_del k d = d.
Proof.
  unfold dict_mem, Storage.dict_del. induction d as [|[k0 v0] d IH]; cbn [dict_get].
  - reflexivity.
  - rewrite filter_cons. cbn [fst].
    destruct (bool_decide_reflect (k = k0)) as [->|Hne]; [discriminate|].
    intros Hd. destruct (decide (k0 <> k)) as [Hk|Hk]; [|exfalso; apply Hk; congruence].
    rewrite (IH Hd). reflexivity.
Qed.

Lemma dict_set_same {V} (k : string) (v : V) (d : dict V) :
  dict_get k d = Some v -> dict_set k v d = d.
Proof.
  induction d as [|[k0 v0] d IH]; cbn; [discriminate|].
  destruct (bool_decide_reflect (k = k0)) as [->|Hne].
  - intros [= ->]. reflexivity.
  - intros Hd. rewrite (IH Hd). reflexivity.
Qed.

End WithBuiltins.
End StorageFacts.

(** X20: [create_table] refuses a name that is taken and an empty column
    list, changing nothing; otherwise it never fails: the new, empty table
    is registered after the existing ones, the other tables are untouched,
    and the snapshot file holds the new state. *)
Theorem create_table_registers_table `{PyBuiltins} (self : Storage.t) (name : string)
    (columns : list Column.t) (now : string) :
  (Storage.table_exists self name = true ->
   Storage.create_table self name columns now
   = (self, Err (ValueError ("Table '" +:+ name +:+ "' already exists")))) /\
  (Storage.table_exists self name = false -> columns = [] ->
   Storage.create_table self name columns now
   = (self, Err (ValueError "Table must have at least one column"))) /\
  (Storage.table_exists self name = false -> columns <> [] ->
   exists table self',
     Storage.create_table self name columns now = (self', Ok table) /\
     Table.new name columns = Ok table /\
     Table.rows table = [] /\
     Storage.get_table self' name = Some table /\
     (forall other, other <> name ->
        Storage.get_table self' other = Storage.get_table self other) /\
     Storage.list_tables self' = Storage.list_tables self ++ [name] /\
     Storage.file self' = Some (Snapshot.save (Storage.database self') now)).
Proof.
  unfold Storage.create_table, Storage.table_exists. split; [|split].
  - intros ->. reflexivity.
  - intros -> ->. reflexivity.
  - intros Hno Hcols. rewrite Hno.
    destruct (StorageFacts.new_ok name columns) as (table & Hnew & _ & Hrows & _).
    rewrite Hnew. destruct columns as [|col cols]; [congruence|].
    eexists table, _. split; [reflexivity|]. split; [reflexivity|].
    split; [exact Hrows|].
    unfold Storage.get_table, Storage.list_tables, Database.get_table, Storage.save.
    cbn [Storage.database Storage.file Storage.set_tables Database.tables].
    split; [|split; [|split]].
    + rewrite DictFacts.dict_get_set, bool_decide_eq_true_2 by reflexivity. reflexivity.
    + intros other Hne. rewrite DictFacts.dict_get_set.
      rewrite bool_decide_eq_false_2 by exact Hne. reflexivity.
    + rewrite DictFacts.dict_keys_set, Hno. reflexivity.
    + reflexivity.
Qed.

Lemma create_table_registers_table_witness :
  Storage.list_tables
    (Storage.create_table (Storage.Make Samples.shop None) "items"
       [Samples.column "id" INT true] "2024-01-01T00:00:00").1
  = ["customers"; "orders"; "items"].
Proof.
  destruct (proj2 (proj2 (create_table_registers_table (Storage.Make Samples.shop None)
                            "items" [Samples.column "id" INT true] "2024-01-01T00:00:00"))
              eq_refl ltac:(discriminate))
    as (table & self' & Hcreate & _ & _ & _ & _ & Hlist & _).
  rewrite Hcreate. exact Hlist.
Defined.

(** X21: [drop_table] refuses a name that is not registered, changing
    nothing; otherwise it removes that table only and rewrites the snapshot
    file.  Dropping a table right after creating it gives back the catalog
    as it was before. *)
Theorem drop_table_removes_table `{PyBuiltins} (self : Storage.t) (name : string)
    (now : string) :
  (Storage.table_exists self name = false ->
   Storage.drop_table self name now
   = (self, Err (ValueError ("Table '" +:+ name +:+ "' does not exist")))) /\
  (Storage.table_exists self name = true ->
   exists self',
     Storage.drop_table self name now = (self', Ok ()) /\
     Storage.get_table self' name = None /\
     (forall other, other <> name ->
        Storage.get_table self' other = Storage.get_table self other) /\
     Storage.file self' = Some (Snapshot.save (Storage.database self') now)) /\
  (forall columns now0,
     Storage.table_exists self name = false -> columns <> [] ->
     Storage.database
       (Storage.drop_table (Storage.create_table self name columns now0).1 name now).1
     = Storage.database self).
Proof.
  unfold Storage.drop_table, Storage.table_exists. split; [|split].
  - intros ->. reflexivity.
  - intros ->. cbn [negb]. eexists. split; [reflexivity|].
    unfold Storage.get_table, Database.get_table, Storage.save.
    cbn [Storage.database Storage.file Storage.set_tables Database.tables].
    split; [|split].
    + rewrite StorageFacts.dict_get_del, bool_decide_eq_true_2 by reflexivity. reflexivity.
    + intros other Hne. rewrite StorageFacts.dict_get_del.
      rewrite bool_decide_eq_false_2 by exact Hne. reflexivity.
    + reflexivity.
  - intros columns now0 Hno Hcols. unfold Storage.create_table. rewrite Hno.
    destruct (StorageFacts.new_ok name columns) as (table & Hnew & _).
    rewrite Hnew. destruct columns as [|col cols]; [congruence|].
    cbn [fst Storage.save Storage.database Storage.set_tables Database.tables
         Database.name].
    rewrite DictFacts.dict_mem_set, bool_decide_eq_true_2 by reflexivity.
    cbn [orb negb fst Storage.save Storage.database Storage.set_tables Database.tables
         Database.name].
    rewrite (StorageFacts.dict_set_absent _ _ _ Hno).
    unfold Storage.dict_del. rewrite filter_app, filter_cons, filter_nil. cbn [fst].
    destruct (decide (name <> name)); [congruence|].
    rewrite app_nil_r.
    fold (Storage.dict_del name (Database.tables (Storage.database self))).
    rewrite (StorageFacts.dict_del_absent _ _ Hno).
    destruct (Storage.database self). reflexivity.
Qed.

Lemma drop_table_removes_table_witness :
  Storage.list_tables
    (Storage.drop_table (Storage.Make Samples.shop None) "orders" "2024-01-01T00:00:00").1
  = ["customers"] /\
  Storage.get_table
    (Storage.drop_table (Storage.Make Samples.shop None) "orders" "2024-01-01T00:00:00").1
    "orders" = None.
Proof.
  destruct (proj1 (proj2 (drop_table_removes_table (Storage.Make Samples.shop None)
                            "orders" "2024-01-01T00:00:00")) eq_refl)
    as (self' & Hdrop & Hget & _).
  rewrite Hdrop. split; [|exact Hget].
  injection Hdrop as <-. reflexivity.
Defined.

(** ** Statements *)

Module StatementFacts.
Import Statements.
Section WithBuiltins.
Context `{PyBuiltins}.

Lemma set_table_same (self : Storage.t) (name : string) (table : Table.t) :
  Storage.get_table self name = Some table -> set_table self name table = self.
Proof.
  unfold Storage.get_table, Database.get_table, set_table, Storage.set_tables.
  intros Hget. rewrite (StorageFacts.dict_set_same _ _ _ Hget).
  destruct self as [[db_name tables] file]. reflexivity.
Qed.

Lemma get_set_table (self : Storage.t) (name : string) (table : Table.t) :
  Storage.get_table (set_table self name table) name = Some table.
Proof.
  unfold Storage.get_table, Database.get_table, set_table, Storage.set_tables. cbn.
  rewrite DictFacts.dict_get_set, bool_decide_eq_true_2 by reflexivity. reflexivity.
Qed.

(** A ValueError of [Table.insert] comes from the conversion or the
    validation, before the table is touched. *)
Lemma insert_value_error (t t' : Table.t) (data : dict Value) (m : string) :
  Table.insert t data = (t', Err (ValueError m)) -> t' = t.
Proof.
  unfold Table.insert.
  destruct (Table.fill_defaults _ _ _) as [full_data|e0]; [|congruence].
  destruct (Table.validate_row _ _ _ _) as [[[] error]|e1]; try congruence.
  match goal with
  | |- context [Table.insert_indexes ?r ?i ?d ?ix] =>
      pose proof (IndexErrors.only_insert_indexes (fun e => forall m, e <> ValueError m)
                    ltac:(discriminate) ltac:(discriminate) r i d ix) as Hn;
      destruct (Table.insert_indexes r i d ix) as [ix' res]
  end.
  cbn [snd] in Hn. intros [= _ Hres].
  destruct res as [[]|e]; cbn in Hres; [discriminate|].
  injection Hres as ->. exfalso. exact (Hn _ eq_refl m eq_refl).
Qed.

Lemma live_from_spec (rs : list (option Row.t)) (k i : nat) (row : Row.t) :
  (i, row) ∈ live_from k rs <-> (k <= i)%nat /\ rs !! (i - k)%nat = Some (Some row).
Proof.
  revert k. induction rs as [|r rs IH]; intros k; cbn [live_from].
  - split; [intros Hin; inversion Hin|]. intros [_ Hl]. discriminate.
  - assert (Hrest : (i, row) ∈ live_from (S k) rs <->
                    (k < i)%nat /\ (r :: rs) !! (i - k)%nat = Some (Some row)).
    { rewrite IH. split.
      - intros [Hle Hl]. split; [lia|].
        replace (i - k)%nat with (S (i - S k)) by lia. exact Hl.
      - intros [Hlt Hl]. split; [lia|].
        replace (i - k)%nat with (S (i - S k)) in Hl by lia. exact Hl. }
    destruct r as [row0|].
    + rewrite elem_of_cons, Hrest. split.
      * intros [[= -> ->]|[Hlt Hl]]; [|split; [lia|exact Hl]].
        split; [lia|]. rewrite Nat.sub_diag. reflexivity.
      * intros [Hle Hl]. destruct (decide (i = k)) as [->|Hne].
        -- left. rewrite Nat.sub_diag in Hl. cbn in Hl. congruence.
        -- right. split; [lia|exact Hl].
    + rewrite Hrest. split.
      * intros [Hlt Hl]. split; [lia|exact Hl].
      * intros [Hle Hl]. destruct (decide (i = k)) as [->|Hne].
        -- rewrite Nat.sub_diag in Hl. discriminate.
        -- split; [lia|exact Hl].
Qed.

Lemma live_from_slots (rs : list (option Row.t)) (k : nat) :
  StronglySorted lt (live_from k rs).*1 /\
  Forall (fun i => (k <= i)%nat) (live_from k rs).*1 /\
  length (live_from k rs) = length (omap id rs).
Proof.
  revert k. induction rs as [|r rs IH]; intros k; cbn [live_from].
  - repeat split; constructor.
  - destruct (IH (S k)) as (Hs & Hge & Hlen). destruct r as [row|]; cbn.
    + split; [|split].
      * constructor; [exact Hs|]. eapply Forall_impl; [exact Hge|]. cbn. intros; lia.
      * constructor; [lia|]. eapply Forall_impl; [exact Hge|]. cbn. intros; lia.
      * rewrite Hlen. reflexivity.
    + split; [exact Hs|]. split; [|exact Hlen].
      eapply Forall_impl; [exact Hge|]. cbn. intros; lia.
Qed.

(** Deleting live slots one after the other turns each into a tombstone
    and touches nothing else. *)
Lemma delete_all_live (slots : list nat) :
  forall (t : Table.t) (count : nat),
    NoDup slots ->
    (forall i, i ∈ slots -> exists row, Table.rows t !! i = Some (Some row)) ->
    exists t',
      delete_all t slots count = (t', Ok (count + length slots)%nat) /\
      Table.next_row_id t' = Table.next_row_id t /\
      length (Table.rows t') = length (Table.rows t) /\
      (forall j, j ∈ slots -> Table.rows t' !! j = Some None) /\
      (forall j, j ∉ slots -> Table.rows t' !! j = Table.rows t !! j).
Proof.
  induction slots as [|i slots IH]; intros t count Hnd Hlive; cbn [delete_all].
  - exists t. split; [f_equal; f_equal; cbn; lia|]. repeat split.
    intros j Hj. inversion Hj.
  - apply NoDup_cons in Hnd as [Hi Hnd].
    destruct (Hlive i ltac:(apply elem_of_cons; auto)) as [row Hrow].
    pose proof (lookup_lt_Some _ _ _ Hrow) as Hlt.
    assert (Hdel : Table.delete t i =
      (Table.set_rows
         (Table.set_indexes t (Table.delete_indexes row i (Table.indexes t)))
         (<[i := None]> (Table.rows t)), Ok ())).
    { unfold Table.delete. destruct (Nat.leb_spec (length (Table.rows t)) i); [lia|].
      rewrite Hrow. reflexivity. }
    rewrite Hdel.
    destruct (IH (Table.set_rows
                    (Table.set_indexes t (Table.delete_indexes row i (Table.indexes t)))
                    (<[i := None]> (Table.rows t))) (S count) Hnd)
      as (t' & Hall & Hnext & Hlen & Hin & Hout).
    { intros j Hj. cbn [Table.set_rows Table.rows].
      rewrite list_lookup_insert_ne by (intros ->; contradiction).
      apply Hlive, elem_of_cons. auto. }
    cbn [Table.set_rows Table.set_indexes Table.rows Table.next_row_id] in *.
    exists t'. split; [rewrite Hall; f_equal; f_equal; cbn; lia|].
    split; [exact Hnext|]. split; [rewrite Hlen; apply length_insert|]. split.
    + intros j [->|Hj]%elem_of_cons; [|auto].
      rewrite (Hout i Hi). apply list_lookup_insert_eq. exact Hlt.
    + intros j Hj. rewrite Hout by (intros Hin'; apply Hj, elem_of_cons; auto).
      apply list_lookup_insert_ne. intros ->. apply Hj, elem_of_cons. auto.
Qed.

End WithBuiltins.

(** A statement writes the snapshot file exactly when it succeeds and is
    no SELECT. *)
Lemma run_file `{PyBuiltins} (self self' : Storage.t)
    (parsed : Statements.Statement) (now : string) (r : result Executor.QueryResult) :
  Statements.run self parsed now = (self', r) ->
  match parsed, r with
  | Statements.SELECT _, _ => self' = self
  | _, Err _ => Storage.file self' = Storage.file self
  | _, Ok _ => Storage.file self' = Some (Snapshot.save (Storage.database self') now)
  end.
Proof.
  destruct parsed as [s|i|u|d|c|x|name]; cbn [Statements.run].
  - intros [= <- _]. reflexivity.
  - unfold Statements._execute_insert.
    destruct (Storage.get_table self _) as [table|]; [|intros [= <- <-]; reflexivity].
    destruct (match Statements.insert_columns i with
              | Some (col :: cols) => _
              | _ => _
              end) as [row_data|e]; [|intros [= <- <-]; reflexivity].
    destruct (Table.insert table row_data) as [table' [row|e]];
      intros [= <- <-]; reflexivity.
  - unfold Statements._execute_update.
    destruct (Storage.get_table self _) as [table|]; [|intros [= <- <-]; reflexivity].
    destruct (Statements.selected _ _) as [rows|e]; [|intros [= <- <-]; reflexivity].
    destruct (Statements.update_all _ _ _ _) as [table' [n|e]];
      intros [= <- <-]; reflexivity.
  - unfold Statements._execute_delete.
    destruct (Storage.get_table self _) as [table|]; [|intros [= <- <-]; reflexivity].
    destruct (Statements.selected _ _) as [rows|e]; [|intros [= <- <-]; reflexivity].
    destruct (Statements.delete_all _ _ _) as [table' [n|e]];
      intros [= <- <-]; reflexivity.
  - unfold Statements._execute_create_table.
    destruct (Snapshot.traverse _ _) as [columns|e]; [|intros [= <- <-]; reflexivity].
    unfold Storage.create_table.
    destruct (dict_mem _ _); [intros [= <- <-]; reflexivity|].
    destruct columns as [|col cols]; [intros [= <- <-]; reflexivity|].
    destruct (Table.new _ _) as [table|e]; intros [= <- <-]; reflexivity.
  - unfold Statements._execute_create_index.
    destruct (Storage.get_table self _) as [table|]; [|intros [= <- <-]; reflexivity].
    destruct (Table.create_index _ _ _) as [table'|e]; intros [= <- <-]; reflexivity.
  - unfold Statements._execute_drop_table, Storage.drop_table.
    destruct (negb _); intros [= <- <-]; reflexivity.
Qed.

End StatementFacts.

(** X22: an INSERT statement that raises ValueError (an unknown table, a
    wrong number of values, a failed conversion or validation) leaves the
    database and the snapshot file exactly as they were.  Without a column
    list the number of values must be the number of columns of the table. *)
Theorem execute_insert_value_error_changes_nothing `{PyBuiltins} (self : Storage.t)
    (parsed : Statements.Insert) (now : string) :
  (forall self' m,
     Statements._execute_insert self parsed now = (self', Err (ValueError m)) ->
     self' = self) /\
  (forall table,
     Storage.get_table self (Statements.insert_table parsed) = Some table ->
     Statements.insert_columns parsed = None ->
     length (Statements.insert_values parsed) <> length (Table.column_order table) ->
     Statements._execute_insert self parsed now
     = (self, Err (ValueError "Value count doesn't match table column count"))).
Proof.
  unfold Statements._execute_insert. split.
  - intros self' m.
    destruct (Storage.get_table self _) as [table|] eqn:Hget; [|congruence].
    destruct (match Statements.insert_columns parsed with
              | Some (col :: cols) => _
              | _ => _
              end) as [row_data|e]; [|congruence].
    destruct (Table.insert table row_data) as [table' [row|e]] eqn:Hins; [discriminate|].
    intros [= <- ->]. apply StatementFacts.insert_value_error in Hins. subst table'.
    apply StatementFacts.set_table_same, Hget.
  - intros table -> -> Hlen. rewrite bool_decide_eq_true_2 by exact Hlen. reflexivity.
Qed.

Lemma execute_insert_value_error_changes_nothing_witness :
  Statements._execute_insert (Storage.Make Samples.shop None)
    (Statements.MkInsert "customers" None [VInt 2]) "2024-01-01T00:00:00"
  = (Storage.Make Samples.shop None,
     Err (ValueError "Value count doesn't match table column count")).
Proof.
  apply (proj2 (execute_insert_value_error_changes_nothing
                  (Storage.Make Samples.shop None)
                  (Statements.MkInsert "customers" None [VInt 2]) "2024-01-01T00:00:00")
           Samples.customers); [reflexivity|reflexivity|].
  vm_compute. discriminate.
Defined.

(** X23: a DELETE statement without WHERE on an existing table never
    fails: it reports the number of live rows, turns every slot into a
    tombstone (the row list keeps its length, [next_row_id] its value), and
    writes the new state to the snapshot file. *)
Theorem execute_delete_without_where `{PyBuiltins} (self : Storage.t) (name : string)
    (table : Table.t) (now : string) :
  Storage.get_table self name = Some table ->
  exists self' table',
    Statements._execute_delete self (Statements.MkDelete name None) now
    = (self', Ok (Statements.message
                    ("Deleted " +:+ pretty (length (Table.scan table)) +:+ " row(s)"))) /\
    Storage.get_table self' name = Some table' /\
    Table.scan table' = [] /\
    length (Table.rows table') = length (Table.rows table) /\
    Table.next_row_id table' = Table.next_row_id table /\
    Storage.file self' = Some (Snapshot.save (Storage.database self') now).
Proof.
  intros Hget. unfold Statements._execute_delete.
  cbn [Statements.delete_table Statements.delete_where]. rewrite Hget.
  unfold Statements.selected.
  destruct (StatementFacts.live_from_slots (Table.rows table) 0) as (Hs & _ & Hlen).
  destruct (StatementFacts.delete_all_live
              (Statements.live_from 0 (Table.rows table)).*1 table 0)
    as (table' & Hall & Hnext & Hlength & Hin & Hout).
  { clear -Hs. induction Hs as [|i l _ IH Hhd]; constructor; [|exact IH].
    intros Hi. rewrite Forall_forall in Hhd. specialize (Hhd i Hi). lia. }
  { intros i Hi. apply list_elem_of_fmap in Hi as ([i0 row] & -> & Hrow).
    apply StatementFacts.live_from_spec in Hrow as [_ Hrow].
    rewrite Nat.sub_0_r in Hrow. eauto. }
  rewrite Hall. cbn [Nat.add]. rewrite length_fmap, Hlen.
  eexists _, table'. split; [reflexivity|].
  split; [apply StatementFacts.get_set_table|].
  split; [|split; [exact Hlength|split; [exact Hnext|reflexivity]]].
  unfold Table.scan.
  assert (Hnone : forall j x, Table.rows table' !! j = Some x -> x = None).
  { intros j x Hx.
    destruct (decide (j ∈ (Statements.live_from 0 (Table.rows table)).*1)) as [Hj|Hj].
    - rewrite (Hin j Hj) in Hx. congruence.
    - rewrite (Hout j Hj) in Hx. destruct x as [row|]; [|reflexivity].
      exfalso. apply Hj. apply list_elem_of_fmap. exists (j, row). split; [reflexivity|].
      apply StatementFacts.live_from_spec. split; [lia|].
      rewrite Nat.sub_0_r. exact Hx. }
  clear -Hnone. induction (Table.rows table') as [|x rs IH]; [reflexivity|].
  rewrite (Hnone O x eq_refl). cbn. apply IH.
  intros j y Hy. apply (Hnone (S j)). exact Hy.
Qed.

Lemma execute_delete_without_where_witness :
  exists self',
    Statements._execute_delete (Storage.Make Samples.census None)
      (Statements.MkDelete "people" None) "2024-01-01T00:00:00"
    = (self', Ok (Statements.message "Deleted 6 row(s)")).
Proof.
  destruct (execute_delete_without_where (Storage.Make Samples.census None) "people"
              Samples.people "2024-01-01T00:00:00" eq_refl)
    as (self' & table' & Hdel & _).
  exists self'. exact Hdel.
Defined.

(** X24: [execute] writes the snapshot file exactly when a statement
    other than SELECT succeeds: after an exception (from the tokenizer, the
    parser or the statement) the file is as before, so whatever the
    statement already changed in memory is not saved; a SELECT changes
    nothing; every other statement that returns has saved the new state. *)
Theorem execute_saves_iff_statement_succeeds `{PyBuiltins} (self self' : Storage.t)
    (query : string) (now : string) (r : result Executor.QueryResult) :
  execute self query now = Some (self', r) ->
  match r with
  | Err _ => Storage.file self' = Storage.file self
  | Ok _ =>
      exists parsed,
        SQLParser.parse query = Some (Ok parsed) /\
        match parsed with
        | Statements.SELECT _ => self' = self
        | _ => Storage.file self' = Some (Snapshot.save (Storage.database self') now)
        end
  end.
Proof.
  unfold execute. destruct (SQLParser.parse query) as [[parsed|e]|]; cbn; try discriminate.
  - intros Hrun. apply (inj Some) in Hrun. apply StatementFacts.run_file in Hrun.
    destruct r as [result|e].
    + exists parsed. split; [reflexivity|]. destruct parsed; exact Hrun.
    + destruct parsed; subst; auto.
  - intros [= <- <-]. reflexivity.
Qed.

Lemma execute_saves_iff_statement_succeeds_witness :
  option_map (fun s => Storage.file s.1)
    (execute (Storage.Make Samples.shop None)
       "INSERT INTO customers VALUES (1, 'Bo')" "2024-01-01T00:00:00")
  = Some None.
Proof.
  destruct (execute (Storage.Make Samples.shop None)
              "INSERT INTO customers VALUES (1, 'Bo')" "2024-01-01T00:00:00")
    as [[self' r]|] eqn:Hex; [|vm_compute in Hex; discriminate].
  assert (Hr : exists e, r = Err e).
  { vm_compute in Hex. injection Hex as _ <-. eauto. }
  destruct Hr as [e ->].
  cbn. f_equal.
  exact (execute_saves_iff_statement_succeeds _ _ _ _ _ Hex).
Defined.

(** ** The parser *)

Module ParserFacts.
Import Tokenizer SQLParser.

Lemma while_loop_mono {St R} (body : St -> list Token -> result (step St R))
    (fuel fuel' : nat) (s : St) (toks : list Token) (r : R) :
  (fuel <= fuel')%nat ->
  while_loop body fuel s toks = Ok r -> while_loop body fuel' s toks = Ok r.
Proof.
  revert fuel' s toks. induction fuel as [|fuel IH]; intros fuel' s toks Hle;
    [discriminate|].
  destruct fuel' as [|fuel']; [lia|]. cbn [while_loop].
  destruct (body s toks) as [[s' toks'|r']|e]; cbn [mbind result_bind]; auto.
  apply IH. lia.
Qed.

Section Raises.
Context (ok : PyError -> Prop).

(** A loop whose rounds consume tokens ends before its fuel does. *)
Lemma only_while {St R} (body : St -> list Token -> result (step St R)) :
  (forall s toks, only_raises ok (body s toks)) ->
  (forall s toks s' toks', body s toks = Ok (Continue s' toks') ->
     (length toks' < length toks)%nat) ->
  forall fuel s toks, (length toks < fuel)%nat ->
    only_raises ok (while_loop body fuel s toks).
Proof.
  intros Hbody Hprog. induction fuel as [|fuel IH]; intros s toks Hfuel; [lia|].
  cbn [while_loop]. pose proof (Hbody s toks) as Hb. pose proof (Hprog s toks) as Hp.
  destruct (body s toks) as [[s' toks'|r]|e]; cbn [mbind result_bind].
  - apply IH. specialize (Hp s' toks' eq_refl). lia.
  - intros e. discriminate.
  - intros e' [= <-]. apply Hb. reflexivity.
Qed.

Lemma only_while_ {St R} (body : St -> list Token -> result (step St R)) :
  (forall s toks, only_raises ok (body s toks)) ->
  (forall s toks s' toks', body s toks = Ok (Continue s' toks') ->
     (length toks' < length toks)%nat) ->
  forall s toks, only_raises ok (while_ body s toks).
Proof. intros Hbody Hprog s toks. apply only_while; auto. Qed.

End Raises.

Lemma link_upper (op : string) :
  op ∈ ["AND"; "OR"] -> string_in (str_upper op) ["AND"; "OR"] = true /\ str_upper op = op.
Proof.
  intros Hop. apply elem_of_cons in Hop as [->|Hop]; [split; reflexivity|].
  apply elem_of_cons in Hop as [->|Hop]; [split; reflexivity|]. inversion Hop.
Qed.

Lemma length_tokens_of (chain : list ConditionChain.link) :
  (length chain <= length (ConditionChain.tokens_of chain))%nat.
Proof.
  unfold ConditionChain.tokens_of. induction chain as [|l chain IH]; cbn; [lia|].
  rewrite length_app. lia.
Qed.

Section WithBuiltins.
Context `{PyBuiltins}.

Lemma condition_chain_loop (chain : list ConditionChain.link) :
  forall (first : Executor.Condition) (fuel : nat) (tail : list Token),
    (length chain < fuel)%nat ->
    Forall (fun l : ConditionChain.link =>
              l.1.1 ∈ ["AND"; "OR"] /\
              forall rest, _parse_simple_condition (l.1.2 ++ rest) = Ok (l.2, rest))
           chain ->
    upper_in ["AND"; "OR"] tail = false ->
    while_loop condition_step fuel first (ConditionChain.tokens_of chain ++ tail)
    = Ok (ConditionChain.left_assoc first chain, tail).
Proof.
  induction chain as [|[[op toks] c] chain IH]; intros first fuel tail Hfuel Hchain Htail;
    (destruct fuel as [|fuel]; [lia|]); cbn [while_loop].
  - cbn [ConditionChain.tokens_of map concat app]. unfold condition_step.
    destruct tail as [|token rest]; [reflexivity|].
    cbn [upper_in] in Htail. rewrite Htail. reflexivity.
  - apply Forall_cons in Hchain as [[Hop Hsimple] Hchain]. cbn [fst snd] in Hop, Hsimple.
    destruct (link_upper op Hop) as [Hin Hup].
    assert (Hstep : forall rest,
              condition_step first (MkToken KEYWORD op :: toks ++ rest)
              = Ok (Continue (Executor.LOGICAL op first c) rest)).
    { intros rest. unfold condition_step. cbn [value].
      rewrite Hin, Hup, Hsimple. reflexivity. }
    match goal with
    | |- context [?x ++ tail] =>
        replace (x ++ tail)
          with (MkToken KEYWORD op :: toks ++ (ConditionChain.tokens_of chain ++ tail))
    end.
    2:{ unfold ConditionChain.tokens_of. cbn [map concat fst snd app].
        rewrite <- app_assoc. reflexivity. }
    rewrite Hstep. cbn [mbind result_bind].
    apply IH; [cbn in Hfuel; lia|exact Hchain|exact Htail].
Qed.

End WithBuiltins.
End ParserFacts.

(** X25: AND and OR have the same precedence and associate to the left: a
    WHERE condition [c0 op1 c1 op2 c2 ...] is parsed as
    [((c0 op1 c1) op2 c2) ...], so [a OR b AND c] means [(a OR b) AND c]. *)
Theorem where_conditions_associate_left `{PyBuiltins}
    (first_tokens : list Tokenizer.Token) (first : Executor.Condition)
    (chain : list ConditionChain.link) (tail : list Tokenizer.Token) :
  (forall rest, SQLParser._parse_simple_condition (first_tokens ++ rest) = Ok (first, rest)) ->
  Forall (fun l : ConditionChain.link =>
            l.1.1 ∈ ["AND"; "OR"] /\
            forall rest, SQLParser._parse_simple_condition (l.1.2 ++ rest) = Ok (l.2, rest))
         chain ->
  SQLParser.upper_in ["AND"; "OR"] tail = false ->
  SQLParser._parse_condition (first_tokens ++ ConditionChain.tokens_of chain ++ tail)
  = Ok (ConditionChain.left_assoc first chain, tail).
Proof.
  intros Hfirst Hchain Htail. unfold SQLParser._parse_condition.
  rewrite Hfirst. cbn [mbind result_bind]. unfold SQLParser.while_.
  apply ParserFacts.condition_chain_loop; [|exact Hchain|exact Htail].
  rewrite length_app. pose proof (ParserFacts.length_tokens_of chain). lia.
Qed.

Lemma where_conditions_associate_left_witness :
  let cmp (col : string) (n : string) :=
    [Tokenizer.MkToken Tokenizer.IDENTIFIER col; Tokenizer.MkToken Tokenizer.OPERATOR "=";
     Tokenizer.MkToken Tokenizer.STRING n] in
  SQLParser._parse_condition
    (cmp "a" "1" ++
     [Tokenizer.MkToken Tokenizer.KEYWORD "OR"] ++ cmp "b" "2" ++
     [Tokenizer.MkToken Tokenizer.KEYWORD "AND"] ++ cmp "c" "3")
  = Ok (Executor.LOGICAL "AND"
          (Executor.LOGICAL "OR" (Executor.COMPARISON "a" "=" (VStr "1"))
                                 (Executor.COMPARISON "b" "=" (VStr "2")))
          (Executor.COMPARISON "c" "=" (VStr "3")), []).
Proof.
  intros cmp.
  exact (where_conditions_associate_left (cmp "a" "1")
           (Executor.COMPARISON "a" "=" (VStr "1"))
           [("OR", cmp "b" "2", Executor.COMPARISON "b" "=" (VStr "2"));
            ("AND", cmp "c" "3", Executor.COMPARISON "c" "=" (VStr "3"))] []
           (fun rest => eq_refl)
           ltac:(repeat constructor) eq_refl).
Defined.

(** *** The parser consumes tokens and raises ValueError only *)

Module ParserTotal.
Import Tokenizer SQLParser ParserInv.

Lemma length_advance (toks : list Token) : (length (_advance toks) <= length toks)%nat.
Proof. destruct toks; cbn; lia. Qed.

Lemma expect_inside (expected : string) (ty : TokenType) (toks toks' : list Token) :
  _expect expected ty toks = Ok toks' -> (length toks' < length toks)%nat.
Proof.
  unfold _expect. destruct toks as [|token rest]; [discriminate|].
  destruct (_ || _); [discriminate|]. intros [= <-]. cbn. lia.
Qed.

Lemma identifier_inside (error : string) (toks : list Token) :
  inside toks (identifier error toks).
Proof.
  intros a toks'. unfold identifier. destruct toks as [|token rest]; [discriminate|].
  destruct (is_type _ _); [|discriminate]. intros [= <- <-]. cbn. lia.
Qed.

Lemma dotted_within (name : Token) (toks : list Token) : within toks (dotted name toks).
Proof.
  intros a toks'. unfold dotted. destruct (value_is "." toks); [|intros [= <- <-]; lia].
  destruct (identifier _ _) as [[col rest]|e] eqn:Hid; cbn; [|discriminate].
  intros [= <- <-]. apply identifier_inside in Hid.
  pose proof (length_advance toks). lia.
Qed.

Lemma while_within {St X} (body : St -> list Token -> result (step St (X * list Token))) :
  (forall s toks s' toks', body s toks = Ok (Continue s' toks') ->
     (length toks' < length toks)%nat) ->
  (forall s toks x toks', body s toks = Ok (Break (x, toks')) ->
     (length toks' <= length toks)%nat) ->
  forall fuel s toks, within toks (while_loop body fuel s toks).
Proof.
  intros Hcont Hbreak. induction fuel as [|fuel IH]; intros s toks x toks';
    [discriminate|].
  cbn [while_loop]. pose proof (Hcont s toks) as Hc. pose proof (Hbreak s toks) as Hb.
  destruct (body s toks) as [[s1 toks1|[x1 toks1]]|e]; cbn [mbind result_bind];
    [|intros [= <- <-]; eauto|discriminate].
  intros Hloop. apply IH in Hloop. specialize (Hc s1 toks1 eq_refl). lia.
Qed.

Section WithBuiltins.
Context `{PyBuiltins}.

Lemma simple_inside (toks : list Token) : inside toks (_parse_simple_condition toks).
Proof.
  intros c toks'. unfold _parse_simple_condition.
  destruct (identifier _ _) as [[column toks1]|e] eqn:Hid; cbn [mbind result_bind];
    [|discriminate].
  apply identifier_inside in Hid.
  destruct (dotted column toks1) as [[column_value toks2]|e] eqn:Hdot;
    cbn [mbind result_bind]; [|discriminate].
  apply dotted_within in Hdot.
  destruct toks2 as [|operator toks3]; [discriminate|].
  destruct (negb _); [discriminate|].
  destruct toks3 as [|value_token toks4]; [discriminate|].
  destruct (_parse_value value_token); cbn [mbind result_bind]; [|discriminate].
  intros [= <- <-]. cbn in Hdot. lia.
Qed.

Lemma condition_step_continue (left_cond : Executor.Condition) (toks : list Token)
    (s' : Executor.Condition) (toks' : list Token) :
  condition_step left_cond toks = Ok (Continue s' toks') ->
  (length toks' < length toks)%nat.
Proof.
  unfold condition_step. destruct toks as [|token rest]; [discriminate|].
  destruct (string_in _ _); [|discriminate].
  destruct (_parse_simple_condition rest) as [[right_cond toks1]|e] eqn:Hs;
    cbn [mbind result_bind]; [|discriminate].
  intros [= <- <-]. apply simple_inside in Hs. cbn. lia.
Qed.

Lemma condition_step_break (left_cond : Executor.Condition) (toks : list Token)
    (x : Executor.Condition) (toks' : list Token) :
  condition_step left_cond toks = Ok (Break (x, toks')) ->
  (length toks' <= length toks)%nat.
Proof.
  unfold condition_step. destruct toks as [|token rest]; [intros [= <- <-]; lia|].
  destruct (string_in _ _); [|intros [= <- <-]; lia].
  destruct (_parse_simple_condition rest) as [[right_cond toks1]|e];
    cbn [mbind result_bind]; discriminate.
Qed.

Lemma condition_inside (toks : list Token) : inside toks (_parse_condition toks).
Proof.
  intros c toks'. unfold _parse_condition, while_.
  destruct (_parse_simple_condition toks) as [[left_cond toks1]|e] eqn:Hs;
    cbn [mbind result_bind]; [|discriminate].
  apply simple_inside in Hs. intros Hloop.
  apply (while_within condition_step condition_step_continue condition_step_break)
    in Hloop. lia.
Qed.

Lemma join_inside (ty : option Executor.JoinType) (toks : list Token) :
  inside toks (_parse_join ty toks).
Proof.
  intros j toks'. unfold _parse_join.
  set (start := match ty with Some _ => toks | None => _advance toks end).
  assert (Hstart : (length start <= length toks)%nat).
  { unfold start. destruct ty; [lia|apply length_advance]. }
  replace (let '(join_type, toks0) := match ty with
                                      | Some ty0 => (ty0, toks)
                                      | None => _
                                      end in _)
    with (toks0 ← _expect "JOIN" KEYWORD start;
          '(table, toks0) ← identifier "Expected table name in JOIN" toks0;
          toks0 ← _expect "ON" KEYWORD toks0;
          '(left_tok, toks0) ← identifier "Expected column name in JOIN condition" toks0;
          '(left_value, toks0) ← dotted left_tok toks0;
          if negb (value_is "=" toks0) then Err (ValueError "Expected = in JOIN condition")
          else
            let toks0 := _advance toks0 in
            '(right_tok, toks0) ← identifier "Expected column name in JOIN condition" toks0;
            '(right_value, toks0) ← dotted right_tok toks0;
            Ok (Executor.MkJoin
                  match ty with
                  | Some ty0 => ty0
                  | None => if upper_in ["INNER"] toks then Executor.INNER
                            else if upper_in ["LEFT"] toks then Executor.LEFT
                            else Executor.RIGHT
                  end (value table) left_value right_value, toks0))
    by (unfold start; destruct ty; reflexivity).
  destruct (_expect "JOIN" KEYWORD start) as [toks1|e] eqn:H1; cbn [mbind result_bind];
    [|discriminate].
  apply expect_inside in H1. intros Hrest.
  cut (length toks' <= length toks1)%nat; [lia|]. revert Hrest.
  destruct (identifier _ toks1) as [[table toks2]|e] eqn:H2; cbn [mbind result_bind];
    [|discriminate].
  apply identifier_inside in H2.
  destruct (_expect "ON" KEYWORD toks2) as [toks3|e] eqn:H3; cbn [mbind result_bind];
    [|discriminate].
  apply expect_inside in H3.
  destruct (identifier _ toks3) as [[left_tok toks4]|e] eqn:H4; cbn [mbind result_bind];
    [|discriminate].
  apply identifier_inside in H4.
  destruct (dotted left_tok toks4) as [[left_value toks5]|e] eqn:H5;
    cbn [mbind result_bind]; [|discriminate].
  apply dotted_within in H5.
  destruct (negb _); [discriminate|]. cbv zeta.
  destruct (identifier _ (_advance toks5)) as [[right_tok toks6]|e] eqn:H6;
    cbn [mbind result_bind]; [|discriminate].
  apply identifier_inside in H6. pose proof (length_advance toks5).
  destruct (dotted right_tok toks6) as [[right_value toks7]|e] eqn:H7;
    cbn [mbind result_bind]; [|discriminate].
  apply dotted_within in H7. intros [= <- <-]. lia.
Qed.

Lemma order_by_inside (toks : list Token) : inside toks (_parse_order_by toks).
Proof.
  intros o toks'. unfold _parse_order_by.
  destruct (_expect "ORDER" KEYWORD toks) as [toks1|e] eqn:H1; cbn [mbind result_bind];
    [|discriminate].
  apply expect_inside in H1.
  destruct (_expect "BY" KEYWORD toks1) as [toks2|e] eqn:H2; cbn [mbind result_bind];
    [|discriminate].
  apply expect_inside in H2.
  destruct (identifier _ toks2) as [[column toks3]|e] eqn:H3; cbn [mbind result_bind];
    [|discriminate].
  apply identifier_inside in H3. pose proof (length_advance toks3).
  destruct (upper_in _ toks3); intros [= <- <-]; lia.
Qed.

Lemma limit_inside (toks : list Token) :
  toks <> [] -> inside toks (_parse_limit toks).
Proof.
  intros Hne n toks'. unfold _parse_limit.
  destruct toks as [|token rest]; [congruence|]. cbn [_advance tail].
  destruct rest as [|limit rest]; [discriminate|].
  destruct (negb _); [discriminate|].
  destruct (py_int _); cbn [mbind result_bind]; [|discriminate].
  intros [= <- <-]. cbn. lia.
Qed.

Lemma upper_in_nonempty (l : list string) (toks : list Token) :
  upper_in l toks = true -> toks <> [].
Proof. destruct toks; [discriminate|discriminate]. Qed.

Lemma select_clauses_continue (parsed : Executor.Select) (toks : list Token)
    (s' : Executor.Select) (toks' : list Token) :
  select_clauses parsed toks = Ok (Continue s' toks') ->
  (length toks' < length toks)%nat.
Proof.
  unfold select_clauses. destruct parsed as [columns table joins where_ order_by limit].
  destruct (upper_in ["INNER"; "LEFT"; "RIGHT"] toks).
  { destruct (_parse_join None toks) as [[join toks1]|e] eqn:Hj; cbn [mbind result_bind];
      [|discriminate].
    intros [= <- <-]. exact (join_inside _ _ _ _ Hj). }
  destruct (upper_in ["JOIN"] toks).
  { destruct (_parse_join _ toks) as [[join toks1]|e] eqn:Hj; cbn [mbind result_bind];
      [|discriminate].
    intros [= <- <-]. exact (join_inside _ _ _ _ Hj). }
  destruct (upper_in ["WHERE"] toks) eqn:Hw.
  { unfold _parse_where.
    destruct (_parse_condition _) as [[cond toks1]|e] eqn:Hc; cbn [mbind result_bind];
      [|discriminate].
    intros [= <- <-]. apply condition_inside in Hc.
    pose proof (length_advance toks). lia. }
  destruct (upper_in ["ORDER"] toks).
  { destruct (_parse_order_by toks) as [[order toks1]|e] eqn:Ho; cbn [mbind result_bind];
      [|discriminate].
    intros [= <- <-]. exact (order_by_inside _ _ _ Ho). }
  destruct (upper_in ["LIMIT"] toks) eqn:Hl; [|discriminate].
  destruct (_parse_limit toks) as [[n toks1]|e] eqn:Hn; cbn [mbind result_bind];
    [|discriminate].
  intros [= <- <-]. exact (limit_inside _ (upper_in_nonempty _ _ Hl) _ _ Hn).
Qed.

Lemma select_columns_continue (columns : list string) (toks : list Token)
    (s' : list string) (toks' : list Token) :
  select_columns columns toks = Ok (Continue s' toks') ->
  (length toks' < length toks)%nat.
Proof.
  unfold select_columns. destruct toks as [|token rest]; [discriminate|].
  assert (Hcomma : forall cols (t : list Token),
            (length t <= length (token :: rest))%nat ->
            (if value_is "," t
             then Ok (Continue cols (_advance t))
             else Ok (Break (cols, t))) = Ok (Continue s' toks') ->
            (length toks' < length (token :: rest))%nat).
  { intros cols t Ht. destruct t as [|c t']; [discriminate|].
    destruct (value_is _ _); [|discriminate]. intros [= <- <-]. cbn in *. lia. }
  destruct (bool_decide (value token = "*")); [apply Hcomma; cbn; lia|].
  destruct (is_type IDENTIFIER token); [|apply Hcomma; cbn; lia].
  destruct (value_is "." rest); [|apply Hcomma; cbn; lia].
  pose proof (length_advance rest).
  destruct (_advance rest) as [|col_part rest'] eqn:Hadv; [apply Hcomma; cbn in *; lia|].
  destruct (is_type IDENTIFIER col_part); apply Hcomma; cbn in *; lia.
Qed.

Lemma select_columns_break (columns : list string) (toks : list Token)
    (x : list string) (toks' : list Token) :
  select_columns columns toks = Ok (Break (x, toks')) ->
  (length toks' <= length toks)%nat.
Proof.
  unfold select_columns. destruct toks as [|token rest]; [intros [= <- <-]; lia|].
  assert (Hcomma : forall cols (t : list Token),
            (length t <= length (token :: rest))%nat ->
            (if value_is "," t
             then Ok (Continue cols (_advance t))
             else Ok (Break (cols, t))) = Ok (Break (x, toks')) ->
            (length toks' <= length (token :: rest))%nat).
  { intros cols t Ht. destruct (value_is _ _); [discriminate|]. intros [= <- <-]. lia. }
  destruct (bool_decide (value token = "*")); [apply Hcomma; cbn; lia|].
  destruct (is_type IDENTIFIER token); [|apply Hcomma; cbn; lia].
  destruct (value_is "." rest); [|apply Hcomma; cbn; lia].
  pose proof (length_advance rest).
  destruct (_advance rest) as [|col_part rest'] eqn:Hadv; [apply Hcomma; cbn in *; lia|].
  destruct (is_type IDENTIFIER col_part); apply Hcomma; cbn in *; lia.
Qed.

Lemma insert_columns_continue (columns : list string) (toks : list Token)
    (s' : list string) (toks' : list Token) :
  insert_columns columns toks = Ok (Continue s' toks') ->
  (length toks' < length toks)%nat.
Proof.
  unfold insert_columns.
  destruct (identifier _ toks) as [[col toks1]|e] eqn:Hid; cbn [mbind result_bind];
    [|discriminate].
  apply identifier_inside in Hid. pose proof (length_advance toks1).
  destruct (value_is "," toks1); [intros [= <- <-]; lia|].
  destruct (value_is ")" toks1); discriminate.
Qed.

Lemma insert_values_continue (values : list Value) (toks : list Token)
    (s' : list Value) (toks' : list Token) :
  insert_values values toks = Ok (Continue s' toks') ->
  (length toks' < length toks)%nat.
Proof.
  unfold insert_values. destruct toks as [|val toks1]; [discriminate|].
  destruct (_parse_value val); cbn [mbind result_bind]; [|discriminate].
  pose proof (length_advance toks1).
  destruct (value_is "," toks1); [intros [= <- <-]; cbn; lia|].
  destruct (value_is ")" toks1); discriminate.
Qed.

Lemma update_sets_continue (updates : dict Value) (toks : list Token)
    (s' : dict Value) (toks' : list Token) :
  update_sets updates toks = Ok (Continue s' toks') ->
  (length toks' < length toks)%nat.
Proof.
  unfold update_sets.
  destruct (identifier _ toks) as [[col toks1]|e] eqn:Hid; cbn [mbind result_bind];
    [|discriminate].
  apply identifier_inside in Hid.
  destruct (_expect "=" OPERATOR toks1) as [toks2|e] eqn:He; cbn [mbind result_bind];
    [|discriminate].
  apply expect_inside in He.
  destruct toks2 as [|val toks3]; [discriminate|].
  destruct (_parse_value val); cbn [mbind result_bind]; [|discriminate].
  pose proof (length_advance toks3).
  destruct (value_is "," toks3); [|discriminate]. intros [= <- <-]. cbn in *. lia.
Qed.

Lemma column_constraints_continue (c : constraints) (toks : list Token)
    (s' : constraints) (toks' : list Token) :
  column_constraints c toks = Ok (Continue s' toks') ->
  (length toks' < length toks)%nat.
Proof.
  unfold column_constraints. destruct c as [[[primary_key unique] nullable] default].
  destruct toks as [|token rest]; [discriminate|].
  destruct (negb _); [discriminate|]. cbv zeta.
  destruct (bool_decide (_ = "PRIMARY")).
  { destruct (_expect "KEY" KEYWORD rest) as [toks1|e] eqn:He; cbn [mbind result_bind];
      [|discriminate].
    apply expect_inside in He. intros [= <- <-]. cbn. lia. }
  destruct (bool_decide (_ = "UNIQUE")); [intros [= <- <-]; cbn; lia|].
  destruct (bool_decide (_ = "NOT")).
  { destruct (_expect "NULL" KEYWORD rest) as [toks1|e] eqn:He; cbn [mbind result_bind];
      [|discriminate].
    apply expect_inside in He. intros [= <- <-]. cbn. lia. }
  destruct (bool_decide (_ = "DEFAULT")); [|discriminate].
  destruct rest as [|default_token toks1]; [discriminate|].
  destruct (_parse_value default_token); cbn [mbind result_bind]; [|discriminate].
  intros [= <- <-]. cbn. lia.
Qed.

Lemma column_constraints_break (c : constraints) (toks : list Token)
    (x : constraints) (toks' : list Token) :
  column_constraints c toks = Ok (Break (x, toks')) ->
  (length toks' <= length toks)%nat.
Proof.
  unfold column_constraints. destruct c as [[[primary_key unique] nullable] default].
  destruct toks as [|token rest]; [intros [= <- <-]; lia|].
  destruct (negb _); [intros [= <- <-]; lia|]. cbv zeta.
  destruct (bool_decide (_ = "PRIMARY")).
  { destruct (_expect "KEY" KEYWORD rest); cbn [mbind result_bind]; discriminate. }
  destruct (bool_decide (_ = "UNIQUE")); [discriminate|].
  destruct (bool_decide (_ = "NOT")).
  { destruct (_expect "NULL" KEYWORD rest); cbn [mbind result_bind]; discriminate. }
  destruct (bool_decide (_ = "DEFAULT")); [|intros [= <- <-]; lia].
  destruct rest as [|default_token toks1]; [discriminate|].
  destruct (_parse_value default_token); cbn [mbind result_bind]; discriminate.
Qed.

Lemma column_definitions_continue (columns : list Statements.ColumnDef)
    (toks : list Token) (s' : list Statements.ColumnDef) (toks' : list Token) :
  column_definitions columns toks = Ok (Continue s' toks') ->
  (length toks' < length toks)%nat.
Proof.
  unfold column_definitions.
  destruct (identifier _ toks) as [[col_name toks1]|e] eqn:Hid; cbn [mbind result_bind];
    [|discriminate].
  apply identifier_inside in Hid.
  destruct toks1 as [|col_type toks2]; [discriminate|].
  destruct (negb _); [discriminate|]. cbv zeta.
  match goal with
  | |- context [mbind _ ?m] =>
      assert (Hlen : within toks2 m); [|destruct m as [[length toks3]|e] eqn:Hm]
  end.
  { intros a t. destruct (value_is "(" toks2); [|intros [= <- <-]; lia].
    pose proof (length_advance toks2).
    destruct (_advance toks2) as [|length_token toks3]; [discriminate|].
    destruct (negb _); [discriminate|].
    destruct (py_int _); cbn [mbind result_bind]; [|discriminate].
    destruct (_expect ")" PUNCT toks3) as [toks4|e] eqn:He; cbn [mbind result_bind];
      [|discriminate].
    apply expect_inside in He. intros [= <- <-]. cbn in *. lia. }
  2:{ cbn [mbind result_bind]. discriminate. }
  specialize (Hlen _ _ eq_refl). cbn [mbind result_bind].
  destruct (while_ column_constraints _ toks3)
    as [[[[[primary_key unique] nullable] default] toks4]|e] eqn:Hc;
    cbn [mbind result_bind]; [|discriminate].
  apply (while_within column_constraints column_constraints_continue
           column_constraints_break) in Hc.
  pose proof (length_advance toks4).
  destruct (value_is "," toks4); [intros [= <- <-]; cbn in *; lia|].
  destruct (value_is ")" toks4); discriminate.
Qed.

(** *** Exceptions *)

Lemma only_value_error {A} (m : string) : only_raises value_error (@Err A (ValueError m)).
Proof. intros e [= <-]. eexists. reflexivity. Qed.

Hypothesis int_raises : forall s, only_raises value_error (py_int (VStr s)).
Hypothesis float_raises : forall s, only_raises value_error (py_float (VStr s)).

Ltac raises :=
  repeat first
    [ apply IndexErrors.only_ok
    | apply only_value_error
    | solve [auto]
    | apply int_raises
    | apply float_raises
    | apply IndexErrors.only_fmap
    | apply IndexErrors.only_bind; [|intros ? ?; cbv beta]
    | match goal with
      | |- only_raises _ (if _ then _ else _) => apply IndexErrors.only_if
      | |- only_raises _ (match ?x with _ => _ end) => destruct x
      | |- only_raises _ (let '(_, _) := ?x in _) => destruct x
      end ].

Lemma only_expect (expected : string) (ty : TokenType) (toks : list Token) :
  only_raises value_error (_expect expected ty toks).
Proof. unfold _expect. raises. Qed.

Lemma only_identifier (error : string) (toks : list Token) :
  only_raises value_error (identifier error toks).
Proof. unfold identifier. raises. Qed.

Lemma only_dotted (name : Token) (toks : list Token) :
  only_raises value_error (dotted name toks).
Proof. unfold dotted. pose proof only_identifier. raises. Qed.

Lemma only_parse_value (token : Token) : only_raises value_error (_parse_value token).
Proof. unfold _parse_value. raises. Qed.

Lemma only_simple (toks : list Token) :
  only_raises value_error (_parse_simple_condition toks).
Proof.
  unfold _parse_simple_condition.
  pose proof only_identifier. pose proof only_dotted. pose proof only_parse_value.
  raises.
Qed.

Lemma only_condition (toks : list Token) :
  only_raises value_error (_parse_condition toks).
Proof.
  unfold _parse_condition. pose proof only_simple.
  apply IndexErrors.only_bind; [auto|]. intros [left_cond toks1] _.
  apply ParserFacts.only_while_; [|apply condition_step_continue].
  intros s t. unfold condition_step. raises.
Qed.

Lemma only_join (ty : option Executor.JoinType) (toks : list Token) :
  only_raises value_error (_parse_join ty toks).
Proof.
  unfold _parse_join.
  pose proof only_expect. pose proof only_identifier. pose proof only_dotted.
  raises.
Qed.

Lemma only_order_by (toks : list Token) : only_raises value_error (_parse_order_by toks).
Proof.
  unfold _parse_order_by. pose proof only_expect. pose proof only_identifier. raises.
Qed.

Lemma only_limit (toks : list Token) : only_raises value_error (_parse_limit toks).
Proof. unfold _parse_limit. raises. Qed.

Lemma only_select (toks : list Token) : only_raises value_error (_parse_select toks).
Proof.
  unfold _parse_select. cbv zeta.
  apply IndexErrors.only_bind.
  { apply ParserFacts.only_while_; [|apply select_columns_continue].
    intros s t. unfold select_columns. raises. }
  intros [columns toks1] _. pose proof only_expect. pose proof only_identifier.
  apply IndexErrors.only_bind; [auto|]. intros toks2 _.
  apply IndexErrors.only_bind; [auto|]. intros [table_name toks3] _.
  apply ParserFacts.only_while_; [|apply select_clauses_continue].
  intros s t. unfold select_clauses, _parse_where.
  pose proof only_join. pose proof only_condition. pose proof only_order_by.
  pose proof only_limit. raises.
Qed.

Lemma only_insert (toks : list Token) : only_raises value_error (_parse_insert toks).
Proof.
  unfold _parse_insert. cbv zeta. pose proof only_expect. pose proof only_identifier.
  pose proof only_parse_value.
  apply IndexErrors.only_bind; [auto|]. intros toks1 _.
  apply IndexErrors.only_bind; [auto|]. intros [table toks2] _.
  apply IndexErrors.only_bind.
  { apply IndexErrors.only_if; [|raises].
    apply IndexErrors.only_bind; [|intros [? ?] _; raises].
    apply ParserFacts.only_while_; [|apply insert_columns_continue].
    intros s t. unfold insert_columns. raises. }
  intros [columns toks3] _.
  apply IndexErrors.only_bind; [auto|]. intros toks4 _.
  apply IndexErrors.only_bind; [auto|]. intros toks5 _.
  apply IndexErrors.only_bind; [|intros [? ?] _; raises].
  apply ParserFacts.only_while_; [|apply insert_values_continue].
  intros s t. unfold insert_values. raises.
Qed.

Lemma only_optional_where (toks : list Token) :
  only_raises value_error (optional_where toks).
Proof. unfold optional_where, _parse_where. pose proof only_condition. raises. Qed.

Lemma only_update (toks : list Token) : only_raises value_error (_parse_update toks).
Proof.
  unfold _parse_update. cbv zeta. pose proof only_expect. pose proof only_identifier.
  pose proof only_parse_value. pose proof only_optional_where.
  apply IndexErrors.only_bind; [auto|]. intros [table toks1] _.
  apply IndexErrors.only_bind; [auto|]. intros toks2 _.
  apply IndexErrors.only_bind; [|intros [? ?] _; raises].
  apply ParserFacts.only_while_; [|apply update_sets_continue].
  intros s t. unfold update_sets. raises.
Qed.

Lemma only_delete (toks : list Token) : only_raises value_error (_parse_delete toks).
Proof.
  unfold _parse_delete. pose proof only_expect. pose proof only_identifier.
  pose proof only_optional_where. raises.
Qed.

Lemma only_create_table (toks : list Token) :
  only_raises value_error (_parse_create_table toks).
Proof.
  unfold _parse_create_table. cbv zeta. pose proof only_expect.
  pose proof only_identifier. pose proof only_parse_value.
  apply IndexErrors.only_bind; [auto|]. intros [table toks1] _.
  apply IndexErrors.only_bind; [auto|]. intros toks2 _.
  apply IndexErrors.only_bind; [|intros [? ?] _; raises].
  apply ParserFacts.only_while_; [|apply column_definitions_continue].
  intros s t. unfold column_definitions.
  apply IndexErrors.only_bind; [auto|]. intros [col_name toks3] _.
  destruct toks3 as [|col_type toks4]; [raises|].
  apply IndexErrors.only_if; [raises|]. cbv zeta.
  apply IndexErrors.only_bind; [raises|]. intros [length toks5] _.
  apply IndexErrors.only_bind; [|intros [[[[? ?] ?] ?] ?] _; raises].
  apply ParserFacts.only_while_; [|apply column_constraints_continue].
  intros s1 t1. unfold column_constraints. raises.
Qed.

Lemma only_create_index (toks : list Token) :
  only_raises value_error (_parse_create_index toks).
Proof.
  unfold _parse_create_index. pose proof only_expect. pose proof only_identifier. raises.
Qed.

Lemma only_parse_tokens (toks : list Token) :
  only_raises value_error (parse_tokens toks).
Proof.
  unfold parse_tokens, _parse_create, _parse_drop.
  pose proof only_select. pose proof only_insert. pose proof only_update.
  pose proof only_delete. pose proof only_create_table. pose proof only_create_index.
  pose proof only_expect. pose proof only_identifier.
  raises.
Qed.

End WithBuiltins.
End ParserTotal.

(** X26: [parse] always returns, and when [int] and [float] raise nothing
    but ValueError on a string (as Python's do), a query that cannot be
    tokenized or parsed raises ValueError and nothing else. *)
Theorem parse_raises_only_value_error `{PyBuiltins} (query : string) :
  (forall s, only_raises ParserInv.value_error (py_int (VStr s))) ->
  (forall s, only_raises ParserInv.value_error (py_float (VStr s))) ->
  exists r, SQLParser.parse query = Some r /\ only_raises ParserInv.value_error r.
Proof.
  intros Hint Hfloat. unfold SQLParser.parse, Tokenizer.tokenize.
  destruct (LexerFacts.tokenize_some query) as [r Hr]. rewrite Hr.
  cbn [fmap option_fmap option_map mbind option_bind].
  eexists. split; [reflexivity|].
  destruct r as [st|e]; cbn [fmap result_fmap mbind result_bind].
  - apply ParserTotal.only_parse_tokens; assumption.
  - intros e' [= <-].
    apply LexerFacts.loop_error in Hr as (st' & _ & Hbody).
    apply LexerFacts.body_error in Hbody as (c & _ & _ & ->).
    eexists. reflexivity.
Qed.

Lemma parse_raises_only_value_error_witness :
  exists r,
    SQLParser.parse "SELECT FROM" = Some r /\
    only_raises ParserInv.value_error r.
Proof.
  apply parse_raises_only_value_error.
  - intros s e. cbn. unfold SampleBuiltins.int_of.
    destruct (SampleBuiltins.parse_int s); [discriminate|].
    intros [= <-]. eexists. reflexivity.
  - intros s e. cbn. unfold SampleBuiltins.float_of.
    destruct (SampleBuiltins.parse_int s); [discriminate|].
    intros [= <-]. eexists. reflexivity.
Defined.

(** X27: TRUE and FALSE are not among the tokenizer's keywords, so the
    value of a token that [tokenize] produced is never a boolean: a
    literal [TRUE] reaches the executor as the string ['TRUE']. *)
Theorem tokenized_literal_is_never_boolean `{PyBuiltins} (query : string)
    (toks : list Tokenizer.Token) (token : Tokenizer.Token) (v : Value) :
  Tokenizer.tokenize query = Some (Ok toks) ->
  token ∈ toks ->
  SQLParser._parse_value token = Ok v ->
  (forall b, v <> VBool b) /\
  (Tokenizer.type token = Tokenizer.IDENTIFIER -> v = VStr (Tokenizer.value token)).
Proof.
  intros Htok Hin. unfold Tokenizer.tokenize in Htok.
  destruct (Tokenizer.tokenize_loop _ _) as [[st|e]|] eqn:Hloop; try discriminate.
  injection Htok as <-.
  pose proof (LexerFacts.loop_shape _ _ _ Hloop ltac:(constructor)) as Hall.
  rewrite Forall_forall in Hall. specialize (Hall token Hin).
  unfold SQLParser._parse_value. unfold TokenShape.well_formed in Hall.
  destruct (Tokenizer.type token).
  - intros [= <-]. split; [discriminate|discriminate].
  - destruct (Tokenizer.char_in _ _).
    + destruct (py_float _); cbn; [|discriminate]. intros [= <-].
      split; discriminate.
    + destruct (py_int _); cbn; [|discriminate]. intros [= <-].
      split; discriminate.
  - assert (Hkw : string_in (str_upper (Tokenizer.value token)) ["TRUE"; "FALSE"] = false).
    { revert Hall.
      apply (LexerFacts.string_in_cases _ Tokenizer.KEYWORDS
               (fun k => string_in (str_upper k) ["TRUE"; "FALSE"] = false)).
      repeat constructor. }
    rewrite Hkw. destruct (bool_decide _); intros [= <-]; split; discriminate.
  - intros [= <-]. split; [discriminate|reflexivity].
  - intros [= <-]. split; discriminate.
  - intros [= <-]. split; discriminate.
Qed.

Lemma tokenized_literal_is_never_boolean_witness :
  SQLParser._parse_value (Tokenizer.MkToken Tokenizer.IDENTIFIER "TRUE") = Ok (VStr "TRUE").
Proof.
  assert (Htok : Tokenizer.tokenize "active = TRUE"
                 = Some (Ok [Tokenizer.MkToken Tokenizer.IDENTIFIER "active";
                             Tokenizer.MkToken Tokenizer.OPERATOR "=";
                             Tokenizer.MkToken Tokenizer.IDENTIFIER "TRUE"]))
    by (vm_compute; reflexivity).
  destruct (SQLParser._parse_value (Tokenizer.MkToken Tokenizer.IDENTIFIER "TRUE"))
    as [v|e] eqn:Hv; [|discriminate].
  f_equal.
  refine (proj2 (tokenized_literal_is_never_boolean "active = TRUE" _
                   (Tokenizer.MkToken Tokenizer.IDENTIFIER "TRUE") v Htok _ Hv) eq_refl).
  apply elem_of_cons. right. apply elem_of_cons. right. apply elem_of_cons. left.
  reflexivity.
Defined.

(** X28: the parser does not look at what follows a complete statement.
    After [DELETE FROM t], anything that is not the word WHERE ends the
    statement, which then deletes every row; after [DROP TABLE t] every
    token is ignored. *)
Theorem tokens_after_statement_are_ignored `{PyBuiltins} (table : string)
    (rest : list Tokenizer.Token) :
  (SQLParser.upper_in ["WHERE"] rest = false ->
   SQLParser.parse_tokens
     (Tokenizer.MkToken Tokenizer.KEYWORD "DELETE"
      :: Tokenizer.MkToken Tokenizer.KEYWORD "FROM"
      :: Tokenizer.MkToken Tokenizer.IDENTIFIER table :: rest)
   = Ok (Statements.DELETE (Statements.MkDelete table None))) /\
  SQLParser.parse_tokens
    (Tokenizer.MkToken Tokenizer.KEYWORD "DROP"
     :: Tokenizer.MkToken Tokenizer.KEYWORD "TABLE"
     :: Tokenizer.MkToken Tokenizer.IDENTIFIER table :: rest)
  = Ok (Statements.DROP_TABLE table).
Proof.
  split; [|reflexivity].
  intros Hrest.
  assert (Hparse : forall toks,
            SQLParser.parse_tokens (Tokenizer.MkToken Tokenizer.KEYWORD "DELETE" :: toks)
            = Statements.DELETE <$>
                SQLParser._parse_delete
                  (Tokenizer.MkToken Tokenizer.KEYWORD "DELETE" :: toks))
    by reflexivity.
  assert (Hdelete : forall toks,
            SQLParser._parse_delete
              (Tokenizer.MkToken Tokenizer.KEYWORD "DELETE"
               :: Tokenizer.MkToken Tokenizer.KEYWORD "FROM"
               :: Tokenizer.MkToken Tokenizer.IDENTIFIER table :: toks)
            = (where_ ← SQLParser.optional_where toks;
               Ok (Statements.MkDelete table where_)))
    by reflexivity.
  rewrite Hparse, Hdelete. unfold SQLParser.optional_where. rewrite Hrest. reflexivity.
Qed.

Lemma tokens_after_statement_are_ignored_witness :
  SQLParser.parse "DELETE FROM users WERE id = 1"
  = Some (Ok (Statements.DELETE (Statements.MkDelete "users" None))).
Proof.
  assert (Htok : Tokenizer.tokenize "DELETE FROM users WERE id = 1"
                 = Some (Ok (Tokenizer.MkToken Tokenizer.KEYWORD "DELETE"
                             :: Tokenizer.MkToken Tokenizer.KEYWORD "FROM"
                             :: Tokenizer.MkToken Tokenizer.IDENTIFIER "users"
                             :: [Tokenizer.MkToken Tokenizer.IDENTIFIER "WERE";
                                 Tokenizer.MkToken Tokenizer.IDENTIFIER "id";
                                 Tokenizer.MkToken Tokenizer.OPERATOR "=";
                                 Tokenizer.MkToken Tokenizer.NUMBER "1"])))
    by (vm_compute; reflexivity).
  unfold SQLParser.parse. rewrite Htok. cbn [mbind option_bind result_bind].
  rewrite (proj1 (tokens_after_statement_are_ignored "users"
                    [Tokenizer.MkToken Tokenizer.IDENTIFIER "WERE";
                     Tokenizer.MkToken Tokenizer.IDENTIFIER "id";
                     Tokenizer.MkToken Tokenizer.OPERATOR "=";
                     Tokenizer.MkToken Tokenizer.NUMBER "1"]) eq_refl).
  reflexivity.
Defined.

(** ** Snapshots of tables and indexes *)

Module SnapshotFacts.
Section WithBuiltins.
Context `{PyBuiltins}.

Lemma btree_insert_fields (index index' : BTreeIndex.t) (key : Value) (row_index : Z) :
  BTreeIndex.insert index key row_index = Ok index' ->
  BTreeIndex.column_name index' = BTreeIndex.column_name index /\
  BTreeIndex.order index' = BTreeIndex.order index /\
  BTreeIndex.size index' = BTreeIndex.size index + 1.
Proof.
  unfold BTreeIndex.insert.
  destruct (if BTreeNode.is_full _ then _ else _) as [root'|e]; [|discriminate].
  cbn [mbind result_bind].
  destruct (BTreeIndex._insert_non_full _ _ _ _ _) as [root''|e]; [|discriminate].
  intros [= <-]. auto.
Qed.

Lemma reinsert_fields (es : list (Value * Z)) :
  forall (r : result BTreeIndex.t) (index' : BTreeIndex.t),
    foldl (fun r '(key, row_index) =>
             index ← r; BTreeIndex.insert index key row_index) r es = Ok index' ->
    exists index,
      r = Ok index /\
      BTreeIndex.column_name index' = BTreeIndex.column_name index /\
      BTreeIndex.order index' = BTreeIndex.order index /\
      BTreeIndex.size index' = BTreeIndex.size index + Z.of_nat (length es).
Proof.
  induction es as [|[key row_index] es IH]; intros r index'; cbn [foldl].
  - intros ->. exists index'. cbn. repeat split; lia.
  - intros Hfold. destruct (IH _ _ Hfold) as (index1 & Hstep & Hc & Ho & Hs).
    destruct r as [index|e]; [|discriminate]. cbn [mbind result_bind] in Hstep.
    apply btree_insert_fields in Hstep as (Hc1 & Ho1 & Hs1).
    exists index. split; [reflexivity|]. cbn [length].
    repeat split; [congruence|congruence|lia].
Qed.

Lemma json_value_id (v : Value) :
  (forall d, v <> VDatetime d) -> Snapshot.json_value v = v.
Proof. destruct v; try reflexivity. intros Hd. exfalso. eapply Hd. reflexivity. Qed.

End WithBuiltins.
End SnapshotFacts.

(** X29: [BTreeIndex.from_dict] ignores the saved [size]: it inserts the
    saved entries into a new tree, so after a reload [size] is the number
    of entries the saved tree held, whatever the counter said before. *)
Theorem btree_reload_recounts_size `{PyBuiltins} (b : BTreeIndex.t) (ix : Index.t) :
  Snapshot.index_from_dict (Snapshot.json_index (Snapshot.btree_to_dict b)) = Ok ix ->
  exists b',
    ix = Index.BTree b' /\
    BTreeIndex.column_name b' = BTreeIndex.column_name b /\
    BTreeIndex.order b' = BTreeIndex.order b /\
    BTreeIndex.size b'
    = Z.of_nat (length (BTreeIndex._collect_entries (BTreeIndex.root b))).
Proof.
  unfold Snapshot.btree_to_dict, Snapshot.json_index, Snapshot.index_from_dict.
  destruct (foldl _ _ _) as [b'|e] eqn:Hfold; cbn [fmap result_fmap]; [|discriminate].
  intros [= <-]. exists b'. split; [reflexivity|].
  apply SnapshotFacts.reinsert_fields in Hfold as (b0 & [= <-] & Hc & Ho & Hs).
  rewrite Hc, Ho, Hs, length_map. cbn. repeat split.
Qed.

Lemma btree_reload_recounts_size_witness :
  let b := BTreeIndex.delete (BTreeIndex.delete Samples.people_index (VInt 9) 9) (VInt 9) 9 in
  BTreeIndex.size b = 4 /\
  exists b',
    Snapshot.index_from_dict (Snapshot.json_index (Snapshot.btree_to_dict b))
    = Ok (Index.BTree b') /\
    BTreeIndex.size b' = 6.
Proof.
  intros b. split; [reflexivity|].
  destruct (Snapshot.index_from_dict (Snapshot.json_index (Snapshot.btree_to_dict b)))
    as [ix|e] eqn:Hix; [|vm_compute in Hix; discriminate].
  destruct (btree_reload_recounts_size b ix Hix) as (b' & -> & _ & _ & Hs).
  exists b'. split; [reflexivity|]. rewrite Hs. reflexivity.
Defined.

(** X30: loading what [Table.to_dict] saved gives back the table's name,
    column order, [next_row_id] and row slots, tombstones included; the
    cells come back as JSON returns them, so a table without datetime
    cells gets its rows back unchanged. *)
Theorem table_reload_keeps_rows `{PyBuiltins} (t t' : Table.t) :
  Snapshot.table_from_dict (Snapshot.json_table (Snapshot.table_to_dict t)) = Ok t' ->
  Table.name t' = Table.name t /\
  Table.column_order t' = Table.column_order t /\
  Table.next_row_id t' = Table.next_row_id t /\
  Table.rows t'
  = map (fmap (fun row =>
                 Snapshot.row_from_dict (Snapshot.json_row (Snapshot.row_to_dict row))))
        (Table.rows t) /\
  (Forall (fun row => Forall (fun cell => forall d, cell.2 <> VDatetime d) (Row.data row))
          (Table.scan t) ->
   Table.rows t' = Table.rows t).
Proof.
  unfold Snapshot.table_from_dict, Snapshot.json_table, Snapshot.table_to_dict.
  cbn [Snapshot.t_name Snapshot.t_columns Snapshot.t_column_order Snapshot.t_rows
       Snapshot.t_indexes Snapshot.t_next_row_id].
  destruct (Snapshot.traverse _ _) as [cols|e]; cbn [mbind result_bind]; [|discriminate].
  destruct (StorageFacts.new_ok (Table.name t) cols) as (table & Hnew & Hname & _).
  rewrite Hnew. cbn [mbind result_bind].
  destruct (foldl _ _ _) as [indexes|e]; cbn [mbind result_bind]; [|discriminate].
  intros [= <-]. cbn [Table.name Table.column_order Table.next_row_id Table.rows].
  split; [exact Hname|]. split; [reflexivity|]. split; [reflexivity|].
  assert (Hrows : map (fmap Snapshot.row_from_dict)
                    (map (fmap Snapshot.json_row) (map (fmap Snapshot.row_to_dict)
                       (Table.rows t)))
                  = map (fmap (fun row =>
                      Snapshot.row_from_dict (Snapshot.json_row (Snapshot.row_to_dict row))))
                      (Table.rows t)).
  { rewrite !map_map. apply map_ext. intros [row|]; reflexivity. }
  split; [exact Hrows|].
  intros Hcells. rewrite Hrows. clear Hrows. unfold Table.scan in Hcells.
  induction (Table.rows t) as [|slot rs IH]; [reflexivity|].
  cbn [map]. destruct slot as [row|].
  - cbn [omap list_omap id] in Hcells. apply Forall_cons in Hcells as [Hrow Hrest].
    rewrite (IH Hrest). f_equal. cbn. f_equal.
    destruct row as [data row_id]. unfold Snapshot.row_from_dict, Snapshot.json_row,
      Snapshot.row_to_dict. cbn. f_equal. cbn in Hrow.
    induction Hrow as [|[k v] data Hv _ IHd]; [reflexivity|].
    cbn [map]. rewrite IHd, (SnapshotFacts.json_value_id v Hv). reflexivity.
  - cbn [omap list_omap id] in Hcells. rewrite (IH Hcells). reflexivity.
Qed.

Lemma table_reload_keeps_rows_witness :
  exists t',
    Snapshot.table_from_dict
      (Snapshot.json_table (Snapshot.table_to_dict Samples.users_after_delete)) = Ok t' /\
    Table.rows t' = Table.rows Samples.users_after_delete.
Proof.
  destruct (Snapshot.table_from_dict
              (Snapshot.json_table (Snapshot.table_to_dict Samples.users_after_delete)))
    as [t'|e] eqn:Ht; [|vm_compute in Ht; discriminate].
  exists t'. split; [reflexivity|].
  apply (table_reload_keeps_rows Samples.users_after_delete t' Ht).
  vm_compute. repeat constructor; discriminate.
Defined.
